(** * Scaffold generator (generate-angular.js): entity extraction,
      inflection, request parsing and template fallback.

    A shallow embedding of the Angular generator script.  JavaScript
    strings are sequences of UTF-16 code units; they are modelled as
    [list N].  Functions of the script keep their names. *)

From Stdlib Require Import String Ascii List NArith ZArith Bool Lia Permutation.
Import ListNotations.
Local Open Scope string_scope.
Local Open Scope list_scope.

Set Implicit Arguments.

(* ===================================================================== *)
(** * JavaScript strings and arrays *)
(* ===================================================================== *)

Module JS.

(** A string value: its UTF-16 code units. *)
Definition jsstring := list N.

(** The code unit of an ASCII character, and the string of an ASCII
    literal of the script. *)
Definition ch (a : ascii) : N := N_of_ascii a.
Definition js (s : string) : jsstring := map N_of_ascii (list_ascii_of_string s).

(** Strict equality of strings. *)
Fixpoint streq (a b : jsstring) : bool :=
  match a, b with
  | [], [] => true
  | x :: a', y :: b' => N.eqb x y && streq a' b'
  | _, _ => false
  end.

(** [Array.prototype.includes] on an array of strings. *)
Definition arrIncludes (arr : list jsstring) (x : jsstring) : bool :=
  existsb (streq x) arr.

(** Relative index resolution shared by [String.prototype.slice] and
    [Array.prototype.slice]: a negative index counts from the end, and
    the result is clamped to [0, len]. *)
Definition relIndex (len : nat) (i : Z) : nat :=
  if (i <? 0)%Z then Z.to_nat (Z.max (Z.of_nat len + i) 0)
  else Nat.min (Z.to_nat i) len.

(** [x.slice(b, e)] for a string or an array [x]. *)
Definition slice {A} (x : list A) (b e : Z) : list A :=
  let from := relIndex (length x) b in
  let to := relIndex (length x) e in
  firstn (to - from) (skipn from x).

(** [x.slice(b)]: the end defaults to the length. *)
Definition sliceFrom {A} (x : list A) (b : Z) : list A :=
  slice x b (Z.of_nat (length x)).

(** [s.startsWith(p)] at position 0, as a prefix test. *)
Fixpoint startsWith (s p : jsstring) {struct p} : bool :=
  match p, s with
  | [], _ => true
  | c :: p', d :: s' => N.eqb c d && startsWith s' p'
  | _ :: _, [] => false
  end.

(** [s.endsWith(p)]: the last [length p] code units of [s] are [p]. *)
Definition endsWith (s p : jsstring) : bool :=
  (length p <=? length s)%nat && streq (skipn (length s - length p) s) p.

(** [s.indexOf(p)]: the first position at which [p] occurs, [None] for -1. *)
Fixpoint indexOf (s p : jsstring) : option nat :=
  if startsWith s p then Some 0%nat
  else match s with
       | [] => None
       | _ :: s' => option_map S (indexOf s' p)
       end.

(** [s.includes(p)]. *)
Definition includes (s p : jsstring) : bool :=
  match indexOf s p with Some _ => true | None => false end.

(** [arr.join(sep)] on an array of strings. *)
Fixpoint join (sep : jsstring) (arr : list jsstring) : jsstring :=
  match arr with
  | [] => []
  | [x] => x
  | x :: rest => x ++ sep ++ join sep rest
  end.

(** [s.charAt(i)]: the code unit at [i] as a string, empty out of range. *)
Definition charAt (s : jsstring) (i : nat) : jsstring :=
  match nth_error s i with Some c => [c] | None => [] end.

(** Truthiness of a string: the empty string is falsy. *)
Definition truthy (s : jsstring) : bool :=
  match s with [] => false | _ :: _ => true end.

End JS.
Import JS.

(* ===================================================================== *)
(** * Lexical inflector *)
(* ===================================================================== *)

(** [pluralize(entity)] *)
Definition pluralize (entity : jsstring) : jsstring :=
  if endsWith entity (js "y") then
    slice entity 0 (-1) ++ js "ies"
  else if endsWith entity (js "s") then
    entity
  else
    entity ++ js "s".

(* ===================================================================== *)
(** * Host runtime and completions *)
(* ===================================================================== *)

(** What the host supplies and the script only calls: the case mappings
    of strings (Unicode tables of the engine) and [path.basename].  They
    are kept abstract, so that what is proved holds for the engine's
    mappings whatever they do outside ASCII. *)
Class JSRuntime := {
  toLowerCase : jsstring -> jsstring;
  toUpperCase : jsstring -> jsstring;
  pathBasename : jsstring -> jsstring
}.

(** Case mapping of the Basic Latin block, where every engine agrees:
    enough to run the script on ASCII inputs. *)
Definition asciiLower (c : N) : N :=
  if ((65 <=? c) && (c <=? 90))%N then (c + 32)%N else c.
Definition asciiUpper (c : N) : N :=
  if ((97 <=? c) && (c <=? 122))%N then (c - 32)%N else c.

(** [path.basename] on a POSIX path: what follows the last separator,
    trailing separators dropped. *)
Fixpoint dropWhileEq (c : N) (r : jsstring) : jsstring :=
  match r with
  | x :: r' => if (x =? c)%N then dropWhileEq c r' else r
  | [] => []
  end.

Fixpoint takeUntilEq (c : N) (r : jsstring) : jsstring :=
  match r with
  | x :: r' => if (x =? c)%N then [] else x :: takeUntilEq c r'
  | [] => []
  end.

Definition posixBasename (s : jsstring) : jsstring :=
  rev (takeUntilEq 47 (dropWhileEq 47 (rev s))).

#[local] Instance asciiRuntime : JSRuntime := {|
  toLowerCase := map asciiLower;
  toUpperCase := map asciiUpper;
  pathBasename := posixBasename
|}.

(** Values a caller may pass where the script expects a string. *)
Inductive value :=
| VUndefined
| VNull
| VStr (s : jsstring).

(** The two values that have no properties. *)
Inductive nullish :=
| Null
| Undefined.

(** Outcome of evaluating a function body, or of awaiting a promise: a
    value, or something thrown.  What is thrown is kept as the text its
    [message] property reads as (an error object, or any other value that
    has properties), or it is [null] or [undefined], on which no property
    can be read. *)
Inductive completion (A : Type) :=
| Normal (a : A)
| Throw (message : jsstring)
| ThrowNullish (v : nullish).
Arguments Normal {A} a.
Arguments Throw {A} message.
Arguments ThrowNullish {A} v.

Definition bindC {A B} (c : completion A) (f : A -> completion B) : completion B :=
  match c with
  | Normal a => f a
  | Throw e => Throw e
  | ThrowNullish v => ThrowNullish v
  end.

(** The message of the TypeError thrown by a property access on [null] or
    [undefined]. *)
Definition noProperties (v : nullish) : jsstring :=
  match v with
  | Undefined => js "TypeError: Cannot read properties of undefined"
  | Null => js "TypeError: Cannot read properties of null"
  end.

(** Property access on a value that must be a string: [undefined] and
    [null] have no properties. *)
Definition requireString (v : value) : completion jsstring :=
  match v with
  | VStr s => Normal s
  | VUndefined => Throw (js "TypeError: Cannot read properties of undefined")
  | VNull => Throw (js "TypeError: Cannot read properties of null")
  end.

(* ===================================================================== *)
(** * Regular expressions of the script *)
(* ===================================================================== *)

Module RegExp.

(** Single-character matchers. *)
Inductive cclass :=
| CLit (c : N)      (* a pattern character, no flag i *)
| CLitI (c : N)     (* a pattern character under flag i *)
| CDot              (* .  *)
| CSpace.           (* \s *)

(** The pattern forms the script uses.  Quantifiers [*] and [+] only
    occur on single-character matchers ([\s*], [.+]). *)
Inductive regex :=
| Eps
| Atom (c : cclass)
| Star (c : cclass)
| Plus (c : cclass)
| Opt (r : regex)
| Cat (r1 r2 : regex)
| Alt (r1 r2 : regex)
| WordB
| Group (r : regex).

Definition isLineTerminator (c : N) : bool :=
  (c =? 10)%N || (c =? 13)%N || (c =? 8232)%N || (c =? 8233)%N.

(** WhiteSpace and LineTerminator code units: [\s] and [trim]. *)
Definition isWhiteSpace (c : N) : bool :=
  ((9 <=? c) && (c <=? 13))%N || (c =? 32)%N || (c =? 160)%N ||
  (c =? 5760)%N || ((8192 <=? c) && (c <=? 8202))%N ||
  (c =? 8232)%N || (c =? 8233)%N || (c =? 8239)%N || (c =? 8287)%N ||
  (c =? 12288)%N || (c =? 65279)%N.

(** [\w] without flag u: ASCII letters, digits and underscore. *)
Definition isWordChar (c : N) : bool :=
  ((97 <=? c) && (c <=? 122))%N || ((65 <=? c) && (c <=? 90))%N ||
  ((48 <=? c) && (c <=? 57))%N || (c =? 95)%N.

(** Canonicalize of flag i without flag u.  A code unit outside ASCII
    never canonicalizes to an ASCII one, and all pattern characters of
    the script are ASCII, so the comparison in [cmatch] is exact. *)
Definition canonicalize (c : N) : N := asciiUpper c.

Definition cmatch (cl : cclass) (x : N) : bool :=
  match cl with
  | CLit c => (x =? c)%N
  | CLitI c => (canonicalize x =? canonicalize c)%N
  | CDot => negb (isLineTerminator x)
  | CSpace => isWhiteSpace x
  end.

(** Matcher state: the code unit before the current position, the input
    from the current position on, and the text of capture group 1. *)
Record mstate := MState {
  prev : option N;
  rest : jsstring;
  cap : option jsstring
}.

Definition isWordOpt (o : option N) : bool :=
  match o with Some c => isWordChar c | None => false end.

(** Greedy iteration of a single-character matcher, then continuation
    [k]; gives characters back one at a time when [k] fails. *)
Fixpoint starLoop (cl : cclass) (k : mstate -> option mstate)
    (p : option N) (s : jsstring) (c : option jsstring) : option mstate :=
  match s with
  | x :: s' =>
      if cmatch cl x then
        match starLoop cl k (Some x) s' c with
        | Some r => Some r
        | None => k (MState p s c)
        end
      else k (MState p s c)
  | [] => k (MState p s c)
  end.

(** Backtracking matcher in continuation-passing style, alternatives
    tried left to right. *)
Fixpoint m (r : regex) (st : mstate) (k : mstate -> option mstate) : option mstate :=
  match r with
  | Eps => k st
  | Atom cl =>
      match rest st with
      | x :: s' => if cmatch cl x then k (MState (Some x) s' (cap st)) else None
      | [] => None
      end
  | Star cl => starLoop cl k (prev st) (rest st) (cap st)
  | Plus cl =>
      match rest st with
      | x :: s' => if cmatch cl x then starLoop cl k (Some x) s' (cap st) else None
      | [] => None
      end
  | Opt r1 =>
      match m r1 st k with
      | Some res => Some res
      | None => k st
      end
  | Cat r1 r2 => m r1 st (fun st' => m r2 st' k)
  | Alt r1 r2 =>
      match m r1 st k with
      | Some res => Some res
      | None => m r2 st k
      end
  | WordB =>
      if xorb (isWordOpt (prev st)) (isWordOpt (hd_error (rest st)))
      then k st else None
  | Group r1 =>
      m r1 st (fun st' =>
        k (MState (prev st') (rest st')
             (Some (firstn (length (rest st) - length (rest st')) (rest st)))))
  end.

(** Try every start position from the left. *)
Fixpoint execFrom (r : regex) (p : option N) (s : jsstring) : option mstate :=
  match m r (MState p s None) Some with
  | Some res => Some res
  | None =>
      match s with
      | [] => None
      | x :: s' => execFrom r (Some x) s'
      end
  end.

(** [re.exec(s)] / [s.match(re)] for a pattern without flag g. *)
Definition exec (r : regex) (s : jsstring) : option mstate := execFrom r None s.

(** [re.test(s)] *)
Definition test (r : regex) (s : jsstring) : bool :=
  match exec r s with Some _ => true | None => false end.

(** A run of pattern characters. *)
Fixpoint lits (s : jsstring) : regex :=
  match s with
  | [] => Eps
  | c :: s' => Cat (Atom (CLit c)) (lits s')
  end.

Fixpoint litsI (s : jsstring) : regex :=
  match s with
  | [] => Eps
  | c :: s' => Cat (Atom (CLitI c)) (litsI s')
  end.

End RegExp.
Import RegExp.

(** [s.trim()] *)
Fixpoint trimStart (s : jsstring) : jsstring :=
  match s with
  | c :: s' => if isWhiteSpace c then trimStart s' else s
  | [] => []
  end.

Definition trim (s : jsstring) : jsstring := rev (trimStart (rev (trimStart s))).

(* ===================================================================== *)
(** * Entity extractor *)
(* ===================================================================== *)

(** [entityKeywords], in the order of the object literal (the order in
    which [Object.entries] lists it). *)
Definition entityKeywords : list (jsstring * list jsstring) :=
  map (fun e => (js (fst e), map js (snd e)))
  [ ("user", ["user"; "account"; "profile"; "member"]);
    ("product", ["product"; "item"; "goods"; "merchandise"]);
    ("order", ["order"; "purchase"; "transaction"]);
    ("post", ["post"; "article"; "blog"]);
    ("comment", ["comment"; "review"; "feedback"]);
    ("task", ["task"; "todo"; "assignment"; "job"]);
    ("project", ["project"; "workspace"]);
    ("customer", ["customer"; "client"]);
    ("invoice", ["invoice"; "bill"; "receipt"]);
    ("payment", ["payment"; "transaction"]);
    ("booking", ["booking"; "reservation"; "appointment"]);
    ("event", ["event"; "meeting"; "conference"]);
    ("category", ["category"; "tag"; "label"]);
    ("message", ["message"; "chat"; "conversation"]);
    ("notification", ["notification"; "alert"]);
    ("report", ["report"; "analytics"; "statistics"]);
    ("document", ["document"; "file"; "attachment"]);
    ("inventory", ["inventory"; "stock"; "warehouse"]);
    ("employee", ["employee"; "staff"; "worker"]);
    ("department", ["department"; "division"; "team"]) ].

(** The pattern built for one keyword:
    [\b${base}(?:y|ies)\b] when it ends in "y", [\b${keyword}s?\b]
    otherwise, both with flag i. *)
Definition keywordPattern (keyword : jsstring) : regex :=
  if endsWith keyword (js "y") then
    let base := slice keyword 0 (-1) in
    Cat WordB (Cat (litsI base)
      (Cat (Alt (litsI (js "y")) (litsI (js "ies"))) WordB))
  else
    Cat WordB (Cat (litsI keyword)
      (Cat (Opt (Atom (CLitI (ch "s")))) WordB)).

(** The inner loop over the keywords of one entity, with its [break]. *)
Fixpoint scanKeywords (descriptionLower entityName : jsstring)
    (keywords : list jsstring) (entities : list jsstring) : list jsstring :=
  match keywords with
  | [] => entities
  | keyword :: more =>
      if test (keywordPattern keyword) descriptionLower then
        if negb (arrIncludes entities entityName)
        then entities ++ [entityName]
        else entities
      else scanKeywords descriptionLower entityName more entities
  end.

(** The outer loop over the entries of the lexicon. *)
Definition scanLexicon (descriptionLower : jsstring)
    (lexicon : list (jsstring * list jsstring)) (entities : list jsstring)
    : list jsstring :=
  fold_left (fun acc entry =>
               scanKeywords descriptionLower (fst entry) (snd entry) acc)
            lexicon entities.

(** [extractEntitiesFromDescription(description)] *)
Definition extractEntitiesFromDescription `{JSRuntime} (description : value)
    : completion (list jsstring) :=
  bindC (requireString description) (fun d =>
    let descriptionLower := toLowerCase d in
    let entities := scanLexicon descriptionLower entityKeywords [] in
    let entities :=
      if (length entities =? 0)%nat then entities ++ [js "item"] else entities in
    Normal (slice entities 0 3)).

(** [capitalize(str)] *)
Definition capitalize `{JSRuntime} (str : jsstring) : jsstring :=
  toUpperCase (charAt str 0) ++ sliceFrom str 1.

(* --------------------------------------------------------------------- *)
(** ** What the extractor's patterns mean, in the words of the
       specification *)

(** Case-insensitive equality of two strings, as flag i compares them. *)
Definition eqI (a b : jsstring) : Prop := map canonicalize a = map canonicalize b.

(** The code unit just before a suffix: the last one of the prefix. *)
Definition lastOf (pre : jsstring) : option N := hd_error (rev pre).

(** The code unit before the position reached after reading [xs] from a
    position whose previous code unit is [p]. *)
Definition lastOr (p : option N) (xs : jsstring) : option N :=
  match lastOf xs with Some x => Some x | None => p end.

(** [w] occurs in [s] as a standalone word: some occurrence of [w]
    (whatever the case) has no word character just before and none
    just after. *)
Definition occursAsWord (w s : jsstring) : Prop :=
  exists pre mid post,
    s = pre ++ mid ++ post /\ eqI mid w /\
    isWordOpt (lastOf pre) = false /\ isWordOpt (hd_error post) = false.

(** The two forms of a keyword: "y" / "ies" for a keyword ending in "y",
    the keyword with an optional trailing "s" otherwise. *)
Definition keywordForms (keyword : jsstring) : list jsstring :=
  if endsWith keyword (js "y") then
    [slice keyword 0 (-1) ++ js "y"; slice keyword 0 (-1) ++ js "ies"]
  else [keyword; keyword ++ js "s"].

(** A keyword matches a text when one of its forms occurs in it as a
    standalone word. *)
Definition keywordMatches (keyword s : jsstring) : Prop :=
  exists form, In form (keywordForms keyword) /\ occursAsWord form s.

(** Some keyword of a lexicon entry matches. *)
Definition entryMatches (entry : jsstring * list jsstring) (s : jsstring) : Prop :=
  exists keyword, In keyword (snd entry) /\ keywordMatches keyword s.

(** Positions reachable by a pattern from a position, whatever the order
    in which the matcher tries them. *)
Fixpoint den (r : regex) (p : option N) (s : jsstring)
    (p' : option N) (s' : jsstring) : Prop :=
  match r with
  | Eps => p' = p /\ s' = s
  | Atom cl => exists x, s = x :: s' /\ cmatch cl x = true /\ p' = Some x
  | Star cl =>
      exists xs, s = xs ++ s' /\ forallb (cmatch cl) xs = true /\
                 p' = lastOr p xs
  | Plus cl =>
      exists x xs, s = (x :: xs) ++ s' /\ forallb (cmatch cl) (x :: xs) = true /\
                   p' = lastOf (x :: xs)
  | Opt r1 => den r1 p s p' s' \/ (p' = p /\ s' = s)
  | Cat r1 r2 => exists q t, den r1 p s q t /\ den r2 q t p' s'
  | Alt r1 r2 => den r1 p s p' s' \/ den r2 p s p' s'
  | WordB => (p' = p /\ s' = s) /\
             xorb (isWordOpt p) (isWordOpt (hd_error s)) = true
  | Group r1 => den r1 p s p' s'
  end.

(** Whether the inner loop reaches its [break] for a lexicon entry. *)
Definition entryHit (descriptionLower : jsstring)
    (entry : jsstring * list jsstring) : bool :=
  existsb (fun keyword => test (keywordPattern keyword) descriptionLower)
          (snd entry).

(** The entities array when the loops are done, before the default and
    the cap. *)
Definition recorded `{JSRuntime} (d : jsstring) : list jsstring :=
  scanLexicon (toLowerCase d) entityKeywords [].

(** Keywords are runs of lower-case ASCII letters. *)
Definition isLowerLetter (c : N) : bool := ((97 <=? c) && (c <=? 122))%N.
Definition isKeyword (w : jsstring) : bool := truthy w && forallb isLowerLetter w.

(* ===================================================================== *)
(** * The world of a generation run *)
(* ===================================================================== *)

(** What the script reads of its environment: whether [require('openai')]
    succeeded, and the three variables of [process.env]. *)
Record Env := {
  OPENAI_AVAILABLE : bool;
  OPENAI_API_KEY : option jsstring;
  OPENAI_ENDPOINT : option jsstring;
  OPENAI_MODEL : option jsstring
}.

(** [clientConfig] *)
Record ClientConfig := {
  apiKey : jsstring;
  baseURL : option jsstring
}.

(** The argument of [openai.chat.completions.create]; the temperature is
    the constant 0.7. *)
Record ChatRequest := {
  model : jsstring;
  systemContent : jsstring;
  userContent : jsstring;
  max_tokens : nat
}.

(** The external text-generation service, which the script only uses:
    how the client constructor completes on a configuration, and how the
    n-th call of a run completes when [response.choices[0].message.content]
    is read off the awaited response: with that text, or with what is
    thrown on the way (a rejected request, a response without the expected
    shape).  Nothing is assumed of what the library throws or rejects
    with: it may be an error with a message, or [null] or [undefined]. *)
Record OpenAIService := {
  construct : ClientConfig -> completion unit;
  create : nat -> ClientConfig -> ChatRequest -> completion jsstring
}.

(** A path, kept as the segments handed to [path.join]. *)
Definition path := list jsstring.

(** The state a run acts on: calls made to the service, console lines,
    and files written, oldest first. *)
Record World := {
  calls : nat;
  console : list jsstring;
  written : list (path * jsstring)
}.

(** Computations of the script: they act on the world and complete
    normally or throw. *)
Definition M (A : Type) : Type := World -> completion A * World.

Definition ret {A} (a : A) : M A := fun w => (Normal a, w).

Definition bind {A B} (c : M A) (f : A -> M B) : M B :=
  fun w =>
    match c w with
    | (Normal a, w') => f a w'
    | (Throw e, w') => (Throw e, w')
    | (ThrowNullish v, w') => (ThrowNullish v, w')
    end.

Notation "x <- c ;; k" := (bind c (fun x => k))
  (at level 61, c at next level, right associativity).
Notation "c ;;; k" := (bind c (fun _ => k))
  (at level 61, right associativity).

(** [try { body } catch (error) { handler(error.message) }], for a
    handler that starts by reading [error.message]: on [null] or
    [undefined] that read throws a TypeError, which leaves the catch
    block. *)
Definition tryCatch {A} (body : M A) (handler : jsstring -> M A) : M A :=
  fun w =>
    match body w with
    | (Normal a, w') => (Normal a, w')
    | (Throw e, w') => handler e w'
    | (ThrowNullish v, w') => (Throw (noProperties v), w')
    end.

(** [console.log] / [console.warn] *)
Definition consoleLog (line : jsstring) : M unit :=
  fun w => (Normal tt,
            {| calls := calls w; console := console w ++ [line];
               written := written w |}).

(** [fs.writeFileSync(path.join(...), content)]: the write is recorded;
    failures of the file system are outside the model. *)
Definition writeFileSync (p : path) (content : jsstring) : M unit :=
  fun w => (Normal tt,
            {| calls := calls w; console := console w;
               written := written w ++ [(p, content)] |}).

(** [new OpenAI(clientConfig)] *)
Definition newOpenAI (openai : OpenAIService) (cfg : ClientConfig) : M ClientConfig :=
  fun w =>
    match construct openai cfg with
    | Normal _ => (Normal cfg, w)
    | Throw message => (Throw message, w)
    | ThrowNullish v => (ThrowNullish v, w)
    end.

(** [(await client.chat.completions.create(request)).choices[0].message.content] *)
Definition chatCompletionsCreate (openai : OpenAIService) (client : ClientConfig)
    (request : ChatRequest) : M jsstring :=
  fun w =>
    let w' := {| calls := S (calls w); console := console w;
                 written := written w |} in
    match create openai (calls w) client request with
    | Normal text => (Normal text, w')
    | Throw message => (Throw message, w')
    | ThrowNullish v => (ThrowNullish v, w')
    end.

(** Iteration of a [for ... of] loop with an effectful body. *)
Fixpoint forEachM {A} (f : A -> M unit) (l : list A) : M unit :=
  match l with
  | [] => ret tt
  | x :: l' => f x ;;; forEachM f l'
  end.

(** Truthiness of a value that is a string or absent. *)
Definition truthyOpt (o : option jsstring) : bool :=
  match o with Some s => truthy s | None => false end.

(** [a || b] on such values. *)
Definition orElse (o : option jsstring) (d : jsstring) : jsstring :=
  match o with
  | Some ((_ :: _) as s) => s
  | _ => d
  end.

(* ===================================================================== *)
(** * Templates *)
(* ===================================================================== *)

(** A template literal, line by line: literal text, an interpolated
    value, or a double quote. *)
Inductive piece :=
| T (text : string)
| V (value : jsstring)
| Q.

Definition nl : jsstring := [10%N].
Definition dq : jsstring := [34%N].

Definition pieceText (p : piece) : jsstring :=
  match p with
  | T text => js text
  | V value => value
  | Q => dq
  end.

Definition render (lines : list (list piece)) : jsstring :=
  join nl (map (fun line => concat (map pieceText line)) lines).

(** The prompt of [generateEntityComponent]. *)
Definition componentPrompt (entityName entityClass description : jsstring) : jsstring :=
  render [
    [T "Generate an Angular component for managing '"; V entityName; T "' entities in a "; V description; T "."];
    [];
    [T "Requirements:"];
    [T "1. Component class name: "; V entityClass; T "ListComponent"];
    [T "2. Use Angular 17+ patterns with standalone: false (module-based)"];
    [T "3. Include TypeScript interface for "; V entityClass; T " with relevant properties based on context"];
    [T "4. Include CRUD operations: list, create, update, delete"];
    [T "5. Use reactive forms for create/edit"];
    [T "6. Include error handling and loading states"];
    [T "7. Use modern Angular patterns (signals, inject(), etc.)"];
    [T "8. Include proper typing and documentation"];
    [T "9. Return ONLY the TypeScript component code, no explanations"];
    [];
    [T "Generate the component.ts file content:"] ].

(** The fallback template of [generateEntityComponent]. *)
Definition componentTemplate (entityName entityClass entityPlural : jsstring) : jsstring :=
  render [
    [T "import { Component, OnInit } from '@angular/core';"];
    [T "import { "; V entityClass; T "Service } from '../../services/"; V entityName; T ".service';"];
    [T "import { "; V entityClass; T " } from '../../../core/interfaces/"; V entityName; T ".interface';"];
    [];
    [T "@Component({"];
    [T "  selector: 'app-"; V entityName; T "-list',"];
    [T "  templateUrl: './"; V entityName; T "-list.component.html',"];
    [T "  styleUrls: ['./"; V entityName; T "-list.component.scss'],"];
    [T "  standalone: false"];
    [T "})"];
    [T "export class "; V entityClass; T "ListComponent implements OnInit {"];
    [T "  "; V entityPlural; T ": "; V entityClass; T "[] = [];"];
    [T "  loading = false;"];
    [T "  error: string | null = null;"];
    [];
    [T "  constructor(private "; V entityName; T "Service: "; V entityClass; T "Service) {}"];
    [];
    [T "  ngOnInit(): void {"];
    [T "    this.load"; V entityClass; T "s();"];
    [T "  }"];
    [];
    [T "  load"; V entityClass; T "s(): void {"];
    [T "    this.loading = true;"];
    [T "    this."; V entityName; T "Service.getAll().subscribe({"];
    [T "      next: (data) => {"];
    [T "        this."; V entityPlural; T " = data;"];
    [T "        this.loading = false;"];
    [T "      },"];
    [T "      error: (err) => {"];
    [T "        this.error = 'Failed to load "; V entityPlural; T "';"];
    [T "        this.loading = false;"];
    [T "      }"];
    [T "    });"];
    [T "  }"];
    [];
    [T "  delete"; V entityClass; T "(id: number): void {"];
    [T "    if (confirm('Are you sure?')) {"];
    [T "      this."; V entityName; T "Service.delete(id).subscribe({"];
    [T "        next: () => this.load"; V entityClass; T "s(),"];
    [T "        error: (err) => this.error = 'Failed to delete "; V entityName; T "'"];
    [T "      });"];
    [T "    }"];
    [T "  }"];
    [T "}"];
    [] ].

(** The prompt of [generateEntityService]. *)
Definition servicePrompt (entityName entityClass description : jsstring) : jsstring :=
  render [
    [T "Generate an Angular service for managing '"; V entityName; T "' entities in a "; V description; T "."];
    [];
    [T "Requirements:"];
    [T "1. Service class name: "; V entityClass; T "Service"];
    [T "2. Use HttpClient for API calls"];
    [T "3. Include methods: getAll(), getById(id), create(data), update(id, data), delete(id)"];
    [T "4. Return Observables with proper typing"];
    [T "5. Include error handling"];
    [T "6. Use environment.apiUrl for base URL"];
    [T "7. Include proper TypeScript interfaces"];
    [T "8. Return ONLY the TypeScript service code, no explanations"];
    [];
    [T "Generate the service.ts file content:"] ].

(** The fallback template of [generateEntityService]. *)
Definition serviceTemplate (entityName entityClass entityPlural : jsstring) : jsstring :=
  render [
    [T "import { Injectable } from '@angular/core';"];
    [T "import { HttpClient } from '@angular/common/http';"];
    [T "import { Observable } from 'rxjs';"];
    [T "import { environment } from '../../../environments/environment';"];
    [T "import { "; V entityClass; T " } from '../../core/interfaces/"; V entityName; T ".interface';"];
    [];
    [T "@Injectable({"];
    [T "  providedIn: 'root'"];
    [T "})"];
    [T "export class "; V entityClass; T "Service {"];
    [T "  private apiUrl = `${environment.apiUrl}/"; V entityPlural; T "`;"];
    [];
    [T "  constructor(private http: HttpClient) {}"];
    [];
    [T "  getAll(): Observable<"; V entityClass; T "[]> {"];
    [T "    return this.http.get<"; V entityClass; T "[]>(this.apiUrl);"];
    [T "  }"];
    [];
    [T "  getById(id: number): Observable<"; V entityClass; T "> {"];
    [T "    return this.http.get<"; V entityClass; T ">(`${this.apiUrl}/${id}`);"];
    [T "  }"];
    [];
    [T "  create(data: Partial<"; V entityClass; T ">): Observable<"; V entityClass; T "> {"];
    [T "    return this.http.post<"; V entityClass; T ">(this.apiUrl, data);"];
    [T "  }"];
    [];
    [T "  update(id: number, data: Partial<"; V entityClass; T ">): Observable<"; V entityClass; T "> {"];
    [T "    return this.http.put<"; V entityClass; T ">(`${this.apiUrl}/${id}`, data);"];
    [T "  }"];
    [];
    [T "  delete(id: number): Observable<void> {"];
    [T "    return this.http.delete<void>(`${this.apiUrl}/${id}`);"];
    [T "  }"];
    [T "}"];
    [] ].

(** [componentHtml] of [generateEntityFeature]. *)
Definition componentHtml (entityName entityClass entityPlural : jsstring) : jsstring :=
  render [
    [T "<div class="; Q; V entityName; T "-list"; Q; T ">"];
    [T "  <h2>"; V entityClass; T " Management</h2>"];
    [T "  "];
    [T "  <div *ngIf="; Q; T "loading"; Q; T " class="; Q; T "loading"; Q; T ">Loading...</div>"];
    [T "  <div *ngIf="; Q; T "error"; Q; T " class="; Q; T "error"; Q; T ">{{ error }}</div>"];
    [T "  "];
    [T "  <div class="; Q; V entityPlural; T "-grid"; Q; T ">"];
    [T "    <div *ngFor="; Q; T "let "; V entityName; T " of "; V entityPlural; Q; T " class="; Q; V entityName; T "-card"; Q; T ">"];
    [T "      <h3>{{ "; V entityName; T ".name || "; V entityName; T ".title }}</h3>"];
    [T "      <button (click)="; Q; T "delete"; V entityClass; T "("; V entityName; T ".id)"; Q; T ">Delete</button>"];
    [T "    </div>"];
    [T "  </div>"];
    [T "</div>"];
    [] ].

(** [componentScss] of [generateEntityFeature]. *)
Definition componentScss (entityName entityClass entityPlural : jsstring) : jsstring :=
  render [
    [T "."; V entityName; T "-list {"];
    [T "  padding: 20px;"];
    [T "  "];
    [T "  ."; V entityPlural; T "-grid {"];
    [T "    display: grid;"];
    [T "    grid-template-columns: repeat(auto-fill, minmax(300px, 1fr));"];
    [T "    gap: 20px;"];
    [T "    margin-top: 20px;"];
    [T "  }"];
    [T "  "];
    [T "  ."; V entityName; T "-card {"];
    [T "    border: 1px solid #ddd;"];
    [T "    padding: 15px;"];
    [T "    border-radius: 8px;"];
    [T "  }"];
    [T "}"];
    [] ].

(** [interfaceCode] of [generateEntityFeature]. *)
Definition interfaceCode (entityClass : jsstring) : jsstring :=
  render [
    [T "export interface "; V entityClass; T " {"];
    [T "  id: number;"];
    [T "  name: string;"];
    [T "  createdAt?: Date;"];
    [T "  updatedAt?: Date;"];
    [T "}"];
    [] ].

(** [moduleCode] of [generateEntityFeature]. *)
Definition moduleCode (entityName entityClass : jsstring) : jsstring :=
  render [
    [T "import { NgModule } from '@angular/core';"];
    [T "import { CommonModule } from '@angular/common';"];
    [T "import { RouterModule, Routes } from '@angular/router';"];
    [T "import { SharedModule } from '../../shared/shared.module';"];
    [T "import { "; V entityClass; T "ListComponent } from './components/"; V entityName; T "-list.component';"];
    [];
    [T "const routes: Routes = ["];
    [T "  { path: '', component: "; V entityClass; T "ListComponent }"];
    [T "];"];
    [];
    [T "@NgModule({"];
    [T "  declarations: ["; V entityClass; T "ListComponent],"];
    [T "  imports: ["];
    [T "    CommonModule,"];
    [T "    SharedModule,"];
    [T "    RouterModule.forChild(routes)"];
    [T "  ]"];
    [T "})"];
    [T "export class "; V entityClass; T "Module { }"];
    [] ].

(** [gitignore] of [createConfigFiles]. *)
Definition gitignore : jsstring :=
  render [
    [T "# Dependencies"];
    [T "node_modules/"];
    [];
    [T "# Build outputs"];
    [T "dist/"];
    [T ".angular/"];
    [];
    [T "# IDEs"];
    [T ".vscode/"];
    [T ".idea/"];
    [T "*.swp"];
    [T "*.swo"];
    [];
    [T "# OS"];
    [T ".DS_Store"];
    [T "Thumbs.db"];
    [];
    [T "# Testing"];
    [T "coverage/"];
    [];
    [T "# Environment"];
    [T ".env"];
    [T ".env.local"];
    [] ].

(** [editorconfig] of [createConfigFiles]. *)
Definition editorconfig : jsstring :=
  render [
    [T "root = true"];
    [];
    [T "[*]"];
    [T "charset = utf-8"];
    [T "indent_style = space"];
    [T "indent_size = 2"];
    [T "insert_final_newline = true"];
    [T "trim_trailing_whitespace = true"];
    [];
    [T "[*.md]"];
    [T "max_line_length = off"];
    [T "trim_trailing_whitespace = false"];
    [] ].

(** [npmrc] of [createConfigFiles]. *)
Definition npmrc : jsstring :=
  render [
    [T "legacy-peer-deps=true"];
    [] ].

(** [appModuleTs] of [createAppModule]. *)
Definition appModuleTs : jsstring :=
  render [
    [T "import { NgModule, CUSTOM_ELEMENTS_SCHEMA } from '@angular/core';"];
    [T "import { BrowserModule } from '@angular/platform-browser';"];
    [T "import { BrowserAnimationsModule } from '@angular/platform-browser/animations';"];
    [T "import { provideHttpClient, withInterceptorsFromDi } from '@angular/common/http';"];
    [];
    [T "import { AppRoutingModule } from './app-routing.module';"];
    [T "import { AppComponent } from './app.component';"];
    [T "import { CoreModule } from './core/core.module';"];
    [T "import { SharedModule } from './shared/shared.module';"];
    [T "import { LayoutModule } from './layout/layout.module';"];
    [];
    [T "@NgModule({"];
    [T "  declarations: [AppComponent],"];
    [T "  imports: ["];
    [T "    BrowserModule,"];
    [T "    BrowserAnimationsModule,"];
    [T "    AppRoutingModule,"];
    [T "    CoreModule,"];
    [T "    SharedModule,"];
    [T "    LayoutModule"];
    [T "  ],"];
    [T "  providers: [provideHttpClient(withInterceptorsFromDi())],"];
    [T "  bootstrap: [AppComponent],"];
    [T "  schemas: [CUSTOM_ELEMENTS_SCHEMA]"];
    [T "})"];
    [T "export class AppModule { }"];
    [] ].

(** [appComponentTs] of [createAppModule]. *)
Definition appComponentTs (projectName : jsstring) : jsstring :=
  render [
    [T "import { Component } from '@angular/core';"];
    [];
    [T "@Component({"];
    [T "  selector: 'app-root',"];
    [T "  templateUrl: './app.component.html',"];
    [T "  styleUrls: ['./app.component.scss'],"];
    [T "  standalone: false"];
    [T "})"];
    [T "export class AppComponent {"];
    [T "  title = '"; V projectName; T "';"];
    [T "}"];
    [] ].

(** [appComponentHtml] of [createAppModule]. *)
Definition appComponentHtml : jsstring :=
  render [
    [T "<app-layout>"];
    [T "  <router-outlet></router-outlet>"];
    [T "</app-layout>"];
    [] ].

(** [appComponentScss] of [createAppModule]. *)
Definition appComponentScss : jsstring :=
  render [
    [T "// App component styles"];
    [] ].

(** [appRoutingModule] of [createAppModule]. *)
Definition appRoutingModule : jsstring :=
  render [
    [T "import { NgModule } from '@angular/core';"];
    [T "import { RouterModule, Routes } from '@angular/router';"];
    [];
    [T "const routes: Routes = ["];
    [T "  {"];
    [T "    path: '',"];
    [T "    redirectTo: '/home',"];
    [T "    pathMatch: 'full'"];
    [T "  },"];
    [T "  {"];
    [T "    path: 'home',"];
    [T "    loadChildren: () => import('./features/home/home.module').then(m => m.HomeModule)"];
    [T "  }"];
    [T "];"];
    [];
    [T "@NgModule({"];
    [T "  imports: [RouterModule.forRoot(routes)],"];
    [T "  exports: [RouterModule]"];
    [T "})"];
    [T "export class AppRoutingModule { }"];
    [] ].

(** The text of [refSection] in [createReadme] when there are reference images. *)
Definition refSectionText (refLines : jsstring) : jsstring :=
  render [
    [];
    [];
    [T "## Reference Images"];
    [];
    [T "This project includes UI reference images that guided the design:"];
    [V refLines];
    [];
    [T "The UI components were generated using **Komodo Components** to match these reference designs."];
    [] ].

(** The text of [entitiesSection] in [createReadme] when entities were detected. *)
Definition entitiesSectionText (entityLines : jsstring) : jsstring :=
  render [
    [];
    [T "## Detected Entities"];
    [];
    [V entityLines];
    [] ].

(** One line of the entity list of the README. *)
Definition entityLine (entityClass entityPlural : jsstring) : jsstring :=
  render [
    [T "- **"; V entityClass; T "** - Feature module at `src/app/features/"; V entityPlural; T "/`"] ].

(** One line of the reference-image list of the README. *)
Definition refLine (imageName : jsstring) : jsstring :=
  render [
    [T "- `"; V imageName; T "` (copied to src/assets/images/)"] ].

(** The text of [readme] in [createReadme], around its interpolated parts. *)
Definition readmeText (projectName summary refSection entitiesSection featureLines builtWith : jsstring) : jsstring :=
  render [
    [T "# "; V projectName];
    [];
    [V summary];
    [V refSection; V entitiesSection];
    [T "## Komodo Components"];
    [];
    [T "This project uses **@business-app-systems/komodo-ui** components."];
    [];
    [T "**Komodo Component Library**: https://main--6871820252f4f69a29390192.chromatic.com/"];
    [];
    [T "Available components include:"];
    [T "- Accordion"];
    [T "- Button"];
    [T "- Card"];
    [T "- Dialog"];
    [T "- Form Controls"];
    [T "- Navigation"];
    [T "- Table"];
    [T "- And many more..."];
    [];
    [T "## Features"];
    [];
    [V featureLines];
    [];
    [T "## Prerequisites"];
    [];
    [T "- Node.js 18+"];
    [T "- npm 9+"];
    [T "- Angular CLI 18+"];
    [];
    [T "## Installation"];
    [];
    [T "```bash"];
    [T "npm install"];
    [T "```"];
    [];
    [T "## Development"];
    [];
    [T "```bash"];
    [T "npm start"];
    [T "```"];
    [];
    [T "Navigate to `http://localhost:4200/`"];
    [];
    [T "## Build"];
    [];
    [T "```bash"];
    [T "# Production build"];
    [T "npm run build:prod"];
    [];
    [T "# Development build"];
    [T "npm run build"];
    [T "```"];
    [];
    [T "## Project Structure"];
    [];
    [T "- `src/app/core/` - Singleton services and core functionality"];
    [T "- `src/app/shared/` - Reusable components, directives, pipes"];
    [T "- `src/app/layout/` - Layout components (header, footer)"];
    [T "- `src/app/features/` - Feature modules (lazy-loaded)"];
    [T "- `src/assets/` - Static assets including reference images"];
    [];
    [T "## Komodo Components Usage"];
    [];
    [T "Import Komodo modules in your feature modules:"];
    [];
    [T "```typescript"];
    [T "import { KomodoButtonModule, KomodoCardModule } from '@business-app-systems/komodo-ui';"];
    [];
    [T "@NgModule({"];
    [T "  imports: ["];
    [T "    KomodoButtonModule,"];
    [T "    KomodoCardModule"];
    [T "  ]"];
    [T "})"];
    [T "```"];
    [];
    [T "Use in templates:"];
    [];
    [T "```html"];
    [T "<komodo-button>Click Me</komodo-button>"];
    [T "<komodo-card>"];
    [T "  <komodo-card-header>Title</komodo-card-header>"];
    [T "  <komodo-card-content>Content here</komodo-card-content>"];
    [T "</komodo-card>"];
    [T "```"];
    [];
    [T "## Generated by CodeGen Automator"];
    [];
    [T "This project was automatically generated with:"];
    [T "- Module-based architecture (NOT standalone)"];
    [T "- Komodo UI component library"];
    [T "- SCSS styling"; V builtWith];
    [] ].

(* ===================================================================== *)
(** * Generative assist and per-entity generation *)
(* ===================================================================== *)

(** The warning sign, the link and the robot of the console lines
    (U+26A0 U+FE0F, U+1F517, U+1F916), the package (U+1F4E6) and the
    check mark (U+2713). *)
Definition warningSign : jsstring := [9888; 65039]%N.
Definition linkSign : jsstring := [55357; 56599]%N.
Definition robotSign : jsstring := [55358; 56598]%N.
Definition packageSign : jsstring := [55357; 56550]%N.
Definition checkMark : jsstring := [10003]%N.

Definition systemPrompt : jsstring :=
  js "You are an expert Angular developer. Generate clean, production-ready TypeScript/Angular code following best practices. Include proper typing, error handling, and documentation.".

(** [s.replace(/<fence>\n?/g, '')] for a non-empty literal [fence]:
    every occurrence, left to right, with the line feed after it when
    there is one.  [skip] counts the code units of a match still to be
    dropped. *)
Fixpoint removeFence (fence : jsstring) (skip : nat) (s : jsstring) : jsstring :=
  match s with
  | [] => []
  | c :: s' =>
      match skip with
      | S k => removeFence fence k s'
      | O =>
          if startsWith s fence then
            let n := (length fence +
                      if startsWith (skipn (length fence) s) nl then 1 else 0)%nat in
            removeFence fence (n - 1) s'
          else c :: removeFence fence 0 s'
      end
  end.

(** [aiCode.replace(/```typescript\n?/g, '').replace(/```\n?/g, '')] *)
Definition cleanCode (aiCode : jsstring) : jsstring :=
  removeFence (js "```") 0 (removeFence (js "```typescript") 0 aiCode).

Section Generator.

Context {runtime : JSRuntime}.
Variables (env : Env) (openai : OpenAIService).

(** [generateCodeWithAI(prompt, model = null, maxTokens = 2000)];
    [null] is [None]. *)
Definition generateCodeWithAI (prompt : jsstring) (model : option jsstring)
    (maxTokens : nat) : M (option jsstring) :=
  if negb (OPENAI_AVAILABLE env) then
    consoleLog (js "   " ++ warningSign ++
                js "  OpenAI not available, falling back to template") ;;;
    ret None
  else
    let apiKey := OPENAI_API_KEY env in
    let endpoint := OPENAI_ENDPOINT env in
    let defaultModel := orElse (OPENAI_MODEL env) (js "gpt-4") in
    if negb (truthyOpt apiKey) then
      consoleLog (js "   " ++ warningSign ++
                  js "  OPENAI_API_KEY environment variable not set, falling back to template") ;;;
      ret None
    else
      let selectedModel := orElse model defaultModel in
      tryCatch
        (let clientConfig :=
           {| apiKey := orElse apiKey [];
              baseURL := if truthyOpt endpoint then endpoint else None |} in
         (if truthyOpt endpoint then
            consoleLog (js "   " ++ linkSign ++
                        js " Using custom OpenAI endpoint: " ++ orElse endpoint [])
          else ret tt) ;;;
         client <- newOpenAI openai clientConfig ;;
         consoleLog (js "   " ++ robotSign ++
                     js " Generating code with model: " ++ selectedModel) ;;;
         content <- chatCompletionsCreate openai client
                      {| model := selectedModel;
                         systemContent := systemPrompt;
                         userContent := prompt;
                         max_tokens := maxTokens |} ;;
         ret (Some (trim content)))
        (fun message =>
           consoleLog (js "   " ++ warningSign ++ js "  OpenAI API error: " ++
                       message ++ js ", falling back to template") ;;;
           ret None).

(** The default [''] of the parameter [description]. *)
Definition descriptionOrEmpty (description : option jsstring) : jsstring :=
  match description with Some d => d | None => [] end.

(** [generateEntityComponent(entityName, description = '', useAI = true)] *)
Definition generateEntityComponent (entityName : jsstring)
    (description : option jsstring) (useAI : bool) : M jsstring :=
  let description := descriptionOrEmpty description in
  let entityClass := capitalize entityName in
  let entityPlural := pluralize entityName in
  let template := componentTemplate entityName entityClass entityPlural in
  if useAI && truthy description then
    aiCode <- generateCodeWithAI
                (componentPrompt entityName entityClass description) None 3000 ;;
    if truthyOpt aiCode then ret (cleanCode (orElse aiCode []))
    else ret template
  else ret template.

(** [generateEntityService(entityName, description = '', useAI = true)] *)
Definition generateEntityService (entityName : jsstring)
    (description : option jsstring) (useAI : bool) : M jsstring :=
  let description := descriptionOrEmpty description in
  let entityClass := capitalize entityName in
  let entityPlural := pluralize entityName in
  let template := serviceTemplate entityName entityClass entityPlural in
  if useAI && truthy description then
    aiCode <- generateCodeWithAI
                (servicePrompt entityName entityClass description) None 2000 ;;
    if truthyOpt aiCode then ret (cleanCode (orElse aiCode []))
    else ret template
  else ret template.

(** [generateEntityFeature(projectPath, entityName, description)] *)
Definition generateEntityFeature (projectPath entityName : jsstring)
    (description : option jsstring) : M unit :=
  let entityClass := capitalize entityName in
  let entityPlural := pluralize entityName in
  let featurePath := [projectPath; js "src/app/features"; entityPlural] in
  componentCode <- generateEntityComponent entityName description true ;;
  writeFileSync (featurePath ++ [js "components"; entityName ++ js "-list.component.ts"])
                componentCode ;;;
  writeFileSync (featurePath ++ [js "components"; entityName ++ js "-list.component.html"])
                (componentHtml entityName entityClass entityPlural) ;;;
  writeFileSync (featurePath ++ [js "components"; entityName ++ js "-list.component.scss"])
                (componentScss entityName entityClass entityPlural) ;;;
  serviceCode <- generateEntityService entityName description true ;;
  writeFileSync (featurePath ++ [js "services"; entityName ++ js ".service.ts"])
                serviceCode ;;;
  writeFileSync [projectPath; js "src/app/core/interfaces"; entityName ++ js ".interface.ts"]
                (interfaceCode entityClass) ;;;
  writeFileSync (featurePath ++ [entityName ++ js ".module.ts"])
                (moduleCode entityName entityClass).

(** The configuration record built by [parseIssueBody]; [description]
    and [entities] are absent until assigned. *)
Record Config := {
  features : list jsstring;
  styling : jsstring;
  version : jsstring;
  architecture : jsstring;
  description : option jsstring;
  entities : option (list jsstring)
}.

(** [createConfigFiles(projectPath, config)] *)
Definition createConfigFiles (projectPath : jsstring) (config : Config) : M unit :=
  writeFileSync [projectPath; js ".gitignore"] gitignore ;;;
  writeFileSync [projectPath; js ".editorconfig"] editorconfig ;;;
  writeFileSync [projectPath; js ".npmrc"] npmrc ;;;
  let entities := match entities config with Some l => l | None => [] end in
  if (0 <? length entities)%nat then
    consoleLog (nl ++ packageSign ++ js " Generating entity-specific features...") ;;;
    forEachM (fun entity =>
                consoleLog (js "   " ++ checkMark ++ js " Generating " ++ entity ++
                            js " feature...") ;;;
                generateEntityFeature projectPath entity (description config))
             entities
  else ret tt.

(** [createAppModule(projectPath, projectName, referenceImages)] *)
Definition createAppModule (projectPath projectName : jsstring)
    (referenceImages : list jsstring) : M unit :=
  writeFileSync [projectPath; js "src/app/app.module.ts"] appModuleTs ;;;
  writeFileSync [projectPath; js "src/app/app.component.ts"] (appComponentTs projectName) ;;;
  writeFileSync [projectPath; js "src/app/app.component.html"] appComponentHtml ;;;
  writeFileSync [projectPath; js "src/app/app.component.scss"] appComponentScss ;;;
  writeFileSync [projectPath; js "src/app/app-routing.module.ts"] appRoutingModule.

(** [s.lastIndexOf(' ')], [None] for -1. *)
Fixpoint lastIndexOfChar (c : N) (s : jsstring) : option nat :=
  match s with
  | [] => None
  | x :: s' =>
      match lastIndexOfChar c s' with
      | Some i => Some (S i)
      | None => if (x =? c)%N then Some 0%nat else None
      end
  end.

(** [getDescriptionSummary(description, maxLength = 100)] *)
Definition getDescriptionSummary (description : option jsstring) (maxLength : nat)
    : jsstring :=
  if negb (truthyOpt description) then []
  else
    let description := descriptionOrEmpty description in
    let firstSentence := takeUntilEq (ch ".") description in
    if (length firstSentence <=? maxLength)%nat then firstSentence ++ js "."
    else if (length description <=? maxLength)%nat then description
    else
      let truncated := firstn maxLength description in
      let cut := match lastIndexOfChar (ch " ") truncated with
                 | Some i => i
                 | None => 0%nat
                 end in
      firstn cut truncated ++ js "...".

(** [createReadme(projectPath, projectName, config, referenceImages)] *)
Definition readme (projectName : jsstring) (config : Config)
    (referenceImages : list jsstring) : jsstring :=
  let hasReferenceImages := (0 <? length referenceImages)%nat in
  let refSection :=
    if hasReferenceImages then
      refSectionText
        (join nl (map (fun img => refLine (pathBasename img)) referenceImages))
    else [] in
  let entitiesSection :=
    match entities config with
    | Some ((_ :: _) as l) =>
        entitiesSectionText
          (join nl (map (fun entity =>
                           entityLine (capitalize entity) (pluralize entity)) l))
    | _ => []
    end in
  let summary :=
    match getDescriptionSummary (description config) 100 with
    | [] => js "Angular application with Komodo UI components"
    | s => s
    end in
  let featureLines :=
    if (0 <? length (features config))%nat then
      join nl (map (fun f => js "- " ++ f) (features config))
    else
      render [[T "- Module-based architecture"]; [T "- Komodo UI components"];
              [T "- SCSS styling"]; [T "- Routing"]] in
  readmeText projectName summary refSection entitiesSection featureLines
    (if hasReferenceImages then nl ++ js "- UI matching reference images" else []).

Definition createReadme (projectPath projectName : jsstring) (config : Config)
    (referenceImages : list jsstring) : M unit :=
  writeFileSync [projectPath; js "README.md"] (readme projectName config referenceImages).

(** The assignment [config.entities = extractEntitiesFromDescription(
    config.description || '')] at the head of [generateAngularProject]. *)
Definition assignEntities (config : Config) : completion Config :=
  bindC (extractEntitiesFromDescription
           (VStr (orElse (description config) [])))
        (fun detected =>
           Normal {| features := features config; styling := styling config;
                     version := version config;
                     architecture := architecture config;
                     description := description config;
                     entities := Some detected |}).

End Generator.

(* ===================================================================== *)
(** * Request parser *)
(* ===================================================================== *)

(** What follows the heading text in the pattern of a field:
    [\s*\n\s*(.+)]. *)
Definition valuePattern : regex :=
  Cat (Star CSpace)
    (Cat (Atom (CLit 10))
       (Cat (Star CSpace) (Group (Plus CDot)))).

(** The pattern [/<heading>\s*\n\s*(.+)/] of a field. *)
Definition headingPattern (heading : string) : regex :=
  Cat (lits (js heading)) valuePattern.

(** [issueBody.match(pattern)] followed, on a match, by [match[1].trim()];
    group 1 of a match that did not set it is [undefined]. *)
Definition matchField (heading : string) (issueBody : jsstring)
    : completion (option jsstring) :=
  match exec (headingPattern heading) issueBody with
  | None => Normal None
  | Some res =>
      match cap res with
      | Some text => Normal (Some (trim text))
      | None => Throw (js "TypeError: Cannot read properties of undefined")
      end
  end.

(** [if (issueBody.includes('- [X] <label>') || issueBody.includes('- [x]
    <label>')) config.features.push(tag)] *)
Definition checked (issueBody : jsstring) (label : string) : bool :=
  includes issueBody (js "- [X] " ++ js label) ||
  includes issueBody (js "- [x] " ++ js label).

Definition pushIf (cond : bool) (tag : string) (features : list jsstring)
    : list jsstring :=
  if cond then features ++ [js tag] else features.

(** [parseIssueBody(issueBody)] *)
Definition parseIssueBody (issueBody : value) : completion Config :=
  bindC (requireString issueBody) (fun body =>
  bindC (matchField "### Angular Version" body) (fun versionMatch =>
  bindC (matchField "### Styling Framework" body) (fun stylingMatch =>
  bindC (matchField "### Project Structure" body) (fun archMatch =>
  bindC (matchField "### Project Description" body) (fun descMatch =>
    let features := [] in
    let features := pushIf (checked body "Routing") "routing" features in
    let features := pushIf (checked body "State Management") "ngrx" features in
    let features := pushIf (checked body "HTTP Client") "http" features in
    let features := pushIf (checked body "Forms") "forms" features in
    let features := pushIf (checked body "Authentication") "auth" features in
    let features := pushIf (checked body "Unit Tests") "tests" features in
    let features := pushIf (checked body "E2E Tests") "e2e" features in
    let features := pushIf (checked body "Docker") "docker" features in
    let features := pushIf (checked body "PWA") "pwa" features in
    Normal {| features := features;
              styling := match stylingMatch with
                         | Some s => s
                         | None => js "CSS"
                         end;
              version := match versionMatch with
                         | Some s => s
                         | None => js "Angular 17 (Latest)"
                         end;
              architecture := match archMatch with
                              | Some s => s
                              | None => js "Standalone Components"
                              end;
              description := descMatch;
              entities := None |}))))).

(* --------------------------------------------------------------------- *)
(** ** The request text as a list of sections *)

(** The fixed vocabulary of feature toggles: checkbox label and the tag
    recorded for it, in the order of the tests. *)
Definition featureVocabulary : list (string * string) :=
  [ ("Routing", "routing"); ("State Management", "ngrx");
    ("HTTP Client", "http"); ("Forms", "forms"); ("Authentication", "auth");
    ("Unit Tests", "tests"); ("E2E Tests", "e2e"); ("Docker", "docker");
    ("PWA", "pwa") ].

(** A section of a request: the text of its heading line after "### ",
    and the block below it. *)
Record section := {
  title : jsstring;
  content : jsstring
}.

(** A section as the issue form prints it, and a request as its sections
    separated by blank lines. *)
Definition renderSection (sec : section) : jsstring :=
  js "### " ++ title sec ++ nl ++ nl ++ content sec.

Definition renderBody (secs : list section) : jsstring :=
  join (nl ++ nl) (map renderSection secs).

Definition notWhiteSpaceOpt (o : option N) : bool :=
  match o with Some c => negb (isWhiteSpace c) | None => true end.

(** A well-formed section: the title is one line without trailing blank,
    the block below it has a visible character (a value line), and
    neither holds the heading marker "###". *)
Definition wfSection (sec : section) : bool :=
  forallb (fun c => negb (c =? 10)%N) (title sec) &&
  notWhiteSpaceOpt (lastOf (title sec)) &&
  negb (includes (title sec) (js "###")) &&
  truthy (trimStart (content sec)) &&
  negb (includes (content sec) (js "###")).

(** The longest prefix a single-character matcher accepts, and what is
    left after it. *)
Fixpoint takeWhileC (cl : cclass) (s : jsstring) : jsstring :=
  match s with
  | x :: s' => if cmatch cl x then x :: takeWhileC cl s' else []
  | [] => []
  end.

Fixpoint dropWhileC (cl : cclass) (s : jsstring) : jsstring :=
  match s with
  | x :: s' => if cmatch cl x then dropWhileC cl s' else s
  | [] => []
  end.

(** The first line of a block: up to its first line terminator. *)
Definition firstLine (s : jsstring) : jsstring := takeWhileC CDot s.

(** The value line of a block: its first line with a visible character. *)
Definition valueLine (block : jsstring) : jsstring := firstLine (trimStart block).

(** The value of a field read off the sections: the trimmed value line
    of the section with that title. *)
Definition fieldOf (heading : string) (secs : list section) : option jsstring :=
  match find (fun sec => streq (title sec) (js heading)) secs with
  | Some sec => Some (trim (valueLine (content sec)))
  | None => None
  end.

(** Whether a toggle of the vocabulary is checked somewhere in the
    sections. *)
Definition checkedIn (secs : list section) (label : string) : bool :=
  existsb (fun sec => checked (title sec) label || checked (content sec) label) secs.

(** The configuration read off the sections, whatever their order. *)
Definition configOf (secs : list section) : Config :=
  {| features :=
       map (fun e => js (snd e))
           (filter (fun e => checkedIn secs (fst e)) featureVocabulary);
     styling := match fieldOf "Styling Framework" secs with
                | Some s => s
                | None => js "CSS"
                end;
     version := match fieldOf "Angular Version" secs with
                | Some s => s
                | None => js "Angular 17 (Latest)"
                end;
     architecture := match fieldOf "Project Structure" secs with
                     | Some s => s
                     | None => js "Standalone Components"
                     end;
     description := fieldOf "Project Description" secs;
     entities := None |}.

(** Patterns every match of which sets capture group 1. *)
Fixpoint setsCap (r : regex) : bool :=
  match r with
  | Group _ => true
  | Cat r1 r2 => setsCap r1 || setsCap r2
  | Alt r1 r2 => setsCap r1 && setsCap r2
  | _ => false
  end.

(* --------------------------------------------------------------------- *)
(** ** Runs without a working generative assist *)

(** The assist is not configured: the library is missing or no key is
    set. *)
Definition unconfigured (env : Env) : Prop :=
  OPENAI_AVAILABLE env = false \/ truthyOpt (OPENAI_API_KEY env) = false.

(** Every use of the service fails with an error that carries a message:
    the client constructor throws one, or it returns a client and every
    call fails with one. *)
Definition alwaysFails (openai : OpenAIService) : Prop :=
  forall cfg,
    (exists message, construct openai cfg = Throw message) \/
    (construct openai cfg = Normal tt /\
     forall n request, exists message, create openai n cfg request = Throw message).

Definition assistDown (env : Env) (openai : OpenAIService) : Prop :=
  unconfigured env \/ alwaysFails openai.

(** The files of one entity when every file comes from its template, in
    the order [generateEntityFeature] writes them. *)
Definition templateFiles `{JSRuntime} (projectPath entityName : jsstring)
    : list (path * jsstring) :=
  let entityClass := capitalize entityName in
  let entityPlural := pluralize entityName in
  let featurePath := [projectPath; js "src/app/features"; entityPlural] in
  [ (featurePath ++ [js "components"; entityName ++ js "-list.component.ts"],
     componentTemplate entityName entityClass entityPlural);
    (featurePath ++ [js "components"; entityName ++ js "-list.component.html"],
     componentHtml entityName entityClass entityPlural);
    (featurePath ++ [js "components"; entityName ++ js "-list.component.scss"],
     componentScss entityName entityClass entityPlural);
    (featurePath ++ [js "services"; entityName ++ js ".service.ts"],
     serviceTemplate entityName entityClass entityPlural);
    ([projectPath; js "src/app/core/interfaces"; entityName ++ js ".interface.ts"],
     interfaceCode entityClass);
    (featurePath ++ [entityName ++ js ".module.ts"],
     moduleCode entityName entityClass) ].

(* --------------------------------------------------------------------- *)
(** ** Registration of feature modules *)

(** [x] occurs in [s]. *)
Definition occursIn (x s : jsstring) : Prop := exists a b, s = a ++ x ++ b.

(** The directory of an entity's feature module as a route has to name
    it: [features/<plural>/], as in the route of the home module,
    ['./features/home/home.module']. *)
Definition featureDir (entityName : jsstring) : jsstring :=
  js "features/" ++ pluralize entityName ++ js "/".

(** The names the extractor can return. *)
Definition entityNames : list jsstring := map fst entityKeywords ++ [js "item"].

(** A text without line feed. *)
Definition noLineFeed (P : jsstring) : bool :=
  forallb (fun c => negb (c =? 10)%N) P.

(** Pairwise distinct strings. *)
Fixpoint distinct (l : list jsstring) : bool :=
  match l with
  | [] => true
  | x :: l' => negb (arrIncludes l' x) && distinct l'
  end.

(* ===================================================================== *)
(** * Further models *)
(* ===================================================================== *)

Unset Implicit Arguments.

(* --------------------------------------------------------------------- *)
(** ** Files of a feature, whatever the assist returns *)

(** The grave accent of a code fence. *)
Definition backtick : N := 96.

(** The files of one entity in the order [generateEntityFeature] writes
    them, for a given component and service code. *)
Definition entityFiles `{JSRuntime} (projectPath entityName : jsstring)
    (componentCode serviceCode : jsstring) : list (path * jsstring) :=
  let entityClass := capitalize entityName in
  let entityPlural := pluralize entityName in
  let featurePath := [projectPath; js "src/app/features"; entityPlural] in
  [ (featurePath ++ [js "components"; entityName ++ js "-list.component.ts"],
     componentCode);
    (featurePath ++ [js "components"; entityName ++ js "-list.component.html"],
     componentHtml entityName entityClass entityPlural);
    (featurePath ++ [js "components"; entityName ++ js "-list.component.scss"],
     componentScss entityName entityClass entityPlural);
    (featurePath ++ [js "services"; entityName ++ js ".service.ts"],
     serviceCode);
    ([projectPath; js "src/app/core/interfaces"; entityName ++ js ".interface.ts"],
     interfaceCode entityClass);
    (featurePath ++ [entityName ++ js ".module.ts"],
     moduleCode entityName entityClass) ].

(** Some use of the service fails with [null] or [undefined]: the
    client constructor throws it, or a call is rejected with it. *)
Definition nullishFailure (openai : OpenAIService) (v : nullish) : Prop :=
  (exists cfg, construct openai cfg = ThrowNullish v) \/
  (exists n cfg request, create openai n cfg request = ThrowNullish v).

(** A completion with the TypeError that reading [error.message] raises
    in the catch block of [generateCodeWithAI], a use of the service
    having failed with [null] or [undefined]. *)
Definition catchFailure (openai : OpenAIService) {A : Type} (c : completion A) : Prop :=
  exists v, c = Throw (noProperties v) /\ nullishFailure openai v.

(** The service is reachable and answers every request with the same
    text. *)
Definition answers (openai : OpenAIService) (text : jsstring) : Prop :=
  (forall cfg, construct openai cfg = Normal tt) /\
  (forall n cfg request, create openai n cfg request = Normal text).

(** The assist is configured: the library is loaded and a key is set. *)
Definition configured (env : Env) : Prop :=
  OPENAI_AVAILABLE env = true /\ truthyOpt (OPENAI_API_KEY env) = true.

(* --------------------------------------------------------------------- *)
(** ** Sample environments *)

(** The library is loaded, no key is set. *)
Definition noKeyEnv : Env :=
  {| OPENAI_AVAILABLE := true; OPENAI_API_KEY := None;
     OPENAI_ENDPOINT := None; OPENAI_MODEL := None |}.

(** The library is loaded and a key is set. *)
Definition keyEnv : Env :=
  {| OPENAI_AVAILABLE := true; OPENAI_API_KEY := Some (js "sk-test");
     OPENAI_ENDPOINT := None; OPENAI_MODEL := None |}.

(** A service that answers every request with a fenced class. *)
Definition fencedAnswer : jsstring :=
  js "```typescript" ++ nl ++ js "export class A {}" ++ nl ++ js "```" ++ nl.

Definition fixedService : OpenAIService :=
  {| construct := fun _ => Normal tt;
     create := fun _ _ _ => Normal fencedAnswer |}.

(** A service that rejects every request with [null]. *)
Definition nullService : OpenAIService :=
  {| construct := fun _ => Normal tt;
     create := fun _ _ _ => ThrowNullish Null |}.

(** The world before a run. *)
Definition emptyWorld : World := {| calls := 0; console := []; written := [] |}.

(* --------------------------------------------------------------------- *)
(** ** Order of a result *)

(** [s] is [l] with some elements left out, the others in their order. *)
Inductive subsequence {A : Type} : list A -> list A -> Prop :=
| sub_nil : subsequence [] []
| sub_skip (x : A) (s l : list A) : subsequence s l -> subsequence s (x :: l)
| sub_take (x : A) (s l : list A) : subsequence s l -> subsequence (x :: s) (x :: l).

(* --------------------------------------------------------------------- *)
(** ** Shape of a field value *)

(** A text on one line: it holds no line terminator. *)
Definition singleLine (s : jsstring) : bool :=
  forallb (fun c => negb (isLineTerminator c)) s.

(** A text without blank at either end. *)
Definition trimmed (s : jsstring) : bool :=
  notWhiteSpaceOpt (hd_error s) && notWhiteSpaceOpt (lastOf s).

Definition tidy (s : jsstring) : bool := singleLine s && trimmed s.

(** A configuration as [parseIssueBody] returns it for a request without
    description, once "item" has been assigned. *)
Definition bareConfig : Config :=
  {| features := []; styling := js "CSS"; version := js "Angular 17 (Latest)";
     architecture := js "Standalone Components"; description := None;
     entities := Some [js "item"] |}.

(* --------------------------------------------------------------------- *)
(** ** Directories and paths of a project *)

(** The [dirs] array of [createModuleBasedStructure] when its loop over
    [config.entities || ['item']] is done: the fixed directories, then
    two per entity. *)
Definition structureDirs (config : Config) : list jsstring :=
  let entities := match entities config with Some l => l | None => [js "item"] end in
  map js [ "src/app/core/services"; "src/app/core/interfaces";
           "src/app/shared/components"; "src/app/shared/directives";
           "src/app/shared/pipes"; "src/app/layout/header";
           "src/app/layout/footer"; "src/app/layout/sidebar";
           "src/app/features/home/components"; "src/assets/images";
           "src/environments"; "public" ] ++
  flat_map (fun entity =>
              [ js "src/app/features/" ++ pluralize entity ++ js "/components";
                js "src/app/features/" ++ pluralize entity ++ js "/services" ])
           entities.

(** The text of a path: its segments with the separator between them, as
    [path.join] puts them together. *)
Definition pathText (p : path) : jsstring := join (js "/") p.

(** The directory a file of the project is written to, relative to the
    project: the segments between the project path and the file name. *)
Definition directoryOf (p : path) : jsstring := pathText (removelast (tl p)).

(** [fs.mkdirSync(path.join(projectPath, dir), { recursive: true })] for
    every [dir] of [dirs] leaves a directory of the project in place when
    it is one of [dirs] or lies above one. *)
Definition createdBy (dirs : list jsstring) (d : jsstring) : bool :=
  existsb (fun dir => streq dir d || startsWith dir (d ++ js "/")) dirs.

(** The paths of the files of an entity, relative to the project. *)
Definition entityPaths (entityName : jsstring) : list jsstring :=
  let entityPlural := pluralize entityName in
  let featurePath := [js "src/app/features"; entityPlural] in
  map pathText
    [ featurePath ++ [js "components"; entityName ++ js "-list.component.ts"];
      featurePath ++ [js "components"; entityName ++ js "-list.component.html"];
      featurePath ++ [js "components"; entityName ++ js "-list.component.scss"];
      featurePath ++ [js "services"; entityName ++ js ".service.ts"];
      [js "src/app/core/interfaces"; entityName ++ js ".interface.ts"];
      featurePath ++ [entityName ++ js ".module.ts"] ].

(** The paths, relative to the project, that [createConfigFiles] writes
    for a list of entities. *)
Definition configPaths (names : list jsstring) : list jsstring :=
  map js [".gitignore"; ".editorconfig"; ".npmrc"] ++ flat_map entityPaths names.

(* ===================================================================== *)
(** * Modification of a generated project (modify-angular.js) *)
(* ===================================================================== *)

(** [str.slice(1).replace(/-([a-z])/g, (g) => g[1].toUpperCase())] on the
    text after the first code unit: every hyphen followed by a lower-case
    ASCII letter, left to right, becomes the upper-cased letter. *)
Fixpoint camelCase `{JSRuntime} (s : jsstring) : jsstring :=
  match s with
  | c :: s' =>
      match s' with
      | d :: s'' =>
          if (c =? 45)%N && isLowerLetter d then toUpperCase [d] ++ camelCase s''
          else c :: camelCase s'
      | [] => [c]
      end
  | [] => []
  end.

(** [capitalizeFirst(str)] *)
Definition capitalizeFirst `{JSRuntime} (str : jsstring) : jsstring :=
  toUpperCase (charAt str 0) ++ camelCase (sliceFrom str 1).

(** The feature name [addAngularComponent] derives from
    [modifications.description || '']. *)
Definition featureNameOf `{JSRuntime} (description : option jsstring) : jsstring :=
  let description := orElse description [] in
  if includes (toLowerCase description) (js "auth") then js "auth"
  else if includes (toLowerCase description) (js "user") then js "user"
  else if includes (toLowerCase description) (js "dashboard") then js "dashboard"
  else js "new-feature".

(** GetSubstitution of [String.prototype.replace] for a pattern with one
    capture group and no named group: the replacement text expanded for a
    match [matched] found after [before] and followed by [after], group 1
    holding [capture].  [$$] is a dollar sign, [$&] the match, [$`] and
    [$'] the text before and after it, [$1] and [$01] the group; any other
    dollar sign stands for itself. *)
Fixpoint getSubstitution (matched before after capture replacement : jsstring)
    : jsstring :=
  match replacement with
  | [] => []
  | c :: r1 =>
      if negb (c =? 36)%N then
        c :: getSubstitution matched before after capture r1
      else
        match r1 with
        | [] => [c]
        | d :: r2 =>
            if (d =? 36)%N then
              36%N :: getSubstitution matched before after capture r2
            else if (d =? 96)%N then
              before ++ getSubstitution matched before after capture r2
            else if (d =? 38)%N then
              matched ++ getSubstitution matched before after capture r2
            else if (d =? 39)%N then
              after ++ getSubstitution matched before after capture r2
            else if (d =? 49)%N then
              capture ++ getSubstitution matched before after capture r2
            else if (d =? 48)%N then
              match r2 with
              | e :: r3 =>
                  if (e =? 49)%N then
                    capture ++ getSubstitution matched before after capture r3
                  else c :: getSubstitution matched before after capture r1
              | [] => c :: getSubstitution matched before after capture r1
              end
            else c :: getSubstitution matched before after capture r1
        end
  end.

(** [s.replace(/(<literal>)/, replacement)] for a non-empty literal: the
    first occurrence is replaced, group 1 being the whole match; a text
    without occurrence is returned as it is. *)
Definition replaceFirst (literal replacement s : jsstring) : jsstring :=
  match indexOf s literal with
  | None => s
  | Some i =>
      let before := firstn i s in
      let after := skipn (i + length literal) s in
      before ++ getSubstitution literal before after literal replacement ++ after
  end.

(** [newRoute] of [updateAppRouting]. *)
Definition newRoute `{JSRuntime} (featureName : jsstring) : jsstring :=
  render [
    [T "  {"];
    [T "    path: '"; V featureName; T "',"];
    [T "    loadChildren: () => import('./features/"; V featureName; T "/";
     V featureName; T ".module').then(m => m."; V (capitalizeFirst featureName);
     T "Module)"];
    [T "  }"] ].

(** The text [updateAppRouting] looks for before it adds a route. *)
Definition routeMarker (featureName : jsstring) : jsstring :=
  js "path: '" ++ featureName ++ js "'".

(** [updateAppRouting(projectPath, featureName, structure)] on a routing
    file that exists, as a function of the text of the file: the text the
    file holds afterwards.  The file is written only when the route was
    not there. *)
Definition updateAppRouting `{JSRuntime} (content featureName : jsstring) : jsstring :=
  if negb (includes content (routeMarker featureName)) then
    replaceFirst (js "];") (js "," ++ nl ++ newRoute featureName ++ nl ++ js "$1") content
  else content.

(** A text that does not hold the code unit [c]. *)
Definition without (c : N) (s : jsstring) : bool :=
  forallb (fun x => negb (x =? c)%N) s.

(** A text without dollar sign. *)
Definition noDollar (s : jsstring) : bool := forallb (fun c => negb (c =? 36)%N) s.

(** A runtime that upper-cases lower-case ASCII letters as ASCII does. *)
Definition asciiFaithful `{JSRuntime} : Prop :=
  forall s, forallb isLowerLetter s = true -> toUpperCase s = map asciiUpper s.

(** The generated routing module up to the end of its last route, and
    what follows the closing bracket of its routes. *)
Definition generatedRoutes : jsstring :=
  render [
    [T "import { NgModule } from '@angular/core';"];
    [T "import { RouterModule, Routes } from '@angular/router';"];
    [];
    [T "const routes: Routes = ["];
    [T "  {"];
    [T "    path: '',"];
    [T "    redirectTo: '/home',"];
    [T "    pathMatch: 'full'"];
    [T "  },"];
    [T "  {"];
    [T "    path: 'home',"];
    [T "    loadChildren: () => import('./features/home/home.module').then(m => m.HomeModule)"];
    [T "  }"];
    [] ].

Definition generatedRoutesEnd : jsstring :=
  render [
    [];
    [];
    [T "@NgModule({"];
    [T "  imports: [RouterModule.forRoot(routes)],"];
    [T "  exports: [RouterModule]"];
    [T "})"];
    [T "export class AppRoutingModule { }"];
    [] ].

(* --------------------------------------------------------------------- *)
(** ** Dependencies added to package.json *)

(** A value of the parsed package.json: a string, or another JSON value
    of which only the truthiness is looked at. *)
Inductive json :=
| JString (s : jsstring)
| JOther (isTruthy : bool).

Definition jsonTruthy (v : json) : bool :=
  match v with
  | JString s => truthy s
  | JOther b => b
  end.

(** The own properties of an object, by name. *)
Definition object := jsstring -> option json.

(** The names every object inherits from [Object.prototype]; what they
    hold is a function or an object, hence truthy. *)
Definition protoKeys : list jsstring :=
  map js [ "constructor"; "__defineGetter__"; "__defineSetter__";
           "hasOwnProperty"; "__lookupGetter__"; "__lookupSetter__";
           "isPrototypeOf"; "propertyIsEnumerable"; "toString"; "valueOf";
           "__proto__"; "toLocaleString" ].

(** Truthiness of [obj[name]]: an own property, else an inherited one. *)
Definition propTruthy (obj : object) (name : jsstring) : bool :=
  match obj name with
  | Some v => jsonTruthy v
  | None => arrIncludes protoKeys name
  end.

(** [obj[name] = value], for a name that read as falsy. *)
Definition setProp (obj : object) (name : jsstring) (v : json) : object :=
  fun k => if streq k name then Some v else obj k.

(** [s.split(sep)] for a separator of one code unit. *)
Fixpoint split (sep : N) (s : jsstring) : list jsstring :=
  match s with
  | [] => [[]]
  | c :: s' =>
      if (c =? sep)%N then [] :: split sep s'
      else match split sep s' with
           | x :: others => (c :: x) :: others
           | [] => [[c]]
           end
  end.

(** The body of the loop of [updatePackageJson] for one entry [dep], on
    [packageJson.dependencies]: an object, or absent ([None]). *)
Definition addDependency (dependencies : option object) (dep : jsstring)
    : completion (option object) :=
  if truthy dep && negb (startsWith dep (js "Python:")) then
    let parts := split (ch "@") dep in
    let name := nth 0 parts [] in
    let version := nth_error parts 1 in
    if truthy name then
      match dependencies with
      | None => Throw (js "TypeError: Cannot read properties of undefined")
      | Some obj =>
          if negb (propTruthy obj name) then
            Normal (Some (setProp obj name (JString (orElse version (js "latest")))))
          else Normal dependencies
      end
    else Normal dependencies
  else Normal dependencies.

(** [dependencies.forEach(dep => ...)] of [updatePackageJson]. *)
Fixpoint updatePackageJson (packageDependencies : option object)
    (dependencies : list jsstring) : completion (option object) :=
  match dependencies with
  | [] => Normal packageDependencies
  | dep :: others =>
      bindC (addDependency packageDependencies dep)
            (fun updated => updatePackageJson updated others)
  end.

(** The dependencies of the package.json the generator writes: names
    and versions. *)
Definition generatedDependencies : object :=
  fun name =>
    option_map (fun e => JString (js (snd e)))
      (find (fun e => streq name (js (fst e)))
         [ ("@angular/animations", "^18.0.0"); ("@angular/common", "^18.0.0");
           ("@angular/compiler", "^18.0.0"); ("@angular/core", "^18.0.0");
           ("@angular/forms", "^18.0.0"); ("@angular/platform-browser", "^18.0.0");
           ("@angular/platform-browser-dynamic", "^18.0.0");
           ("@angular/router", "^18.0.0");
           ("@business-app-systems/komodo-ui", "latest");
           ("rxjs", "~7.8.0"); ("tslib", "^2.3.0"); ("zone.js", "~0.14.0") ]).

(* ===================================================================== *)
(** * Modification request parser (parse-modification-request.js) *)
(* ===================================================================== *)

Module Rx.

(** The pattern forms of this script.  A class of code units is given by
    its test; [Many r] is only used on an [r] that consumes input, and no
    group stands inside a repetition or a lookahead. *)
Inductive regex :=
| Eps
| Chr (f : N -> bool)        (* one code unit of a class *)
| Cat (r1 r2 : regex)
| Alt (r1 r2 : regex)
| Star (f : N -> bool)       (* c*, greedy *)
| Plus (f : N -> bool)       (* c+, greedy *)
| LazyPlus (f : N -> bool)   (* c+? *)
| Opt (r : regex)            (* r?, greedy *)
| Many (r : regex)           (* (?:r)+, greedy *)
| Group (r : regex)          (* capture group 1 *)
| Ahead (r : regex)          (* (?=r) *)
| AtEnd.                     (* $ without flag m *)

(** Greedy iteration of a class, then the continuation; code units are
    given back one at a time when the continuation fails. *)
Fixpoint starLoop (f : N -> bool) (k : mstate -> option mstate)
    (p : option N) (s : jsstring) (c : option jsstring) : option mstate :=
  match s with
  | x :: s' =>
      if f x then
        match starLoop f k (Some x) s' c with
        | Some r => Some r
        | None => k (MState p s c)
        end
      else k (MState p s c)
  | [] => k (MState p s c)
  end.

(** Lazy iteration: the continuation first, one more code unit of the
    class when it fails. *)
Fixpoint lazyLoop (f : N -> bool) (k : mstate -> option mstate)
    (p : option N) (s : jsstring) (c : option jsstring) : option mstate :=
  match k (MState p s c) with
  | Some r => Some r
  | None =>
      match s with
      | x :: s' => if f x then lazyLoop f k (Some x) s' c else None
      | [] => None
      end
  end.

(** Greedy iteration, at least once, of a matcher [step] that consumes
    input, then the continuation: after every iteration one more is
    tried first.  [fuel] bounds the number of iterations and is more than
    the length of the input. *)
Fixpoint manyLoop (step : mstate -> (mstate -> option mstate) -> option mstate)
    (k : mstate -> option mstate) (fuel : nat) (st : mstate) : option mstate :=
  match fuel with
  | O => None
  | S fuel' =>
      step st (fun st' =>
        if (length (rest st') <? length (rest st))%nat then
          match manyLoop step k fuel' st' with
          | Some res => Some res
          | None => k st'
          end
        else None)
  end.

(** Backtracking matcher in continuation-passing style. *)
Fixpoint m (r : regex) (st : mstate) (k : mstate -> option mstate) : option mstate :=
  match r with
  | Eps => k st
  | Chr f =>
      match rest st with
      | x :: s' => if f x then k (MState (Some x) s' (cap st)) else None
      | [] => None
      end
  | Cat r1 r2 => m r1 st (fun st' => m r2 st' k)
  | Alt r1 r2 =>
      match m r1 st k with
      | Some res => Some res
      | None => m r2 st k
      end
  | Star f => starLoop f k (prev st) (rest st) (cap st)
  | Plus f =>
      match rest st with
      | x :: s' => if f x then starLoop f k (Some x) s' (cap st) else None
      | [] => None
      end
  | LazyPlus f =>
      match rest st with
      | x :: s' => if f x then lazyLoop f k (Some x) s' (cap st) else None
      | [] => None
      end
  | Opt r1 =>
      match m r1 st k with
      | Some res => Some res
      | None => k st
      end
  | Many r1 => manyLoop (m r1) k (S (length (rest st))) st
  | Group r1 =>
      m r1 st (fun st' =>
        k (MState (prev st') (rest st')
             (Some (firstn (length (rest st) - length (rest st')) (rest st)))))
  | Ahead r1 =>
      match m r1 st Some with
      | Some _ => k st
      | None => None
      end
  | AtEnd =>
      match rest st with
      | [] => k st
      | _ :: _ => None
      end
  end.

(** Try every start position from the left. *)
Fixpoint execFrom (r : regex) (p : option N) (s : jsstring) : option mstate :=
  match m r (MState p s None) Some with
  | Some res => Some res
  | None =>
      match s with
      | [] => None
      | x :: s' => execFrom r (Some x) s'
      end
  end.

(** [s.match(re)] for a pattern without flag g. *)
Definition exec (r : regex) (s : jsstring) : option mstate := execFrom r None s.

(** A pattern character under flag i, and a run of them. *)
Definition chrI (c : N) : regex :=
  Chr (fun x => (canonicalize x =? canonicalize c)%N).

Fixpoint litI (s : jsstring) : regex :=
  match s with
  | [] => Eps
  | c :: s' => Cat (chrI c) (litI s')
  end.

(** What a match of a pattern does to the state, whatever the order in
    which the matcher tries the alternatives. *)
Inductive den : regex -> mstate -> mstate -> Prop :=
| den_eps (st : mstate) : den Eps st st
| den_chr (f : N -> bool) (x : N) (s : jsstring) (st : mstate) :
    rest st = x :: s -> f x = true -> den (Chr f) st (MState (Some x) s (cap st))
| den_cat (r1 r2 : regex) (st mid st' : mstate) :
    den r1 st mid -> den r2 mid st' -> den (Cat r1 r2) st st'
| den_alt_l (r1 r2 : regex) (st st' : mstate) : den r1 st st' -> den (Alt r1 r2) st st'
| den_alt_r (r1 r2 : regex) (st st' : mstate) : den r2 st st' -> den (Alt r1 r2) st st'
| den_star (f : N -> bool) (xs : jsstring) (st st' : mstate) :
    rest st = xs ++ rest st' -> forallb f xs = true -> cap st' = cap st ->
    den (Star f) st st'
| den_plus (f : N -> bool) (xs : jsstring) (st st' : mstate) :
    xs <> [] -> rest st = xs ++ rest st' -> forallb f xs = true -> cap st' = cap st ->
    den (Plus f) st st'
| den_lazy (f : N -> bool) (xs : jsstring) (st st' : mstate) :
    xs <> [] -> rest st = xs ++ rest st' -> forallb f xs = true -> cap st' = cap st ->
    den (LazyPlus f) st st'
| den_opt_some (r : regex) (st st' : mstate) : den r st st' -> den (Opt r) st st'
| den_opt_none (r : regex) (st : mstate) : den (Opt r) st st
| den_many_one (r : regex) (st st' : mstate) : den r st st' -> den (Many r) st st'
| den_many_more (r : regex) (st mid st' : mstate) :
    den r st mid -> den (Many r) mid st' -> den (Many r) st st'
| den_group (r : regex) (st mid : mstate) :
    den r st mid ->
    den (Group r) st
        (MState (prev mid) (rest mid)
           (Some (firstn (length (rest st) - length (rest mid)) (rest st))))
| den_ahead (r : regex) (st res : mstate) : den r st res -> den (Ahead r) st st
| den_end (st : mstate) : rest st = [] -> den AtEnd st st.

End Rx.

Module Modification.

(** The classes [[:\s]], [[^\n]], [[^#]], [[-*]] and [.]. *)
Definition colonOrSpace (c : N) : bool := (c =? 58)%N || isWhiteSpace c.
Definition notLineFeed (c : N) : bool := negb (c =? 10)%N.
Definition notHash (c : N) : bool := negb (c =? 35)%N.
Definition bullet (c : N) : bool := (c =? 45)%N || (c =? 42)%N.
Definition dot (c : N) : bool := negb (isLineTerminator c).

(** [/\*\*<label>\*\*[:\s]*([^\n]+)/i] *)
Definition linePattern (label : string) : Rx.regex :=
  Rx.Cat (Rx.litI (js "**" ++ js label ++ js "**"))
    (Rx.Cat (Rx.Star colonOrSpace) (Rx.Group (Rx.Plus notLineFeed))).

(** [/\*\*<label>\*\*[:\s]*\n([^#]+?)(?=\n\*\*|$)/is] *)
Definition blockPattern (label : string) : Rx.regex :=
  Rx.Cat (Rx.litI (js "**" ++ js label ++ js "**"))
    (Rx.Cat (Rx.Star colonOrSpace)
       (Rx.Cat (Rx.chrI 10)
          (Rx.Cat (Rx.Group (Rx.LazyPlus notHash))
             (Rx.Ahead (Rx.Alt (Rx.litI (nl ++ js "**")) Rx.AtEnd))))).

(** [/<label>:[^\n]*\n((?:[-*]\s+.+\n?)+)/i] *)
Definition listPattern (label : string) : Rx.regex :=
  Rx.Cat (Rx.litI (js label ++ js ":"))
    (Rx.Cat (Rx.Star notLineFeed)
       (Rx.Cat (Rx.chrI 10)
          (Rx.Group
             (Rx.Many
                (Rx.Cat (Rx.Chr bullet)
                   (Rx.Cat (Rx.Plus isWhiteSpace)
                      (Rx.Cat (Rx.Plus dot) (Rx.Opt (Rx.chrI 10))))))))).

(** [text.match(pattern)] reduced to group 1: [None] without match;
    reading group 1 of a match that did not set it throws at the method
    call that follows. *)
Definition group1 (pattern : Rx.regex) (text : jsstring)
    : completion (option jsstring) :=
  match Rx.exec pattern text with
  | None => Normal None
  | Some res =>
      match cap res with
      | Some captured => Normal (Some captured)
      | None => Throw (js "TypeError: Cannot read properties of undefined")
      end
  end.

(** [line.replace(/^[-*]\s+/, '')]: a bullet at the start of the line
    goes with all the white space after it, when there is some. *)
Definition stripBullet (line : jsstring) : jsstring :=
  match line with
  | c :: x :: others =>
      if bullet c && isWhiteSpace x then trimStart (x :: others) else line
  | _ => line
  end.

(** [text.split('\n').map(line => line.replace(/^[-*]\s+/, '').trim())] *)
Definition itemLines (text : jsstring) : list jsstring :=
  map (fun line => trim (stripBullet line)) (split 10 text).

(** [line.match(/^(Python|Angular|npm):/i)] as a test. *)
Definition labelled (line : jsstring) : bool :=
  existsb (fun label => startsWith (map canonicalize line)
                          (map canonicalize (js label ++ js ":")))
          ["Python"; "Angular"; "npm"].

(** The object [parseModificationRequest] returns. *)
Record Modifications := {
  target_repo : jsstring;
  project_type : jsstring;
  modification_type : jsstring;
  description : jsstring;
  files_to_create : list jsstring;
  files_to_modify : list jsstring;
  dependencies : list jsstring
}.

(** [if (m) field = m[1].trim()], the field keeping [current] otherwise. *)
Definition trimmedOr (current : jsstring) (captured : option jsstring) : jsstring :=
  match captured with
  | Some text => trim text
  | None => current
  end.

(** The files named under [label] in the block of files. *)
Definition filesUnder (label : string) (filesText : jsstring)
    : completion (list jsstring) :=
  bindC (group1 (listPattern label) filesText) (fun listMatch =>
    Normal (match listMatch with
            | Some text => filter (fun line => (0 <? length line)%nat) (itemLines text)
            | None => []
            end)).

(** [parseModificationRequest(issueBody)] *)
Definition parseModificationRequest (issueBody : value) : completion Modifications :=
  bindC (requireString issueBody) (fun body =>
  bindC (group1 (linePattern "Target Repository") body) (fun targetRepoMatch =>
  bindC (group1 (linePattern "Project Type") body) (fun projectTypeMatch =>
  bindC (group1 (linePattern "Modification Type") body) (fun modTypeMatch =>
  bindC (group1 (blockPattern "Description") body) (fun descMatch =>
  bindC (group1 (blockPattern "Files to Modify/Create") body) (fun filesMatch =>
  bindC (match filesMatch with
         | Some filesText =>
             bindC (filesUnder "Create" filesText) (fun created =>
             bindC (filesUnder "Modify" filesText) (fun modified =>
               Normal (created, modified)))
         | None => Normal ([], [])
         end) (fun files =>
  bindC (group1 (blockPattern "New Dependencies") body) (fun depsMatch =>
    Normal {| target_repo := trimmedOr [] targetRepoMatch;
              project_type := trimmedOr [] projectTypeMatch;
              modification_type := trimmedOr [] modTypeMatch;
              description := trimmedOr [] descMatch;
              files_to_create := fst files;
              files_to_modify := snd files;
              dependencies :=
                match depsMatch with
                | Some depsText =>
                    filter (fun line => (0 <? length line)%nat && negb (labelled line))
                           (itemLines depsText)
                | None => []
                end |})))))))).

End Modification.

(** An entry of a list of the request: not empty, without blank at
    either end and without line feed. *)
Definition cleanItem (line : jsstring) : bool :=
  truthy line && trimmed line && forallb Modification.notLineFeed line.

(** The result for a request that names nothing. *)
Definition noModifications : Modification.Modifications :=
  {| Modification.target_repo := []; Modification.project_type := [];
     Modification.modification_type := []; Modification.description := [];
     Modification.files_to_create := []; Modification.files_to_modify := [];
     Modification.dependencies := [] |}.

(* ===================================================================== *)
(** * Properties *)
(* ===================================================================== *)

Unset Implicit Arguments.

(* --------------------------------------------------------------------- *)
(** ** Strings *)

Lemma streq_true_iff (a b : jsstring) : streq a b = true <-> a = b.
Proof.
  revert b; induction a as [|x a IH]; intros [|y b]; simpl; split;
    try congruence; try discriminate.
  - rewrite andb_true_iff, N.eqb_eq, IH. intros [-> ->]; reflexivity.
  - intros E; injection E as -> ->. rewrite N.eqb_refl.
    apply IH; reflexivity.
Qed.

Lemma streq_refl (a : jsstring) : streq a a = true.
Proof. apply streq_true_iff; reflexivity. Qed.

Lemma relIndex_zero (len : nat) : relIndex len 0 = 0%nat.
Proof. unfold relIndex; simpl. reflexivity. Qed.

Lemma relIndex_minus_one (len : nat) : relIndex (S len) (-1) = len.
Proof. unfold relIndex. change (-1 <? 0)%Z with true. cbv iota. lia. Qed.

Lemma slice_drop_last {A} (x : list A) (c : A) : slice (x ++ [c]) 0 (-1) = x.
Proof.
  unfold slice. rewrite length_app; simpl length.
  replace (length x + 1)%nat with (S (length x)) by lia.
  rewrite relIndex_zero, relIndex_minus_one, Nat.sub_0_r; simpl skipn.
  rewrite firstn_app, firstn_all, Nat.sub_diag; simpl. apply app_nil_r.
Qed.

Lemma endsWith_snoc (s : jsstring) (c d : N) :
  endsWith (s ++ [c]) [d] = N.eqb c d.
Proof.
  unfold endsWith. rewrite length_app; simpl length.
  replace (length s + 1 - 1)%nat with (length s) by lia.
  replace (1 <=? length s + 1)%nat with true by (symmetry; apply Nat.leb_le; lia).
  rewrite skipn_app, skipn_all, Nat.sub_diag; simpl.
  rewrite andb_true_r. reflexivity.
Qed.

Lemma snoc_cases {A} (x : list A) : x = [] \/ exists s c, x = s ++ [c].
Proof.
  destruct (rev x) as [|c r] eqn:E.
  - left. apply (f_equal (@rev A)) in E. rewrite rev_involutive in E. exact E.
  - right. exists (rev r), c.
    apply (f_equal (@rev A)) in E. rewrite rev_involutive in E. exact E.
Qed.

(* --------------------------------------------------------------------- *)
(** ** Inflector *)

Lemma pluralize_snoc (s : jsstring) (c : N) :
  pluralize (s ++ [c]) =
    if (c =? ch "y")%N then s ++ js "ies"
    else if (c =? ch "s")%N then s ++ [c]
    else (s ++ [c]) ++ js "s".
Proof.
  unfold pluralize. change (js "y") with [ch "y"]. change (js "s") with [ch "s"].
  rewrite !endsWith_snoc, slice_drop_last. reflexivity.
Qed.

(** C5.  The three rules of [pluralize], by the last code unit of its
    argument: a trailing "y" is replaced by "ies"; a string ending in "s"
    is returned unchanged; any other string gets an "s" appended; and the
    four words of the specification come out as stated. *)
Theorem pluralize_rules :
  (forall s, pluralize (s ++ js "y") = s ++ js "ies") /\
  (forall s, pluralize (s ++ js "s") = s ++ js "s") /\
  (forall x, endsWith x (js "y") = false -> endsWith x (js "s") = false ->
             pluralize x = x ++ js "s") /\
  pluralize (js "category") = js "categories" /\
  pluralize (js "inventory") = js "inventories" /\
  pluralize (js "business") = js "business" /\
  pluralize (js "user") = js "users".
Proof.
  repeat split; try reflexivity.
  - intros s. change (js "y") with [ch "y"]. rewrite pluralize_snoc. reflexivity.
  - intros s. change (js "s") with [ch "s"]. rewrite pluralize_snoc. reflexivity.
  - intros x Hy Hs. unfold pluralize. rewrite Hy, Hs. reflexivity.
Qed.

Lemma pluralize_rules_witness :
  endsWith (js "task") (js "y") = false /\
  endsWith (js "task") (js "s") = false /\
  pluralize (js "task") = js "task" ++ js "s".
Proof.
  split; [reflexivity | split; [reflexivity |]].
  apply (proj1 (proj2 (proj2 pluralize_rules)) (js "task")); reflexivity.
Defined.

(** C6.  [pluralize] is idempotent on every string: whichever of the
    three ending classes the argument is in, the result ends in "s" and a
    second application returns it unchanged. *)
Theorem pluralize_idempotent (x : jsstring) :
  pluralize (pluralize x) = pluralize x.
Proof.
  destruct (snoc_cases x) as [-> | (s & c & ->)].
  - reflexivity.
  - rewrite pluralize_snoc.
    destruct (c =? ch "y")%N eqn:Ey.
    + change (js "ies") with ([ch "i"; ch "e"] ++ [ch "s"]).
      rewrite app_assoc, pluralize_snoc. reflexivity.
    + destruct (c =? ch "s")%N eqn:Es.
      * rewrite pluralize_snoc, Ey, Es. reflexivity.
      * change (js "s") with [ch "s"]. rewrite pluralize_snoc. reflexivity.
Qed.

(* --------------------------------------------------------------------- *)
(** ** The matcher against the positions a pattern can reach *)

Lemma lastOr_nil (p : option N) : lastOr p [] = p.
Proof. reflexivity. Qed.

Lemma lastOr_cons (p : option N) (x : N) (xs : jsstring) :
  lastOr p (x :: xs) = lastOr (Some x) xs.
Proof.
  unfold lastOr, lastOf; simpl.
  destruct (rev xs) as [|y r]; reflexivity.
Qed.

Lemma lastOr_app (p : option N) (xs ys : jsstring) :
  lastOr p (xs ++ ys) = lastOr (lastOr p xs) ys.
Proof.
  revert p; induction xs as [|x xs IH]; intros p; simpl.
  - reflexivity.
  - rewrite !lastOr_cons. apply IH.
Qed.

Lemma lastOf_lastOr (xs : jsstring) : lastOf xs = lastOr None xs.
Proof. unfold lastOr. destruct (lastOf xs); reflexivity. Qed.

Lemma lastOr_snoc (p : option N) (xs : jsstring) (x : N) :
  lastOr p (xs ++ [x]) = Some x.
Proof. rewrite lastOr_app, lastOr_cons. reflexivity. Qed.

Lemma starLoop_sound cl k : forall s p c res,
  starLoop cl k p s c = Some res ->
  exists xs s', s = xs ++ s' /\ forallb (cmatch cl) xs = true /\
                k (MState (lastOr p xs) s' c) = Some res.
Proof.
  induction s as [|x s IH]; intros p c res H; simpl in H.
  - exists [], []. auto.
  - destruct (cmatch cl x) eqn:Hx.
    + destruct (starLoop cl k (Some x) s c) as [r|] eqn:Hl.
      * injection H as ->.
        destruct (IH _ _ _ Hl) as (xs & s' & -> & Hall & Hk).
        exists (x :: xs), s'. simpl. rewrite Hx, Hall, lastOr_cons. auto.
      * exists [], (x :: s). auto.
    + exists [], (x :: s). auto.
Qed.

Lemma starLoop_complete cl k : forall xs s' p c,
  forallb (cmatch cl) xs = true ->
  (forall c', k (MState (lastOr p xs) s' c') <> None) ->
  starLoop cl k p (xs ++ s') c <> None.
Proof.
  induction xs as [|x xs IH]; intros s' p c Hall Hk.
  - simpl. destruct s' as [|y s']; simpl.
    + apply Hk.
    + destruct (cmatch cl y).
      * destruct (starLoop cl k (Some y) s' c); [discriminate | apply Hk].
      * apply Hk.
  - simpl in Hall. apply andb_true_iff in Hall as [Hx Hall].
    simpl. rewrite Hx.
    rewrite lastOr_cons in Hk.
    specialize (IH s' (Some x) c Hall Hk).
    destruct (starLoop cl k (Some x) (xs ++ s') c); [discriminate | contradiction].
Qed.

Lemma m_sound : forall r st k res,
  m r st k = Some res ->
  exists p' s' c', den r (prev st) (rest st) p' s' /\
                   k (MState p' s' c') = Some res.
Proof.
  induction r as [| cl | cl | cl | r1 IH1 | r1 IH1 r2 IH2 | r1 IH1 r2 IH2 | | r1 IH1];
    intros [p s c] k res H; simpl in *.
  - exists p, s, c. auto.
  - destruct s as [|x s']; [discriminate|].
    destruct (cmatch cl x) eqn:Hx; [|discriminate].
    exists (Some x), s', c. split; [exists x; auto | exact H].
  - apply starLoop_sound in H; destruct H as (xs & s' & -> & Hall & Hk).
    exists (lastOr p xs), s', c. split; [exists xs; auto | exact Hk].
  - destruct s as [|x s0]; [discriminate|].
    destruct (cmatch cl x) eqn:Hx; [|discriminate].
    apply starLoop_sound in H; destruct H as (xs & s' & -> & Hall & Hk).
    exists (lastOr (Some x) xs), s', c. split; [|exact Hk].
    exists x, xs. simpl. rewrite Hx, Hall.
    rewrite lastOf_lastOr, lastOr_cons. auto.
  - destruct (m r1 (MState p s c) k) as [r|] eqn:E.
    + injection H as ->.
      destruct (IH1 _ _ _ E) as (p' & s' & c' & Hd & Hk).
      exists p', s', c'. auto.
    + exists p, s, c. auto.
  - destruct (IH1 _ _ _ H) as (q & t & c1 & Hd1 & Hk1).
    destruct (IH2 _ _ _ Hk1) as (p' & s' & c' & Hd2 & Hk2).
    exists p', s', c'. split; [exists q, t; auto | exact Hk2].
  - destruct (m r1 (MState p s c) k) as [r|] eqn:E.
    + injection H as ->.
      destruct (IH1 _ _ _ E) as (p' & s' & c' & Hd & Hk).
      exists p', s', c'. auto.
    + destruct (IH2 _ _ _ H) as (p' & s' & c' & Hd & Hk).
      exists p', s', c'. auto.
  - destruct (xorb (isWordOpt p) (isWordOpt (hd_error s))) eqn:E; [|discriminate].
    exists p, s, c. auto.
  - destruct (IH1 _ _ _ H) as (p' & s' & c' & Hd & Hk). simpl in Hk.
    eexists p', s', _. split; [exact Hd | exact Hk].
Qed.

Lemma m_complete : forall r p s p' s',
  den r p s p' s' ->
  forall c k, (forall c', k (MState p' s' c') <> None) ->
  m r (MState p s c) k <> None.
Proof.
  induction r as [| cl | cl | cl | r1 IH1 | r1 IH1 r2 IH2 | r1 IH1 r2 IH2 | | r1 IH1];
    intros p s p' s' Hd c k Hk; simpl in *.
  - destruct Hd as [-> ->]. apply Hk.
  - destruct Hd as (x & -> & Hx & ->). rewrite Hx. apply Hk.
  - destruct Hd as (xs & -> & Hall & ->).
    apply starLoop_complete; assumption.
  - destruct Hd as (x & xs & -> & Hall & ->).
    simpl in Hall. apply andb_true_iff in Hall as [Hx Hall].
    simpl. rewrite Hx. apply starLoop_complete; [assumption|].
    rewrite lastOf_lastOr, lastOr_cons in Hk. exact Hk.
  - destruct (m r1 (MState p s c) k) eqn:E; [discriminate|].
    destruct Hd as [Hd | [-> ->]]; [|apply Hk].
    exfalso. exact (IH1 _ _ _ _ Hd c k Hk E).
  - destruct Hd as (q & t & Hd1 & Hd2).
    apply (IH1 _ _ _ _ Hd1). intros c'.
    apply (IH2 _ _ _ _ Hd2). exact Hk.
  - destruct (m r1 (MState p s c) k) eqn:E; [discriminate|].
    destruct Hd as [Hd | Hd].
    + exfalso. exact (IH1 _ _ _ _ Hd c k Hk E).
    + exact (IH2 _ _ _ _ Hd c k Hk).
  - destruct Hd as [[-> ->] ->]. apply Hk.
  - apply (IH1 _ _ _ _ Hd). intros c'. apply Hk.
Qed.

Lemma execFrom_sound r : forall s p res,
  execFrom r p s = Some res ->
  exists pre t, s = pre ++ t /\ m r (MState (lastOr p pre) t None) Some = Some res.
Proof.
  induction s as [|x s IH]; intros p res H; simpl in H.
  - destruct (m r (MState p [] None) Some) eqn:E; [|discriminate].
    injection H as ->. exists [], []. auto.
  - destruct (m r (MState p (x :: s) None) Some) eqn:E.
    + injection H as ->. exists [], (x :: s). auto.
    + destruct (IH _ _ H) as (pre & t & -> & Hm).
      exists (x :: pre), t. rewrite lastOr_cons. auto.
Qed.

Lemma execFrom_complete r : forall pre t p,
  m r (MState (lastOr p pre) t None) Some <> None ->
  execFrom r p (pre ++ t) <> None.
Proof.
  induction pre as [|x pre IH]; intros t p H.
  - simpl app. destruct t as [|y t]; simpl;
      rewrite lastOr_nil in H;
      destruct (m r _ Some); try discriminate; contradiction.
  - simpl app. simpl execFrom.
    destruct (m r (MState p (x :: pre ++ t) None) Some); [discriminate|].
    apply IH. rewrite lastOr_cons in H. exact H.
Qed.

(** [test] succeeds exactly when the pattern reaches some position from
    some start position of the text. *)
Lemma test_den (r : regex) (s : jsstring) :
  test r s = true <->
  exists pre t p' s', s = pre ++ t /\ den r (lastOf pre) t p' s'.
Proof.
  unfold test, exec. split.
  - destruct (execFrom r None s) as [res|] eqn:E; [|discriminate]. intros _.
    apply execFrom_sound in E; destruct E as (pre & t & -> & Hm).
    apply m_sound in Hm; destruct Hm as (p' & s' & c' & Hd & _). simpl in Hd.
    exists pre, t, p', s'. rewrite lastOf_lastOr. auto.
  - intros (pre & t & p' & s' & -> & Hd).
    assert (H : execFrom r None (pre ++ t) <> None).
    { apply execFrom_complete. rewrite <- lastOf_lastOr.
      eapply m_complete; [exact Hd | discriminate]. }
    destruct (execFrom r None (pre ++ t)); [reflexivity | contradiction].
Qed.

(* --------------------------------------------------------------------- *)
(** ** The keyword patterns against standalone-word occurrence *)

Lemma eqI_nil_r (mid : jsstring) : eqI mid [] -> mid = [].
Proof. unfold eqI. destruct mid; [reflexivity | discriminate]. Qed.

Lemma eqI_app (m1 m2 a f : jsstring) :
  eqI m1 a -> eqI m2 f -> eqI (m1 ++ m2) (a ++ f).
Proof. unfold eqI. intros H1 H2. rewrite !map_app, H1, H2. reflexivity. Qed.

Lemma eqI_app_inv (a f : jsstring) : forall mid,
  eqI mid (a ++ f) -> exists m1 m2, mid = m1 ++ m2 /\ eqI m1 a /\ eqI m2 f.
Proof.
  unfold eqI. induction a as [|c a IH]; intros mid H; simpl in H.
  - exists [], mid. auto.
  - destruct mid as [|x mid]; [discriminate|]. simpl in H.
    injection H as Hx H. destruct (IH _ H) as (m1 & m2 & -> & H1 & H2).
    exists (x :: m1), m2. simpl. rewrite Hx, H1. auto.
Qed.

Lemma den_litsI (w : jsstring) : forall p s p' s',
  den (litsI w) p s p' s' <->
  exists mid, s = mid ++ s' /\ eqI mid w /\ p' = lastOr p mid.
Proof.
  induction w as [|c w IH]; intros p s p' s'; simpl.
  - split.
    + intros [-> ->]. exists []. repeat split.
    + intros (mid & -> & H & ->). apply eqI_nil_r in H; subst. auto.
  - split.
    + intros (q & t & (x & -> & Hx & ->) & Hd).
      apply IH in Hd. destruct Hd as (mid & -> & He & ->).
      exists (x :: mid). rewrite lastOr_cons. repeat split.
      unfold eqI in *. simpl. apply N.eqb_eq in Hx. rewrite Hx, He. reflexivity.
    + intros (mid & -> & He & ->).
      destruct mid as [|x mid]; [discriminate|].
      unfold eqI in He. simpl in He. injection He as Hx He.
      exists (Some x), (mid ++ s'). split.
      * exists x. rewrite Hx, N.eqb_refl. auto.
      * apply IH. exists mid. rewrite lastOr_cons. auto.
Qed.

Lemma canonicalize_letter (x c : N) :
  isLowerLetter c = true -> canonicalize x = canonicalize c -> isWordChar x = true.
Proof.
  unfold isLowerLetter, canonicalize, asciiUpper, isWordChar.
  intros Hc. rewrite Hc.
  apply andb_true_iff in Hc as [H1 H2]. apply N.leb_le in H1, H2.
  destruct ((97 <=? x) && (x <=? 122))%N eqn:E; [reflexivity|].
  intros ->. simpl.
  replace ((65 <=? c - 32) && (c - 32 <=? 90))%N with true; [reflexivity|].
  symmetry. apply andb_true_iff. split; apply N.leb_le; lia.
Qed.

Lemma eqI_letters (w : jsstring) : forall mid,
  forallb isLowerLetter w = true -> eqI mid w -> forallb isWordChar mid = true.
Proof.
  unfold eqI. induction w as [|c w IH]; intros [|x mid] Hw H; simpl in *;
    try discriminate; try reflexivity.
  apply andb_true_iff in Hw as [Hc Hw]. injection H as Hx H.
  rewrite (canonicalize_letter _ _ Hc Hx). apply IH; assumption.
Qed.

Lemma eqI_nonempty (w mid : jsstring) : truthy w = true -> eqI mid w -> mid <> [].
Proof.
  unfold eqI. destruct w; [discriminate|]. destruct mid; [discriminate|].
  intros _ _; discriminate.
Qed.

Lemma word_head (mid post : jsstring) :
  mid <> [] -> forallb isWordChar mid = true ->
  isWordOpt (hd_error (mid ++ post)) = true.
Proof.
  destruct mid as [|x mid]; [congruence|]. simpl.
  intros _ H. apply andb_true_iff in H. tauto.
Qed.

Lemma word_last (p : option N) (mid : jsstring) :
  mid <> [] -> forallb isWordChar mid = true ->
  isWordOpt (lastOr p mid) = true.
Proof.
  intros Hne Hall. destruct (snoc_cases mid) as [-> | (xs & x & ->)]; [congruence|].
  rewrite lastOr_snoc. rewrite forallb_app in Hall.
  apply andb_true_iff in Hall as [_ Hx]. simpl in Hx.
  rewrite andb_true_r in Hx. exact Hx.
Qed.

Section Bracketed.

(** A pattern [\b a X \b] where [X] reads one of two suffixes. *)
Variables (X : regex) (a f1 f2 : jsstring).
Hypothesis denX : forall p s p' s',
  den X p s p' s' <->
  exists suf, s = suf ++ s' /\ p' = lastOr p suf /\ (eqI suf f1 \/ eqI suf f2).
Hypothesis word1 : isKeyword (a ++ f1) = true.
Hypothesis word2 : isKeyword (a ++ f2) = true.

Let bracket := Cat WordB (Cat (litsI a) (Cat X WordB)).

Lemma form_word (mid : jsstring) :
  eqI mid (a ++ f1) \/ eqI mid (a ++ f2) ->
  mid <> [] /\ forallb isWordChar mid = true.
Proof.
  unfold isKeyword in word1, word2.
  apply andb_true_iff in word1 as [T1 L1]. apply andb_true_iff in word2 as [T2 L2].
  intros [H | H]; split;
    eauto using eqI_nonempty, eqI_letters.
Qed.

Lemma bracket_den (p : option N) (t : jsstring) :
  (exists p' s', den bracket p t p' s') <->
  exists mid post, t = mid ++ post /\
    (eqI mid (a ++ f1) \/ eqI mid (a ++ f2)) /\
    isWordOpt p = false /\ isWordOpt (hd_error post) = false.
Proof.
  unfold bracket. split.
  - intros (p' & s' & q0 & t0 & [[-> ->] Hb1] & q1 & t1 & Hl & q2 & t2 & Hx
            & [[-> ->] Hb2]).
    apply den_litsI in Hl. destruct Hl as (m1 & -> & He1 & ->).
    apply denX in Hx. destruct Hx as (m2 & -> & -> & He2).
    assert (Hform : eqI (m1 ++ m2) (a ++ f1) \/ eqI (m1 ++ m2) (a ++ f2))
      by (destruct He2; [left | right]; apply eqI_app; assumption).
    destruct (form_word _ Hform) as [Hne Hall].
    exists (m1 ++ m2), t2. rewrite <- app_assoc.
    split; [reflexivity|]. split; [exact Hform|].
    rewrite app_assoc in Hb1. rewrite (word_head _ _ Hne Hall) in Hb1.
    rewrite <- lastOr_app, (word_last _ _ Hne Hall) in Hb2.
    split.
    + destruct (isWordOpt p); [discriminate | reflexivity].
    + destruct (isWordOpt (hd_error t2)); [discriminate | reflexivity].
  - intros (mid & post & -> & Hform & Hp & Hpost).
    destruct (form_word _ Hform) as [Hne Hall].
    assert (exists m1 m2, mid = m1 ++ m2 /\ eqI m1 a /\ (eqI m2 f1 \/ eqI m2 f2))
      as (m1 & m2 & -> & He1 & He2).
    { destruct Hform as [H | H]; apply eqI_app_inv in H;
        destruct H as (m1 & m2 & -> & H1 & H2); exists m1, m2; auto. }
    exists (lastOr p (m1 ++ m2)), post.
    exists p, ((m1 ++ m2) ++ post). split.
    { split; [auto|]. rewrite (word_head _ _ Hne Hall), Hp. reflexivity. }
    exists (lastOr p m1), (m2 ++ post). split.
    { apply den_litsI. exists m1. rewrite <- app_assoc. auto. }
    exists (lastOr p (m1 ++ m2)), post. split.
    { apply denX. exists m2. rewrite lastOr_app. auto. }
    split; [auto|]. rewrite (word_last _ _ Hne Hall), Hpost. reflexivity.
Qed.

End Bracketed.

Lemma den_optional_s (p : option N) (s : jsstring) (p' : option N) (s' : jsstring) :
  den (Opt (Atom (CLitI (ch "s")))) p s p' s' <->
  exists suf, s = suf ++ s' /\ p' = lastOr p suf /\ (eqI suf [] \/ eqI suf (js "s")).
Proof.
  simpl. split.
  - intros [(x & -> & Hx & ->) | [-> ->]].
    + exists [x]. repeat split. right. unfold eqI. simpl.
      apply N.eqb_eq in Hx. rewrite Hx. reflexivity.
    + exists []. repeat split. left. reflexivity.
  - intros (suf & -> & -> & [H | H]).
    + apply eqI_nil_r in H; subst. right. auto.
    + unfold eqI in H. destruct suf as [|x [|y suf]]; try discriminate.
      simpl in H. injection H as Hx. left. exists x.
      rewrite lastOr_cons. repeat split. apply N.eqb_eq. exact Hx.
Qed.

Lemma den_y_or_ies (p : option N) (s : jsstring) (p' : option N) (s' : jsstring) :
  den (Alt (litsI (js "y")) (litsI (js "ies"))) p s p' s' <->
  exists suf, s = suf ++ s' /\ p' = lastOr p suf /\
              (eqI suf (js "y") \/ eqI suf (js "ies")).
Proof.
  change (den (Alt (litsI (js "y")) (litsI (js "ies"))) p s p' s')
    with (den (litsI (js "y")) p s p' s' \/ den (litsI (js "ies")) p s p' s').
  rewrite !den_litsI. split.
  - intros [(mid & -> & H & ->) | (mid & -> & H & ->)]; exists mid; auto.
  - intros (suf & -> & -> & [H | H]); [left | right]; exists suf; auto.
Qed.

Lemma isKeyword_snoc_s (w : jsstring) : isKeyword w = true -> isKeyword (w ++ js "s") = true.
Proof.
  unfold isKeyword. intros H. apply andb_true_iff in H as [T L].
  rewrite forallb_app, L. destruct w; [discriminate | reflexivity].
Qed.

Lemma endsWith_char_inv (w : jsstring) (c : N) :
  endsWith w [c] = true -> w = slice w 0 (-1) ++ [c].
Proof.
  destruct (snoc_cases w) as [-> | (s & d & ->)]; [discriminate|].
  rewrite endsWith_snoc, slice_drop_last. intros H. apply N.eqb_eq in H. subst.
  reflexivity.
Qed.

(** The pattern built for a keyword succeeds on a text exactly when one
    of the keyword's two forms occurs in it as a standalone word. *)
Lemma keywordPattern_spec (keyword s : jsstring) :
  isKeyword keyword = true ->
  (test (keywordPattern keyword) s = true <-> keywordMatches keyword s).
Proof.
  intros Hk. rewrite test_den.
  unfold keywordPattern, keywordMatches, keywordForms, occursAsWord.
  destruct (endsWith keyword (js "y")) eqn:Ey.
  - set (base := slice keyword 0 (-1)) in *.
    assert (Hkw : keyword = base ++ js "y")
      by (apply (endsWith_char_inv keyword (ch "y")); exact Ey).
    assert (W1 : isKeyword (base ++ js "y") = true) by (rewrite <- Hkw; exact Hk).
    assert (W2 : isKeyword (base ++ js "ies") = true).
    { unfold isKeyword in *. apply andb_true_iff in W1 as [T L].
      rewrite forallb_app in *. apply andb_true_iff in L as [L _]. rewrite L.
      destruct base; reflexivity. }
    split.
    + intros (pre & t & p' & s' & -> & Hd).
      destruct (proj1 (bracket_den _ _ _ _ den_y_or_ies W1 W2 _ _) (ex_intro _ p' (ex_intro _ s' Hd)))
        as (mid & post & -> & Hform & Hp & Hpost).
      destruct Hform as [H | H];
        [exists (base ++ js "y") | exists (base ++ js "ies")];
        (split; [simpl; auto | exists pre, mid, post; auto]).
    + intros (form & Hin & pre & mid & post & -> & He & Hp & Hpost).
      assert (Hform : eqI mid (base ++ js "y") \/ eqI mid (base ++ js "ies")).
      { destruct Hin as [<- | [<- | []]]; auto. }
      destruct (proj2 (bracket_den _ _ _ _ den_y_or_ies W1 W2 (lastOf pre) (mid ++ post)))
        as (p' & s' & Hd).
      { exists mid, post. auto. }
      exists pre, (mid ++ post), p', s'. auto.
  - assert (W1 : isKeyword (keyword ++ []) = true) by (rewrite app_nil_r; exact Hk).
    pose proof (isKeyword_snoc_s _ Hk) as W2.
    split.
    + intros (pre & t & p' & s' & -> & Hd).
      destruct (proj1 (bracket_den _ _ _ _ den_optional_s W1 W2 _ _) (ex_intro _ p' (ex_intro _ s' Hd)))
        as (mid & post & -> & Hform & Hp & Hpost).
      rewrite app_nil_r in Hform.
      destruct Hform as [H | H];
        [exists keyword | exists (keyword ++ js "s")];
        (split; [simpl; auto | exists pre, mid, post; auto]).
    + intros (form & Hin & pre & mid & post & -> & He & Hp & Hpost).
      assert (Hform : eqI mid (keyword ++ []) \/ eqI mid (keyword ++ js "s")).
      { rewrite app_nil_r. destruct Hin as [<- | [<- | []]]; auto. }
      destruct (proj2 (bracket_den _ _ _ _ den_optional_s W1 W2 (lastOf pre) (mid ++ post)))
        as (p' & s' & Hd).
      { exists mid, post. auto. }
      exists pre, (mid ++ post), p', s'. auto.
Qed.

(* --------------------------------------------------------------------- *)
(** ** Entity extractor *)

Lemma slice_0_3 {A} (x : list A) : slice x 0 3 = firstn 3 x.
Proof.
  unfold slice. rewrite relIndex_zero, Nat.sub_0_r. simpl skipn.
  unfold relIndex. change (3 <? 0)%Z with false. cbv iota.
  change (Z.to_nat 3) with 3%nat.
  destruct (Nat.le_ge_cases 3 (length x)) as [Hle | Hge].
  - rewrite Nat.min_l by exact Hle. reflexivity.
  - rewrite Nat.min_r by exact Hge. rewrite !firstn_all2; [reflexivity | exact Hge | lia].
Qed.

Lemma arrIncludes_In (arr : list jsstring) (x : jsstring) :
  arrIncludes arr x = true <-> In x arr.
Proof.
  unfold arrIncludes. rewrite existsb_exists. split.
  - intros (y & Hin & He). apply streq_true_iff in He. subst. exact Hin.
  - intros Hin. exists x. split; [exact Hin | apply streq_refl].
Qed.

Lemma lexicon_keywords :
  forall entry keyword, In entry entityKeywords -> In keyword (snd entry) ->
                        isKeyword keyword = true.
Proof.
  assert (H : forallb (fun e => forallb isKeyword (snd e)) entityKeywords = true)
    by (vm_compute; reflexivity).
  intros entry keyword He Hk.
  rewrite forallb_forall in H. specialize (H entry He).
  rewrite forallb_forall in H. exact (H keyword Hk).
Qed.

Lemma lexicon_names_NoDup : NoDup (map fst entityKeywords).
Proof.
  assert (H : forall l : list jsstring,
             (fix nd (l : list jsstring) : bool :=
                match l with
                | [] => true
                | x :: l' => negb (arrIncludes l' x) && nd l'
                end) l = true -> NoDup l).
  { induction l as [|x l IH]; intros Hnd; [constructor|].
    apply andb_true_iff in Hnd as [Hx Hl]. constructor; [|auto].
    intros Hin. apply arrIncludes_In in Hin. rewrite Hin in Hx. discriminate. }
  apply H. vm_compute. reflexivity.
Qed.

(** The inner loop pushes the entity name (once) exactly when some
    keyword's pattern succeeds. *)
Lemma scanKeywords_spec (dl name : jsstring) (entities : list jsstring) :
  forall keywords,
  scanKeywords dl name keywords entities =
    if entryHit dl (name, keywords) then
      if arrIncludes entities name then entities else entities ++ [name]
    else entities.
Proof.
  unfold entryHit; simpl snd.
  induction keywords as [|kw more IH]; simpl; [reflexivity|].
  destruct (test (keywordPattern kw) dl); simpl.
  - destruct (arrIncludes entities name); reflexivity.
  - exact IH.
Qed.

(** With distinct names in the lexicon the loops record the names of
    the entries that are hit, in lexicon order. *)
Lemma scanLexicon_spec (dl : jsstring) : forall lexicon entities,
  NoDup (map fst lexicon) ->
  (forall e, In e lexicon -> ~ In (fst e) entities) ->
  scanLexicon dl lexicon entities =
    entities ++ map fst (filter (entryHit dl) lexicon).
Proof.
  unfold scanLexicon.
  induction lexicon as [|[name kws] lexicon IH]; intros entities Hnd Hfresh; simpl.
  - symmetry; apply app_nil_r.
  - inversion Hnd as [|? ? Hname Hnd']; subst.
    rewrite scanKeywords_spec.
    destruct (entryHit dl (name, kws)) eqn:Hit.
    + destruct (arrIncludes entities name) eqn:Hinc.
      * apply arrIncludes_In in Hinc. exfalso.
        apply (Hfresh (name, kws)); [left; reflexivity | exact Hinc].
      * rewrite IH; [simpl; rewrite <- app_assoc; reflexivity | exact Hnd' |].
        intros e He Hin. apply in_app_or in Hin as [Hin | [Heq | []]].
        -- apply (Hfresh e); [right; exact He | exact Hin].
        -- apply Hname. rewrite Heq. apply in_map. exact He.
    + apply IH; [exact Hnd' |].
      intros e He. apply Hfresh. right; exact He.
Qed.

Lemma recorded_spec `{JSRuntime} (d : jsstring) :
  recorded d = map fst (filter (entryHit (toLowerCase d)) entityKeywords).
Proof.
  unfold recorded. rewrite scanLexicon_spec; [reflexivity | apply lexicon_names_NoDup |].
  intros e _ [].
Qed.

Lemma entryHit_spec (dl : jsstring) (entry : jsstring * list jsstring) :
  In entry entityKeywords ->
  (entryHit dl entry = true <-> entryMatches entry dl).
Proof.
  intros He. unfold entryHit, entryMatches. rewrite existsb_exists.
  split; intros (kw & Hin & Hk); exists kw; (split; [exact Hin|]);
    apply (keywordPattern_spec kw dl (lexicon_keywords _ _ He Hin)); exact Hk.
Qed.

Lemma extract_recorded `{JSRuntime} (d : jsstring) :
  extractEntitiesFromDescription (VStr d) =
    Normal (firstn 3 (match recorded d with [] => [js "item"] | l => l end)).
Proof.
  unfold extractEntitiesFromDescription, recorded.
  cbv beta iota delta [bindC requireString].
  destruct (scanLexicon (toLowerCase d) entityKeywords []) as [|e l];
    cbn [length Nat.eqb app]; rewrite slice_0_3; reflexivity.
Qed.

Lemma filter_none {A} (f : A -> bool) (l : list A) :
  (forall x, In x l -> f x = false) -> filter f l = [].
Proof.
  induction l as [|x l IH]; intros H; simpl; [reflexivity|].
  rewrite (H x (or_introl eq_refl)). apply IH. intros y Hy. apply H. right; exact Hy.
Qed.

Lemma no_match_no_record `{JSRuntime} (d : jsstring) :
  (forall entry, In entry entityKeywords -> ~ entryMatches entry (toLowerCase d)) ->
  recorded d = [].
Proof.
  intros Hno. rewrite recorded_spec, filter_none; [reflexivity|].
  intros e He. destruct (entryHit (toLowerCase d) e) eqn:Hit; [|reflexivity].
  exfalso. apply (Hno e He). apply (entryHit_spec _ _ He). exact Hit.
Qed.

(** C1.  On every string the extractor returns normally; and when no
    keyword of the lexicon occurs in the lower-cased description as a
    standalone word, in either of its two forms, it returns exactly
    ["item"]. *)
Theorem extract_default `{JSRuntime} (d : jsstring) :
  (exists l, extractEntitiesFromDescription (VStr d) = Normal l) /\
  ((forall entry, In entry entityKeywords ->
      ~ entryMatches entry (toLowerCase d)) ->
   extractEntitiesFromDescription (VStr d) = Normal [js "item"]).
Proof.
  split.
  - rewrite extract_recorded. eexists; reflexivity.
  - intros Hno. rewrite extract_recorded, (no_match_no_record _ Hno). reflexivity.
Qed.

Lemma extract_default_witness :
  (forall entry, In entry entityKeywords ->
     ~ entryMatches entry (@toLowerCase asciiRuntime (js "nothing to see here"))) /\
  @extractEntitiesFromDescription asciiRuntime (VStr (js "nothing to see here"))
    = Normal [js "item"].
Proof.
  assert (Hno : forall entry, In entry entityKeywords ->
     ~ entryMatches entry (@toLowerCase asciiRuntime (js "nothing to see here"))).
  { intros entry He Hm. apply (entryHit_spec _ _ He) in Hm.
    assert (Hall : forallb (fun e => negb (entryHit
               (@toLowerCase asciiRuntime (js "nothing to see here")) e))
               entityKeywords = true) by (vm_compute; reflexivity).
    rewrite forallb_forall in Hall. specialize (Hall entry He).
    rewrite Hm in Hall. discriminate. }
  split; [exact Hno|].
  exact (proj2 (@extract_default asciiRuntime (js "nothing to see here")) Hno).
Defined.

Lemma firstn_3_bounds {A} (l : list A) :
  l <> [] -> (1 <= length (firstn 3 l) <= 3)%nat.
Proof.
  intros Hne. rewrite length_firstn.
  destruct l as [|x l]; [congruence | simpl length; lia].
Qed.

Lemma extract_some `{JSRuntime} (d : jsstring) :
  exists l, extractEntitiesFromDescription (VStr d) = Normal l /\ l <> [].
Proof.
  rewrite extract_recorded. eexists; split; [reflexivity|].
  destruct (recorded d) as [|e l]; discriminate.
Qed.

(** C2.  On every string the extractor returns a list of at least one
    and at most three entities. *)
Theorem extract_length `{JSRuntime} (d : jsstring) :
  exists l, extractEntitiesFromDescription (VStr d) = Normal l /\
            (1 <= length l <= 3)%nat.
Proof.
  rewrite extract_recorded. eexists; split; [reflexivity|].
  apply firstn_3_bounds.
  destruct (recorded d) as [|e l]; discriminate.
Qed.

(** C8.  On the blog description the extractor returns "user", "post",
    "comment": the order of the lexicon, not the order in which the words
    appear in the text, where "posts" (at 21) and "comments" (at 28) come
    before "user" (at 42).  The runtime is only asked to lower-case this
    ASCII text as every engine does. *)
Theorem extract_blog `{JSRuntime} :
  toLowerCase (js "A blog platform with posts, comments, and user profiles")
    = js "a blog platform with posts, comments, and user profiles" ->
  extractEntitiesFromDescription
    (VStr (js "A blog platform with posts, comments, and user profiles"))
  = Normal [js "user"; js "post"; js "comment"] /\
  map (indexOf (js "A blog platform with posts, comments, and user profiles"))
      [js "posts"; js "comments"; js "user"]
  = [Some 21%nat; Some 28%nat; Some 42%nat].
Proof.
  intros Hlow. split; [|vm_compute; reflexivity].
  unfold extractEntitiesFromDescription.
  cbv beta iota delta [bindC requireString]. rewrite Hlow.
  vm_compute. reflexivity.
Qed.

Lemma extract_blog_witness :
  @extractEntitiesFromDescription asciiRuntime
    (VStr (js "A blog platform with posts, comments, and user profiles"))
  = Normal [js "user"; js "post"; js "comment"].
Proof.
  apply (@extract_blog asciiRuntime). vm_compute. reflexivity.
Defined.

Lemma keyword_hits (dl : jsstring) (entry : jsstring * list jsstring) (keyword : jsstring) :
  In entry entityKeywords -> In keyword (snd entry) ->
  keywordMatches keyword dl -> entryHit dl entry = true.
Proof.
  intros He Hk Hm. apply (entryHit_spec _ _ He). exists keyword. auto.
Qed.

(** C3, as the script behaves.  When a keyword listed under two entries
    of the lexicon matches, both canonical entities are recorded, the
    one of the earlier entry first, and the result is the first three
    recorded entities. *)
Theorem shared_keyword_records_both `{JSRuntime} (d keyword : jsstring)
    (e1 e2 : jsstring * list jsstring) (l1 l2 l3 : list (jsstring * list jsstring)) :
  entityKeywords = l1 ++ e1 :: l2 ++ e2 :: l3 ->
  In keyword (snd e1) -> In keyword (snd e2) ->
  keywordMatches keyword (toLowerCase d) ->
  exists r1 r2 r3,
    recorded d = r1 ++ fst e1 :: r2 ++ fst e2 :: r3 /\
    extractEntitiesFromDescription (VStr d) =
      Normal (firstn 3 (r1 ++ fst e1 :: r2 ++ fst e2 :: r3)).
Proof.
  intros Hlex Hk1 Hk2 Hm.
  assert (He1 : In e1 entityKeywords)
    by (rewrite Hlex; apply in_or_app; right; left; reflexivity).
  assert (He2 : In e2 entityKeywords).
  { rewrite Hlex. apply in_or_app; right; right.
    apply in_or_app; right; left; reflexivity. }
  pose proof (keyword_hits _ _ _ He1 Hk1 Hm) as Hit1.
  pose proof (keyword_hits _ _ _ He2 Hk2 Hm) as Hit2.
  set (hit := entryHit (toLowerCase d)) in *.
  exists (map fst (filter hit l1)), (map fst (filter hit l2)), (map fst (filter hit l3)).
  assert (Hrec : recorded d = map fst (filter hit l1) ++ fst e1 ::
                   map fst (filter hit l2) ++ fst e2 :: map fst (filter hit l3)).
  { rewrite recorded_spec. fold hit. rewrite Hlex.
    rewrite filter_app. cbn [filter]. rewrite Hit1.
    rewrite filter_app. cbn [filter]. rewrite Hit2.
    rewrite map_app. cbn [map]. rewrite map_app. reflexivity. }
  split; [exact Hrec|].
  rewrite extract_recorded, Hrec.
  destruct (map fst (filter hit l1)); reflexivity.
Qed.

Lemma shared_keyword_records_both_witness :
  exists r1 r2 r3,
    @recorded asciiRuntime (js "a transaction log")
      = r1 ++ js "order" :: r2 ++ js "payment" :: r3 /\
    @extractEntitiesFromDescription asciiRuntime (VStr (js "a transaction log")) =
      Normal (firstn 3 (r1 ++ js "order" :: r2 ++ js "payment" :: r3)).
Proof.
  apply (@shared_keyword_records_both asciiRuntime (js "a transaction log")
           (js "transaction")
           (js "order", map js ["order"; "purchase"; "transaction"])
           (js "payment", map js ["payment"; "transaction"])
           (firstn 2 entityKeywords)
           (firstn 6 (skipn 3 entityKeywords))
           (skipn 10 entityKeywords)).
  - reflexivity.
  - simpl. auto.
  - simpl. auto.
  - apply keywordPattern_spec; vm_compute; reflexivity.
Defined.

(** C3, as the specification words it, fails: on "a transaction log" the
    keyword "transaction" matches and the extractor returns both "order"
    and "payment". *)
Lemma transaction_records_both :
  keywordMatches (js "transaction")
    (@toLowerCase asciiRuntime (js "a transaction log")) /\
  @extractEntitiesFromDescription asciiRuntime (VStr (js "a transaction log"))
    = Normal [js "order"; js "payment"].
Proof.
  split.
  - apply keywordPattern_spec; vm_compute; reflexivity.
  - vm_compute. reflexivity.
Qed.

Lemma Normal_inj {A} (a b : A) : Normal a = Normal b -> a = b.
Proof. congruence. Qed.

Lemma item_not_a_name : ~ In (js "item") (map fst entityKeywords).
Proof.
  intros Hin. apply arrIncludes_In in Hin. vm_compute in Hin. discriminate.
Qed.

Lemma firstn_In {A} (n : nat) (l : list A) (x : A) : In x (firstn n l) -> In x l.
Proof.
  revert l; induction n as [|n IH]; intros [|y l]; simpl; try tauto.
  intros [-> | Hin]; [left; reflexivity | right; apply IH; exact Hin].
Qed.

Lemma first_hit {A B} (f : A * B -> bool) (u p : A * B) (others : list (A * B)) :
  f u = false -> f p = true ->
  map fst (filter f (u :: p :: others)) = fst p :: map fst (filter f others).
Proof. intros Hu Hp. simpl. rewrite Hu, Hp. reflexivity. Qed.

(** C10.  "item" is a keyword of the entry "product": when "item" or
    "items" occurs as a standalone word in the lower-cased description
    and no keyword of the earlier entry "user" matches, the result starts
    with "product"; and the value "item" is in a result only when no
    entry of the lexicon matches, the result then being ["item"]. *)
Theorem item_keyword_is_product `{JSRuntime} (d : jsstring) :
  (occursAsWord (js "item") (toLowerCase d) \/
   occursAsWord (js "items") (toLowerCase d) ->
   ~ entryMatches (js "user", map js ["user"; "account"; "profile"; "member"])
       (toLowerCase d) ->
   exists rest, extractEntitiesFromDescription (VStr d)
                  = Normal (js "product" :: rest) /\
                ~ In (js "item") (js "product" :: rest)) /\
  (forall l, extractEntitiesFromDescription (VStr d) = Normal l ->
     In (js "item") l ->
     l = [js "item"] /\
     forall entry, In entry entityKeywords -> ~ entryMatches entry (toLowerCase d)).
Proof.
  split.
  - intros Hitem Huser.
    assert (Hm : keywordMatches (js "item") (toLowerCase d)).
    { destruct Hitem as [Hi | Hi];
        [exists (js "item") | exists (js "items")]; (split; [simpl; auto | exact Hi]). }
    set (dl := toLowerCase d) in *.
    set (user := (js "user", map js ["user"; "account"; "profile"; "member"])) in *.
    set (product := (js "product", map js ["product"; "item"; "goods"; "merchandise"])).
    set (others := skipn 2 entityKeywords).
    assert (Hlex : entityKeywords = user :: product :: others) by reflexivity.
    assert (Hkw : In (js "item") (snd product)) by (right; left; reflexivity).
    assert (Hname : fst product = js "product") by reflexivity.
    clearbody user product others.
    assert (Hu : entryHit dl user = false).
    { destruct (entryHit dl user) eqn:E; [|reflexivity].
      exfalso. apply Huser. apply entryHit_spec; [|exact E].
      rewrite Hlex. left; reflexivity. }
    assert (Hp : entryHit dl product = true).
    { apply (keyword_hits _ product (js "item")); [| exact Hkw | exact Hm].
      rewrite Hlex. right; left; reflexivity. }
    assert (Hrec : recorded d = js "product" :: map fst (filter (entryHit dl) others)).
    { rewrite recorded_spec. fold dl. rewrite Hlex.
      rewrite (first_hit _ _ _ _ Hu Hp), Hname. reflexivity. }
    rewrite extract_recorded, Hrec, firstn_cons.
    eexists; split; [reflexivity|].
    intros Hin. apply in_inv in Hin. destruct Hin as [Hin | Hin].
    { apply streq_true_iff in Hin. vm_compute in Hin. discriminate. }
    apply firstn_In in Hin. apply item_not_a_name.
    apply in_map_iff in Hin. destruct Hin as (e & He & Hf).
    apply filter_In in Hf as [Hf _].
    apply in_map_iff. exists e. split; [exact He|].
    rewrite Hlex. right; right; exact Hf.
  - intros l Hout Hin. rewrite extract_recorded in Hout.
    apply Normal_inj in Hout. subst l.
    destruct (recorded d) as [|e r] eqn:Hrec.
    + split; [reflexivity|].
      intros entry He Hm. apply (entryHit_spec _ _ He) in Hm.
      rewrite recorded_spec in Hrec.
      assert (Hf : In entry (filter (entryHit (toLowerCase d)) entityKeywords))
        by (apply filter_In; auto).
      apply (in_map fst) in Hf. rewrite Hrec in Hf. exact Hf.
    + exfalso. apply firstn_In in Hin. rewrite <- Hrec, recorded_spec in Hin.
      apply item_not_a_name.
      apply in_map_iff in Hin. destruct Hin as (x & Hx & Hf).
      apply filter_In in Hf as [Hf _].
      apply in_map_iff. exists x. auto.
Qed.

Lemma item_keyword_is_product_witness :
  exists rest,
    @extractEntitiesFromDescription asciiRuntime (VStr (js "Track items in stock"))
      = Normal (js "product" :: rest) /\
    ~ In (js "item") (js "product" :: rest).
Proof.
  apply (proj1 (@item_keyword_is_product asciiRuntime (js "Track items in stock"))).
  - right. exists (js "track "), (js "items"), (js " in stock").
    repeat split; vm_compute; reflexivity.
  - intros Hm. apply entryHit_spec in Hm; [|left; reflexivity].
    vm_compute in Hm. discriminate.
Defined.
(* --------------------------------------------------------------------- *)
(** ** Template fallback *)

(** One [fs.writeFileSync] followed by the rest of a body. *)
Ltac write_step := unfold bind at 1, writeFileSync at 1.

Section Fallback.

Context {runtime : JSRuntime}.
Variables (env : Env) (openai : OpenAIService).
Hypothesis down : assistDown env openai.

(** With the assist down a request for code yields [null], writes no
    file and throws nothing. *)
Lemma generateCodeWithAI_down (prompt : jsstring) (model : option jsstring)
    (maxTokens : nat) (w : World) :
  exists w', generateCodeWithAI env openai prompt model maxTokens w = (Normal None, w') /\
             written w' = written w.
Proof.
  unfold generateCodeWithAI.
  destruct (OPENAI_AVAILABLE env) eqn:Eav; cbn [negb].
  2: { eexists; split; reflexivity. }
  destruct (truthyOpt (OPENAI_API_KEY env)) eqn:Ekey; cbn [negb].
  2: { eexists; split; reflexivity. }
  destruct down as [[Hav | Hkey] | Hfail]; [congruence | congruence |].
  set (cfg := {| apiKey := orElse (OPENAI_API_KEY env) [];
                 baseURL := if truthyOpt (OPENAI_ENDPOINT env)
                            then OPENAI_ENDPOINT env else None |}).
  unfold tryCatch, bind, newOpenAI, chatCompletionsCreate.
  destruct (Hfail cfg) as [[message Hc] | [Hc Hcall]].
  - destruct (truthyOpt (OPENAI_ENDPOINT env)); cbn [consoleLog ret];
      rewrite Hc; eexists; split; reflexivity.
  - destruct (truthyOpt (OPENAI_ENDPOINT env)); cbn [consoleLog ret];
      rewrite Hc; cbn [calls console written];
      match goal with
      | |- context [create openai ?n ?c ?r] =>
          destruct (Hcall n r) as [message Hm]; rewrite Hm
      end; eexists; split; reflexivity.
Qed.

Lemma generateEntityComponent_down (entityName : jsstring)
    (description : option jsstring) (useAI : bool) (w : World) :
  exists w',
    generateEntityComponent env openai entityName description useAI w =
      (Normal (componentTemplate entityName (capitalize entityName)
                 (pluralize entityName)), w') /\
    written w' = written w.
Proof.
  unfold generateEntityComponent.
  destruct (useAI && truthy (descriptionOrEmpty description)).
  - unfold bind.
    destruct (generateCodeWithAI_down
                (componentPrompt entityName (capitalize entityName)
                   (descriptionOrEmpty description)) None 3000 w)
      as (w' & Hg & Hw).
    rewrite Hg. cbn [truthyOpt]. exists w'. split; [reflexivity | exact Hw].
  - exists w. split; reflexivity.
Qed.

Lemma generateEntityService_down (entityName : jsstring)
    (description : option jsstring) (useAI : bool) (w : World) :
  exists w',
    generateEntityService env openai entityName description useAI w =
      (Normal (serviceTemplate entityName (capitalize entityName)
                 (pluralize entityName)), w') /\
    written w' = written w.
Proof.
  unfold generateEntityService.
  destruct (useAI && truthy (descriptionOrEmpty description)).
  - unfold bind.
    destruct (generateCodeWithAI_down
                (servicePrompt entityName (capitalize entityName)
                   (descriptionOrEmpty description)) None 2000 w)
      as (w' & Hg & Hw).
    rewrite Hg. cbn [truthyOpt]. exists w'. split; [reflexivity | exact Hw].
  - exists w. split; reflexivity.
Qed.

Lemma generateEntityFeature_down (projectPath entityName : jsstring)
    (description : option jsstring) (w : World) :
  exists w',
    generateEntityFeature env openai projectPath entityName description w =
      (Normal tt, w') /\
    written w' = written w ++ templateFiles projectPath entityName.
Proof.
  unfold generateEntityFeature, bind at 1.
  destruct (generateEntityComponent_down entityName description true w)
    as (w1 & Hc & Hw1).
  rewrite Hc.
  do 3 write_step. unfold bind at 1.
  match goal with
  | |- context [generateEntityService env openai entityName description true ?w2] =>
      destruct (generateEntityService_down entityName description true w2)
        as (w3 & Hs & Hw3)
  end.
  rewrite Hs.
  unfold bind, writeFileSync. cbn [calls console written] in *.
  eexists. split; [reflexivity|].
  cbn [written]. rewrite Hw3, Hw1. unfold templateFiles.
  rewrite <- !app_assoc. reflexivity.
Qed.

Lemma forEach_features_down (projectPath : jsstring)
    (description : option jsstring) (line : jsstring -> jsstring) :
  forall (names : list jsstring) (w : World),
  exists w',
    forEachM (fun entity =>
                consoleLog (line entity) ;;;
                generateEntityFeature env openai projectPath entity description)
             names w = (Normal tt, w') /\
    written w' = written w ++ flat_map (templateFiles projectPath) names.
Proof.
  induction names as [|e names IH]; intros w.
  - exists w. split; [reflexivity | symmetry; apply app_nil_r].
  - cbn [forEachM flat_map]. unfold bind at 1. unfold bind at 1, consoleLog at 1.
    match goal with
    | |- context [generateEntityFeature env openai projectPath e description ?w1] =>
        destruct (generateEntityFeature_down projectPath e description w1)
          as (w2 & Hf & Hw2)
    end.
    rewrite Hf. destruct (IH w2) as (w3 & Hl & Hw3).
    exists w3. split; [exact Hl|].
    rewrite Hw3, Hw2. cbn [written]. rewrite <- app_assoc. reflexivity.
Qed.

Lemma createConfigFiles_down (projectPath : jsstring) (config : Config) (w : World) :
  exists w',
    createConfigFiles env openai projectPath config w = (Normal tt, w') /\
    written w' =
      written w ++
      [ ([projectPath; js ".gitignore"], gitignore);
        ([projectPath; js ".editorconfig"], editorconfig);
        ([projectPath; js ".npmrc"], npmrc) ] ++
      flat_map (templateFiles projectPath)
        (match entities config with Some l => l | None => [] end).
Proof.
  unfold createConfigFiles. do 3 write_step.
  cbn [calls console written].
  destruct (match entities config with Some l => l | None => [] end) as [|e l] eqn:El.
  - cbn [length Nat.ltb Nat.leb flat_map]. unfold ret.
    eexists. split; [reflexivity|]. cbn [written].
    rewrite <- !app_assoc. reflexivity.
  - cbn [length Nat.ltb Nat.leb]. unfold bind at 1, consoleLog at 1.
    match goal with
    | |- context [forEachM ?f (e :: l) ?w1] =>
        destruct (forEach_features_down projectPath (description config)
                    (fun entity => js "   " ++ checkMark ++ js " Generating " ++
                                   entity ++ js " feature...") (e :: l) w1)
          as (w2 & Hl & Hw2)
    end.
    exists w2. split; [exact Hl|].
    rewrite Hw2. cbn [written]. rewrite <- !app_assoc. reflexivity.
Qed.

End Fallback.


(* --------------------------------------------------------------------- *)
(** ** Occurrences *)

Lemma startsWith_app (x b : jsstring) : startsWith (x ++ b) x = true.
Proof.
  induction x as [|c x IH]; simpl; [reflexivity|].
  rewrite N.eqb_refl. exact IH.
Qed.

Lemma startsWith_inv (p : jsstring) : forall s,
  startsWith s p = true -> exists b, s = p ++ b.
Proof.
  induction p as [|c p IH]; intros s H.
  - exists s. reflexivity.
  - destruct s as [|d s]; [discriminate|]. simpl in H.
    apply andb_true_iff in H as [Hc Hp]. apply N.eqb_eq in Hc. subst d.
    destruct (IH _ Hp) as (b & ->). exists b. reflexivity.
Qed.

Lemma includes_occursIn (s x : jsstring) : includes s x = true <-> occursIn x s.
Proof.
  unfold includes, occursIn. split.
  - revert x. induction s as [|c s IH]; intros x H.
    + simpl in H. destruct (startsWith [] x) eqn:E; [|discriminate].
      apply startsWith_inv in E. destruct E as (b & E). exists [], b. exact E.
    + simpl in H. destruct (startsWith (c :: s) x) eqn:E.
      * apply startsWith_inv in E. destruct E as (b & E). exists [], b. exact E.
      * destruct (indexOf s x) eqn:Ei; [|discriminate].
        destruct (IH x) as (a & b & ->); [rewrite Ei; reflexivity|].
        exists (c :: a), b. reflexivity.
  - intros (a & b & ->). induction a as [|c a IH].
    + simpl app. destruct (x ++ b) as [|d t] eqn:E.
      * destruct x; [reflexivity | discriminate].
      * simpl indexOf. rewrite <- E, startsWith_app. reflexivity.
    + simpl app. simpl indexOf.
      destruct (startsWith (c :: a ++ x ++ b) x); [reflexivity|].
      destruct (indexOf (a ++ x ++ b) x); [reflexivity | discriminate].
Qed.

Lemma occursIn_refl (x : jsstring) : occursIn x x.
Proof. exists [], []. rewrite app_nil_r. reflexivity. Qed.

Lemma occursIn_trans (x y z : jsstring) : occursIn x y -> occursIn y z -> occursIn x z.
Proof.
  intros (a & b & ->) (c & d & ->). exists (c ++ a), (b ++ d).
  rewrite <- !app_assoc. reflexivity.
Qed.

Lemma occursIn_app_l (x s t : jsstring) : occursIn x s -> occursIn x (s ++ t).
Proof.
  intros (a & b & ->). exists a, (b ++ t). rewrite <- !app_assoc. reflexivity.
Qed.

Lemma occursIn_app_r (x s t : jsstring) : occursIn x t -> occursIn x (s ++ t).
Proof.
  intros (a & b & ->). exists (s ++ a), b. rewrite <- !app_assoc. reflexivity.
Qed.

Create HintDb occurs.
#[local] Hint Resolve occursIn_refl occursIn_app_l occursIn_app_r : occurs.

Lemma occursIn_concat (x : jsstring) (l : list jsstring) :
  In x l -> occursIn x (concat l).
Proof.
  intros Hin. apply in_split in Hin. destruct Hin as (l1 & l2 & ->).
  rewrite concat_app. cbn [concat]. auto with occurs.
Qed.

Lemma occursIn_join (sep x : jsstring) : forall l,
  In x l -> occursIn x (join sep l).
Proof.
  induction l as [|y l IH]; intros Hin; [destruct Hin|].
  apply in_inv in Hin.
  destruct l as [|z l].
  - destruct Hin as [-> | []]. apply occursIn_refl.
  - change (join sep (y :: z :: l)) with (y ++ sep ++ join sep (z :: l)).
    destruct Hin as [-> | Hin]; auto with occurs.
Qed.

(** A value interpolated in a line of a template occurs in its text. *)
Lemma occursIn_render (v : jsstring) (line : list piece) (lines : list (list piece)) :
  In line lines -> In (V v) line -> occursIn v (render lines).
Proof.
  intros Hline Hv. unfold render.
  apply occursIn_trans with (y := concat (map pieceText line)).
  - apply occursIn_concat. change v with (pieceText (V v)).
    apply in_map. exact Hv.
  - apply occursIn_join.
    apply (in_map (fun line => concat (map pieceText line))). exact Hline.
Qed.

(* --------------------------------------------------------------------- *)
(** ** The routing file and the README *)

Lemma extract_names `{JSRuntime} (d : jsstring) (l : list jsstring) :
  extractEntitiesFromDescription (VStr d) = Normal l ->
  forall e, In e l -> In e entityNames.
Proof.
  intros Hout e Hin. rewrite extract_recorded in Hout.
  apply Normal_inj in Hout. subst l. apply firstn_In in Hin.
  unfold entityNames. apply in_or_app.
  destruct (recorded d) as [|x r] eqn:Hrec.
  - right. exact Hin.
  - left. rewrite <- Hrec, recorded_spec in Hin.
    apply in_map_iff in Hin. destruct Hin as (entry & He & Hf).
    apply filter_In in Hf as [Hf _].
    apply in_map_iff. exists entry. auto.
Qed.

Lemma registration_names_no_feature :
  forall e, In e entityNames ->
    includes appRoutingModule (featureDir e) = false /\
    includes appModuleTs (featureDir e) = false.
Proof.
  assert (H : forallb (fun e =>
                negb (includes appRoutingModule (featureDir e)) &&
                negb (includes appModuleTs (featureDir e))) entityNames = true)
    by (vm_compute; reflexivity).
  intros e He. rewrite forallb_forall in H. specialize (H e He).
  apply andb_true_iff in H as [H1 H2].
  split; [destruct (includes appRoutingModule (featureDir e))
         | destruct (includes appModuleTs (featureDir e))];
    try reflexivity; discriminate.
Qed.

Lemma readme_lists_entity `{JSRuntime} (projectName : jsstring) (config : Config)
    (referenceImages l : list jsstring) (e : jsstring) :
  entities config = Some l -> In e l ->
  occursIn (entityLine (capitalize e) (pluralize e))
           (readme projectName config referenceImages).
Proof.
  intros Hl He. unfold readme. rewrite Hl.
  destruct l as [|x l]; [destruct He|].
  match goal with
  | |- context [entitiesSectionText ?x] => set (lines := x)
  end.
  assert (Hlines : occursIn (entityLine (capitalize e) (pluralize e)) lines).
  { apply occursIn_join.
    apply (in_map (fun entity => entityLine (capitalize entity) (pluralize entity))).
    exact He. }
  clearbody lines.
  apply occursIn_trans with (y := entitiesSectionText lines).
  - apply occursIn_trans with (y := lines); [exact Hlines|].
    unfold entitiesSectionText.
    apply occursIn_render with (line := [V lines]).
    + do 3 right. left. reflexivity.
    + left. reflexivity.
  - unfold readmeText.
    match goal with
    | |- occursIn _ (render (_ :: _ :: _ :: ?ln :: _)) =>
        apply occursIn_render with (line := ln)
    end.
    + do 3 right. left. reflexivity.
    + right. left. reflexivity.
Qed.

(** C4, as the script behaves.  For every project name and configuration
    the generator writes the application's routing file with a fixed
    content: it names the feature directory of none of the detected
    entities (nor does the root module), although the README lists every
    detected entity with its feature directory. *)
Theorem registration_and_readme `{JSRuntime} (projectPath projectName : jsstring)
    (referenceImages : list jsstring) (config : Config) (w : World) :
  createAppModule projectPath projectName referenceImages w =
    (Normal tt,
     {| calls := calls w; console := console w;
        written := written w ++
          [ ([projectPath; js "src/app/app.module.ts"], appModuleTs);
            ([projectPath; js "src/app/app.component.ts"], appComponentTs projectName);
            ([projectPath; js "src/app/app.component.html"], appComponentHtml);
            ([projectPath; js "src/app/app.component.scss"], appComponentScss);
            ([projectPath; js "src/app/app-routing.module.ts"], appRoutingModule) ] |}) /\
  exists config' detected,
    assignEntities config = Normal config' /\
    entities config' = Some detected /\ detected <> [] /\
    forall e, In e detected ->
      includes appRoutingModule (featureDir e) = false /\
      includes appModuleTs (featureDir e) = false /\
      includes (readme projectName config' referenceImages)
               (entityLine (capitalize e) (pluralize e)) = true.
Proof.
  split.
  - unfold createAppModule, bind, writeFileSync. cbn [calls console written].
    rewrite <- !app_assoc. reflexivity.
  - unfold assignEntities.
    destruct (extract_some (orElse (description config) [])) as (l & Hl & Hne).
    rewrite Hl. cbn [bindC].
    eexists. exists l. split; [reflexivity|]. split; [reflexivity|].
    split; [exact Hne|].
    intros e He.
    destruct (registration_names_no_feature e (extract_names _ _ Hl e He)) as [H1 H2].
    split; [exact H1|]. split; [exact H2|].
    apply includes_occursIn.
    apply (readme_lists_entity projectName _ referenceImages l e); [reflexivity | exact He].
Qed.

(** C4, as the specification words it, fails: for a configuration whose
    detected entity is "user", the files written by [createAppModule] are
    the five below, and neither the routing file nor the root module
    names the feature directory or the module class of that entity. *)
Lemma registration_ignores_entities :
  @assignEntities asciiRuntime
     {| features := []; styling := js "CSS"; version := js "Angular 17 (Latest)";
        architecture := js "Standalone Components";
        description := Some (js "User management"); entities := None |}
   = Normal
     {| features := []; styling := js "CSS"; version := js "Angular 17 (Latest)";
        architecture := js "Standalone Components";
        description := Some (js "User management");
        entities := Some [js "user"] |} /\
  map fst (written (snd (createAppModule (js "out") (js "shop") []
                           {| calls := 0; console := []; written := [] |})))
   = [ [js "out"; js "src/app/app.module.ts"];
       [js "out"; js "src/app/app.component.ts"];
       [js "out"; js "src/app/app.component.html"];
       [js "out"; js "src/app/app.component.scss"];
       [js "out"; js "src/app/app-routing.module.ts"] ] /\
  forallb (fun file =>
             negb (includes (snd file) (featureDir (js "user"))) &&
             negb (includes (snd file) (js "UserModule")))
          (written (snd (createAppModule (js "out") (js "shop") []
                           {| calls := 0; console := []; written := [] |})))
   = true.
Proof.
  split; [vm_compute; reflexivity|].
  split; vm_compute; reflexivity.
Qed.
(* --------------------------------------------------------------------- *)
(** ** Request parser: fields *)

Lemma m_continues (r : regex) (st : mstate) (k : mstate -> option mstate) (res : mstate) :
  m r st k = Some res -> exists st', k st' = Some res.
Proof.
  intros H. apply m_sound in H. destruct H as (p' & s' & c' & _ & Hk).
  eexists; exact Hk.
Qed.

Lemma starLoop_same_cap cl k : forall s p c res,
  starLoop cl k p s c = Some res -> exists p' s', k (MState p' s' c) = Some res.
Proof.
  intros s p c res H. apply starLoop_sound in H.
  destruct H as (xs & s' & _ & _ & Hk). eexists _, _; exact Hk.
Qed.

(** A match of a pattern that sets group 1, or that starts with group 1
    set, reaches its continuation with group 1 set. *)
Lemma m_cap : forall r st k res,
  m r st k = Some res ->
  setsCap r = true \/ cap st <> None ->
  exists st', k st' = Some res /\ cap st' <> None.
Proof.
  induction r as [| cl | cl | cl | r1 IH1 | r1 IH1 r2 IH2 | r1 IH1 r2 IH2 | | r1 IH1];
    intros [p s c] k res H Hc; simpl in *.
  - destruct Hc as [Hc | Hc]; [discriminate|]. eexists; split; [exact H | exact Hc].
  - destruct Hc as [Hc | Hc]; [discriminate|].
    destruct s as [|x s']; [discriminate|].
    destruct (cmatch cl x); [|discriminate].
    eexists; split; [exact H | exact Hc].
  - destruct Hc as [Hc | Hc]; [discriminate|].
    apply starLoop_same_cap in H. destruct H as (p' & s' & Hk).
    eexists; split; [exact Hk | exact Hc].
  - destruct Hc as [Hc | Hc]; [discriminate|].
    destruct s as [|x s0]; [discriminate|].
    destruct (cmatch cl x); [|discriminate].
    apply starLoop_same_cap in H. destruct H as (p' & s' & Hk).
    eexists; split; [exact Hk | exact Hc].
  - destruct Hc as [Hc | Hc]; [discriminate|].
    destruct (m r1 (MState p s c) k) as [r|] eqn:E.
    + injection H as ->. apply (IH1 _ _ _ E). right; exact Hc.
    + eexists; split; [exact H | exact Hc].
  - destruct (setsCap r1) eqn:S1.
    + destruct (IH1 _ _ _ H (or_introl eq_refl)) as (st1 & H1 & C1).
      apply (IH2 _ _ _ H1). right; exact C1.
    + destruct Hc as [Hc | Hc].
      * simpl in Hc. apply m_continues in H. destruct H as (st1 & H1).
        apply (IH2 _ _ _ H1). left; exact Hc.
      * destruct (IH1 _ _ _ H (or_intror Hc)) as (st1 & H1 & C1).
        apply (IH2 _ _ _ H1). right; exact C1.
  - assert (Hc1 : setsCap r1 = true \/ c <> None).
    { destruct Hc as [Hc | Hc]; [|right; exact Hc].
      apply andb_true_iff in Hc. left; tauto. }
    assert (Hc2 : setsCap r2 = true \/ c <> None).
    { destruct Hc as [Hc | Hc]; [|right; exact Hc].
      apply andb_true_iff in Hc. left; tauto. }
    destruct (m r1 (MState p s c) k) as [r|] eqn:E.
    + injection H as ->. exact (IH1 _ _ _ E Hc1).
    + exact (IH2 _ _ _ H Hc2).
  - destruct Hc as [Hc | Hc]; [discriminate|].
    destruct (xorb (isWordOpt p) (isWordOpt (hd_error s))); [|discriminate].
    eexists; split; [exact H | exact Hc].
  - apply m_continues in H. destruct H as (st1 & H1).
    eexists; split; [exact H1 | discriminate].
Qed.

Lemma exec_cap (r : regex) (s : jsstring) (res : mstate) :
  setsCap r = true -> exec r s = Some res -> cap res <> None.
Proof.
  intros Hs H. unfold exec in H. apply execFrom_sound in H.
  destruct H as (pre & t & _ & Hm).
  destruct (m_cap _ _ _ _ Hm (or_introl Hs)) as (st' & Hk & Hc).
  injection Hk as ->. exact Hc.
Qed.

Lemma den_lits (w : jsstring) : forall p s p' s',
  den (lits w) p s p' s' <-> s = w ++ s' /\ p' = lastOr p w.
Proof.
  induction w as [|c w IH]; intros p s p' s'; simpl.
  - split; intros [-> ->]; auto.
  - split.
    + intros (q & t & (x & -> & Hx & ->) & Hd).
      apply IH in Hd. destruct Hd as [-> ->].
      apply N.eqb_eq in Hx. subst x. rewrite lastOr_cons. auto.
    + intros [-> ->]. exists (Some c), (w ++ s'). split.
      * exists c. rewrite N.eqb_refl. auto.
      * apply IH. rewrite lastOr_cons. auto.
Qed.

(** A pattern that starts with literal text only matches where the text
    occurs. *)
Lemma exec_literal_occurs (w : jsstring) (r : regex) (s : jsstring) (res : mstate) :
  exec (Cat (lits w) r) s = Some res -> includes s w = true.
Proof.
  intros H. unfold exec in H. apply execFrom_sound in H.
  destruct H as (pre & t & -> & Hm).
  apply m_sound in Hm. destruct Hm as (p' & s' & c' & Hd & _).
  cbn [den prev rest] in Hd. destruct Hd as (q & u & Hl & _).
  apply den_lits in Hl. destruct Hl as [-> _].
  apply includes_occursIn. exists pre, u. reflexivity.
Qed.

Lemma setsCap_heading (heading : string) : setsCap (headingPattern heading) = true.
Proof. unfold headingPattern. cbn [setsCap]. rewrite !orb_true_r. reflexivity. Qed.

Lemma matchField_total (heading : string) (body : jsstring) :
  exists o, matchField heading body = Normal o.
Proof.
  unfold matchField.
  destruct (exec (headingPattern heading) body) as [res|] eqn:E.
  - pose proof (exec_cap _ _ _ (setsCap_heading heading) E) as Hc.
    destruct (cap res); [eexists; reflexivity | congruence].
  - eexists; reflexivity.
Qed.

Lemma matchField_absent (heading : string) (body : jsstring) :
  includes body (js heading) = false -> matchField heading body = Normal None.
Proof.
  intros Hno. unfold matchField.
  destruct (exec (headingPattern heading) body) as [res|] eqn:E; [|reflexivity].
  apply exec_literal_occurs in E. congruence.
Qed.

(** The chain of tests records the tags of the vocabulary whose toggle
    is checked, in the order of the vocabulary. *)
Lemma pushes_spec (body : jsstring) : forall vocabulary acc,
  fold_left (fun features e => pushIf (checked body (fst e)) (snd e) features)
            vocabulary acc =
  acc ++ map (fun e => js (snd e))
             (filter (fun e => checked body (fst e)) vocabulary).
Proof.
  induction vocabulary as [|[label tag] vocabulary IH]; intros acc; cbn [fold_left filter].
  - symmetry; apply app_nil_r.
  - rewrite IH. unfold pushIf. cbn [fst snd].
    destruct (checked body label); cbn [map]; [rewrite <- app_assoc|]; reflexivity.
Qed.

Lemma parseIssueBody_fields (body : jsstring) :
  exists v s a d,
    matchField "### Angular Version" body = Normal v /\
    matchField "### Styling Framework" body = Normal s /\
    matchField "### Project Structure" body = Normal a /\
    matchField "### Project Description" body = Normal d /\
    parseIssueBody (VStr body) =
      Normal {| features := map (fun e => js (snd e))
                              (filter (fun e => checked body (fst e)) featureVocabulary);
                styling := match s with Some x => x | None => js "CSS" end;
                version := match v with Some x => x | None => js "Angular 17 (Latest)" end;
                architecture := match a with
                                | Some x => x
                                | None => js "Standalone Components"
                                end;
                description := d;
                entities := None |}.
Proof.
  destruct (matchField_total "### Angular Version" body) as (v & Hv).
  destruct (matchField_total "### Styling Framework" body) as (s & Hs).
  destruct (matchField_total "### Project Structure" body) as (a & Ha).
  destruct (matchField_total "### Project Description" body) as (d & Hd).
  exists v, s, a, d. repeat (split; [assumption|]).
  unfold parseIssueBody. cbn [requireString bindC].
  rewrite Hv, Hs, Ha, Hd. cbn [bindC].
  pose proof (pushes_spec body featureVocabulary []) as Hp.
  cbn [fold_left featureVocabulary fst snd app] in Hp.
  rewrite <- Hp. reflexivity.
Qed.
(* --------------------------------------------------------------------- *)
(** ** Request parser: toggles in a request made of sections *)

Lemma occursIn_cons_ne (c x : N) (P' s : jsstring) :
  x <> c -> (occursIn (c :: P') (x :: s) <-> occursIn (c :: P') s).
Proof.
  intros Hne. split.
  - intros (a & b & E). destruct a as [|y a].
    + simpl in E. injection E as E _. contradiction.
    + simpl in E. injection E as _ E. exists a, b. exact E.
  - intros H. apply (occursIn_app_r _ [x] s). exact H.
Qed.

Lemma prefix_before_line_feed (P : jsstring) : forall a b v,
  noLineFeed P = true -> P ++ v = a ++ 10%N :: b -> exists v', a = P ++ v'.
Proof.
  induction P as [|c P IH]; intros a b v Hn E.
  - exists a. reflexivity.
  - simpl in Hn. apply andb_true_iff in Hn as [Hc Hn].
    destruct a as [|x a]; simpl in E; injection E as Ec E.
    + subst c. discriminate.
    + subst x. destruct (IH _ _ _ Hn E) as (v' & ->). exists v'. reflexivity.
Qed.

Lemma occursIn_line_feed (P a b : jsstring) :
  noLineFeed P = true -> P <> [] ->
  (occursIn P (a ++ 10%N :: b) <-> occursIn P a \/ occursIn P b).
Proof.
  intros Hn Hne. split.
  - intros (u & v & E). revert u E. induction a as [|x a IH]; intros u E.
    + destruct u as [|y u]; simpl in E.
      * destruct P as [|c P]; [congruence|]. simpl in E, Hn.
        injection E as Ec _. subst c. discriminate.
      * injection E as _ E. right. exists u, v. exact E.
    + destruct u as [|y u].
      * simpl app in E at 2. symmetry in E.
        change ((x :: a) ++ 10%N :: b) with ((x :: a) ++ 10%N :: b) in E.
        destruct (prefix_before_line_feed P (x :: a) b v Hn E) as (v' & Ea).
        left. exists [], v'. exact Ea.
      * simpl in E. injection E as _ E.
        destruct (IH u E) as [H | H]; [left | right; exact H].
        apply (occursIn_app_r _ [x] a). exact H.
  - intros [H | H].
    + apply occursIn_app_l. exact H.
    + apply occursIn_app_r. apply (occursIn_app_r _ [10%N] b). exact H.
Qed.

Lemma occursIn_nil_inv (P : jsstring) : occursIn P [] -> P = [].
Proof.
  intros (a & b & E). destruct a; [|discriminate].
  destruct P; [reflexivity | discriminate].
Qed.

Section Marker.

(** A text to look for that starts neither with "#" nor with a blank and
    holds no line feed. *)
Variables (c : N) (P' : jsstring).
Hypothesis c_not_hash : c <> 35%N.
Hypothesis c_not_space : c <> 32%N.
Hypothesis one_line : noLineFeed (c :: P') = true.

Lemma c_not_line_feed : 10%N <> c.
Proof.
  simpl in one_line. apply andb_true_iff in one_line as [H _].
  intros <-. discriminate.
Qed.

Lemma occursIn_renderSection (sec : section) :
  occursIn (c :: P') (renderSection sec) <->
  occursIn (c :: P') (title sec) \/ occursIn (c :: P') (content sec).
Proof.
  unfold renderSection.
  change (js "### " ++ title sec ++ nl ++ nl ++ content sec)
    with (35%N :: 35%N :: 35%N :: 32%N :: (title sec ++ 10%N :: 10%N :: content sec)).
  rewrite !occursIn_cons_ne by (intros E; symmetry in E; auto).
  rewrite occursIn_line_feed by (exact one_line || discriminate).
  rewrite (occursIn_cons_ne c 10%N) by exact c_not_line_feed.
  reflexivity.
Qed.

Lemma occursIn_renderBody : forall secs,
  occursIn (c :: P') (renderBody secs) <->
  exists sec, In sec secs /\
              (occursIn (c :: P') (title sec) \/ occursIn (c :: P') (content sec)).
Proof.
  induction secs as [|sec secs IH].
  - split.
    + intros H. apply occursIn_nil_inv in H. discriminate.
    + intros (sec & [] & _).
  - destruct secs as [|sec2 secs].
    + change (renderBody [sec]) with (renderSection sec).
      rewrite occursIn_renderSection. split.
      * intros H. exists sec. split; [left; reflexivity | exact H].
      * intros (s & [<- | []] & H). exact H.
    + change (renderBody (sec :: sec2 :: secs))
        with (renderSection sec ++ 10%N :: 10%N :: renderBody (sec2 :: secs)).
      rewrite occursIn_line_feed by (exact one_line || discriminate).
      rewrite (occursIn_cons_ne c 10%N) by exact c_not_line_feed.
      rewrite occursIn_renderSection, IH. split.
      * intros [H | (s & Hin & H)].
        -- exists sec. split; [left; reflexivity | exact H].
        -- exists s. split; [right; exact Hin | exact H].
      * intros (s & Hin & H). apply in_inv in Hin. destruct Hin as [<- | Hin].
        -- left; exact H.
        -- right. exists s. split; [exact Hin | exact H].
Qed.

Lemma includes_renderBody (secs : list section) :
  includes (renderBody secs) (c :: P') =
  existsb (fun sec => includes (title sec) (c :: P') ||
                      includes (content sec) (c :: P')) secs.
Proof.
  apply eq_true_iff_eq.
  rewrite includes_occursIn, occursIn_renderBody, existsb_exists.
  split; intros (sec & Hin & H); exists sec; (split; [exact Hin|]).
  - apply orb_true_iff. rewrite !includes_occursIn. exact H.
  - apply orb_true_iff in H. rewrite !includes_occursIn in H. exact H.
Qed.

End Marker.

Lemma existsb_pairs {A} (a b c d : A -> bool) (l : list A) :
  existsb (fun x => a x || b x) l || existsb (fun x => c x || d x) l =
  existsb (fun x => (a x || c x) || (b x || d x)) l.
Proof.
  induction l as [|x l IH]; [reflexivity|].
  cbn [existsb]. rewrite <- IH.
  generalize (existsb (fun x => a x || b x) l) (existsb (fun x => c x || d x) l).
  intros e1 e2. destruct (a x), (b x), (c x), (d x), e1, e2; reflexivity.
Qed.

(** On a request made of sections a toggle is checked exactly when its
    marker stands in some section. *)
Lemma checked_renderBody (secs : list section) (label : string) :
  noLineFeed (js label) = true ->
  checked (renderBody secs) label = checkedIn secs label.
Proof.
  intros Hl. unfold checked, checkedIn.
  change (js "- [X] " ++ js label)
    with (45%N :: (32%N :: 91%N :: 88%N :: 93%N :: 32%N :: js label)).
  change (js "- [x] " ++ js label)
    with (45%N :: (32%N :: 91%N :: 120%N :: 93%N :: 32%N :: js label)).
  rewrite !includes_renderBody by (try discriminate; simpl; exact Hl).
  rewrite existsb_pairs. unfold checked. reflexivity.
Qed.
(* --------------------------------------------------------------------- *)
(** ** Request parser: a heading pattern on a request made of sections *)

Lemma skipn_app_exact {A} (a b : list A) : skipn (length a) (a ++ b) = b.
Proof. induction a as [|x a IH]; [reflexivity | exact IH]. Qed.

(** Literal text is matched by comparing it with the input. *)
Lemma m_lits (w : jsstring) : forall p s c k,
  m (lits w) (MState p s c) k =
    if startsWith s w
    then k (MState (lastOr p w) (skipn (length w) s) c)
    else None.
Proof.
  induction w as [|x w IH]; intros p s c k.
  - reflexivity.
  - cbn [lits m rest prev cap]. destruct s as [|y s]; [reflexivity|].
    cbn [cmatch startsWith]. rewrite (N.eqb_sym y x).
    destruct (x =? y)%N eqn:E; [|reflexivity].
    apply N.eqb_eq in E. subst y. rewrite IH, lastOr_cons. reflexivity.
Qed.

Lemma takeWhileC_dropWhileC (cl : cclass) (s : jsstring) :
  takeWhileC cl s ++ dropWhileC cl s = s.
Proof.
  induction s as [|x s IH]; [reflexivity|]. simpl.
  destruct (cmatch cl x); [simpl; rewrite IH|]; reflexivity.
Qed.

Lemma firstn_takeWhileC (cl : cclass) (s : jsstring) :
  firstn (length s - length (dropWhileC cl s)) s = takeWhileC cl s.
Proof.
  rewrite <- (takeWhileC_dropWhileC cl s) at 1 3.
  rewrite length_app, Nat.add_sub, firstn_app, Nat.sub_diag, firstn_all.
  simpl. apply app_nil_r.
Qed.

(** When the continuation accepts every position, a greedy iteration
    takes the longest run. *)
Lemma starLoop_greedy (cl : cclass) (k : mstate -> option mstate) :
  (forall st, k st <> None) ->
  forall s p c,
    starLoop cl k p s c =
      k (MState (lastOr p (takeWhileC cl s)) (dropWhileC cl s) c).
Proof.
  intros Hk. induction s as [|x s IH]; intros p c; [reflexivity|].
  cbn [starLoop takeWhileC dropWhileC].
  destruct (cmatch cl x); [|reflexivity].
  rewrite IH, lastOr_cons.
  destruct (k (MState (lastOr (Some x) (takeWhileC cl s)) (dropWhileC cl s) c)) eqn:E;
    [reflexivity | exfalso; exact (Hk _ E)].
Qed.

Lemma lineTerminator_whiteSpace (c : N) :
  isLineTerminator c = true -> isWhiteSpace c = true.
Proof.
  unfold isLineTerminator. intros H.
  repeat (apply orb_true_iff in H; destruct H as [H | H]);
    apply N.eqb_eq in H; subst c; reflexivity.
Qed.

Lemma firstLine_app (v X : jsstring) :
  (X = [] \/ exists X', X = 10%N :: X') -> firstLine (v ++ X) = firstLine v.
Proof.
  intros HX. unfold firstLine. induction v as [|y v IH].
  - destruct HX as [-> | (X' & ->)]; reflexivity.
  - simpl. destruct (negb (isLineTerminator y)); [rewrite IH|]; reflexivity.
Qed.

(** A greedy iteration stops at the longest run when the continuation
    accepts that position. *)
Lemma starLoop_longest (cl : cclass) (k : mstate -> option mstate) (s' : jsstring)
    (c : option jsstring) :
  (match s' with x :: _ => cmatch cl x = false | [] => True end) ->
  forall xs p res,
    forallb (cmatch cl) xs = true ->
    k (MState (lastOr p xs) s' c) = Some res ->
    starLoop cl k p (xs ++ s') c = Some res.
Proof.
  intros Hstop. induction xs as [|x xs IH]; intros p res Hall Hk.
  - simpl app. destruct s' as [|y s0]; [exact Hk|].
    cbn [starLoop]. rewrite Hstop. exact Hk.
  - cbn [forallb] in Hall. apply andb_true_iff in Hall as [Hx Hall].
    simpl app. cbn [starLoop]. rewrite Hx.
    rewrite lastOr_cons in Hk. rewrite (IH _ _ Hall Hk). reflexivity.
Qed.

(** Group 1 of [(.+)] at a visible character is the line from there. *)
Lemma line_captured (q : option N) (c : N) (w : jsstring) :
  isWhiteSpace c = false ->
  exists p' s',
    m (Group (Plus CDot)) (MState q (c :: w) None) Some =
      Some (MState p' s' (Some (firstLine (c :: w)))).
Proof.
  intros Hc.
  assert (Hlt : isLineTerminator c = false).
  { destruct (isLineTerminator c) eqn:E; [|reflexivity].
    apply lineTerminator_whiteSpace in E. congruence. }
  cbn [m prev rest cap cmatch]. rewrite Hlt. cbn [negb].
  rewrite starLoop_greedy by discriminate.
  eexists _, _. f_equal. f_equal. f_equal.
  cbn [rest length].
  assert (Hle : (length (dropWhileC CDot w) <= length w)%nat).
  { rewrite <- (takeWhileC_dropWhileC CDot w) at 2. rewrite length_app. lia. }
  replace (S (length w) - length (dropWhileC CDot w))%nat
    with (S (length w - length (dropWhileC CDot w))) by lia.
  cbn [firstn]. rewrite firstn_takeWhileC.
  unfold firstLine. cbn [takeWhileC cmatch]. rewrite Hlt. reflexivity.
Qed.

(** After a heading, across blanks that hold a line feed, the pattern
    captures the line of the first visible character; without a line
    feed among the blanks it fails. *)
Lemma valuePattern_line (c : N) (w : jsstring) :
  isWhiteSpace c = false ->
  forall (W : jsstring) (q : option N),
    forallb isWhiteSpace W = true ->
    if existsb (fun x => (x =? 10)%N) W then
      exists p' s',
        m valuePattern (MState q (W ++ c :: w) None) Some =
          Some (MState p' s' (Some (firstLine (c :: w))))
    else m valuePattern (MState q (W ++ c :: w) None) Some = None.
Proof.
  intros Hc.
  assert (Hnl : (c =? 10)%N = false).
  { destruct (c =? 10)%N eqn:E; [|reflexivity].
    apply N.eqb_eq in E. subst c. discriminate. }
  unfold valuePattern. cbn [m prev rest cap].
  induction W as [|x W IH]; intros q HW.
  - cbn [existsb app starLoop]. change (cmatch CSpace c) with (isWhiteSpace c).
    rewrite Hc. cbn [m prev rest cap cmatch]. rewrite Hnl. reflexivity.
  - cbn [forallb] in HW. apply andb_true_iff in HW as [Hx HW].
    cbn [existsb app starLoop]. change (cmatch CSpace x) with (isWhiteSpace x).
    rewrite Hx. specialize (IH (Some x) HW).
    destruct (existsb (fun x => (x =? 10)%N) W).
    + destruct IH as (p' & s' & ->). rewrite orb_true_r. eexists _, _. reflexivity.
    + rewrite IH, orb_false_r. cbn [m prev rest cap cmatch].
      destruct (x =? 10)%N; [|reflexivity].
      destruct (line_captured (lastOr (Some x) W) c w Hc) as (p' & s' & Hline).
      exists p', s'.
      apply starLoop_longest; [exact Hc | exact HW | exact Hline].
Qed.

Lemma trimStart_split (s : jsstring) :
  exists W, s = W ++ trimStart s /\ forallb isWhiteSpace W = true.
Proof.
  induction s as [|x s IH].
  - exists []. auto.
  - cbn [trimStart]. destruct (isWhiteSpace x) eqn:Ex.
    + destruct IH as (W & Hs & HW). exists (x :: W). split.
      * simpl. rewrite <- Hs. reflexivity.
      * simpl. rewrite Ex, HW. reflexivity.
    + exists []. auto.
Qed.

Lemma trimStart_head (s : jsstring) (c : N) (w : jsstring) :
  trimStart s = c :: w -> isWhiteSpace c = false.
Proof.
  induction s as [|x s IH]; [discriminate|].
  cbn [trimStart]. destruct (isWhiteSpace x) eqn:Ex; [exact IH|].
  intros E. injection E as <- _. exact Ex.
Qed.

Lemma forallb_app_l {A} (f : A -> bool) (a b : list A) :
  forallb f (a ++ b) = true -> forallb f a = true.
Proof. rewrite forallb_app. intros H. apply andb_true_iff in H. tauto. Qed.

(** After a heading that goes on with other text, the pattern fails. *)
Lemma valuePattern_longer_title (q : option N) (t' s : jsstring)
    (c : option jsstring) (k : mstate -> option mstate) :
  t' <> [] -> noLineFeed t' = true -> notWhiteSpaceOpt (lastOf t') = true ->
  m valuePattern (MState q (t' ++ 10%N :: s) c) k = None.
Proof.
  intros Hne Hnl Hlast.
  destruct (m valuePattern (MState q (t' ++ 10%N :: s) c) k) as [res|] eqn:E;
    [exfalso | reflexivity].
  apply m_sound in E. destruct E as (p' & s' & c' & Hd & _).
  unfold valuePattern in Hd. cbn [den prev rest] in Hd.
  destruct Hd as (q1 & s1 & (xs & Hs & Hall & _) & q2 & s2 & (x & Hx & Hm & _) & _).
  subst s1. apply N.eqb_eq in Hm. subst x.
  symmetry in Hs.
  destruct (prefix_before_line_feed t' xs s2 (10%N :: s) Hnl) as (v' & Hxs).
  { symmetry. exact Hs. }
  subst xs. apply forallb_app_l in Hall.
  destruct (snoc_cases t') as [-> | (u & y & ->)]; [congruence|].
  rewrite lastOf_lastOr, lastOr_snoc in Hlast. cbn [notWhiteSpaceOpt] in Hlast.
  rewrite forallb_app in Hall. apply andb_true_iff in Hall as [_ Hy].
  cbn [forallb cmatch] in Hy. rewrite andb_true_r in Hy.
  rewrite Hy in Hlast. discriminate.
Qed.

Section Heading.

(** The pattern of the field whose heading line is "### " followed by
    the one-line text [H]. *)
Variable H : jsstring.
Hypothesis H_one_line : noLineFeed H = true.

Let pattern : regex := Cat (lits (js "### " ++ H)) valuePattern.

Lemma pattern_needs_heading (p : option N) (s : jsstring) :
  startsWith s (js "### " ++ H) = false ->
  m pattern (MState p s None) Some = None.
Proof.
  intros Hs. unfold pattern. cbn [m]. rewrite m_lits, Hs. reflexivity.
Qed.

Lemma execFrom_next (p : option N) (x : N) (s : jsstring) :
  m pattern (MState p (x :: s) None) Some = None ->
  execFrom pattern p (x :: s) = execFrom pattern (Some x) s.
Proof. intros Hm. cbn [execFrom]. rewrite Hm. reflexivity. Qed.

Lemma skip_char (p : option N) (x : N) (s : jsstring) :
  x <> 35%N -> execFrom pattern p (x :: s) = execFrom pattern (Some x) s.
Proof.
  intros Hx. apply execFrom_next, pattern_needs_heading.
  change (js "### " ++ H) with (35%N :: (35%N :: 35%N :: 32%N :: H)).
  cbn [startsWith]. destruct (35 =? x)%N eqn:E; [|reflexivity].
  apply N.eqb_eq in E. congruence.
Qed.

Lemma includes_tail (x : N) (u K : jsstring) :
  includes (x :: u) K = false -> includes u K = false.
Proof.
  intros Hno. destruct (includes u K) eqn:E; [|reflexivity].
  apply includes_occursIn in E. apply (occursIn_app_r _ [x] u) in E.
  apply includes_occursIn in E. simpl app in E. congruence.
Qed.

(** Text without the marker "###", followed by a line feed or by the end
    of the request, holds no match. *)
Lemma skip_clean : forall (u s : jsstring) (p : option N),
  includes u (js "###") = false ->
  (s = [] \/ exists s', s = 10%N :: s') ->
  execFrom pattern p (u ++ s) = execFrom pattern (lastOr p u) s.
Proof.
  induction u as [|x u IH]; intros s p Hno Hs; [reflexivity|].
  simpl app. rewrite execFrom_next.
  - rewrite lastOr_cons. apply IH; [exact (includes_tail _ _ _ Hno) | exact Hs].
  - apply pattern_needs_heading.
    destruct (startsWith (x :: u ++ s) (js "### " ++ H)) eqn:E; [exfalso | reflexivity].
    apply startsWith_inv in E. destruct E as (b & E).
    change (js "### " ++ H) with (js "###" ++ (32%N :: H)) in E.
    rewrite <- app_assoc in E.
    assert (Hpre : exists v', x :: u = js "###" ++ v').
    { destruct Hs as [-> | (s' & ->)].
      - rewrite app_nil_r in E. eexists; exact E.
      - apply (prefix_before_line_feed (js "###") (x :: u) s' ((32%N :: H) ++ b));
          [reflexivity | symmetry; exact E]. }
    destruct Hpre as (v' & Hv).
    assert (Hin : includes (x :: u) (js "###") = true).
    { apply includes_occursIn. exists [], v'. exact Hv. }
    congruence.
Qed.

Lemma noLineFeed_app (a b : jsstring) :
  noLineFeed (a ++ b) = noLineFeed a && noLineFeed b.
Proof. apply forallb_app. Qed.

Lemma lastOf_app_ne (a b : jsstring) : b <> [] -> lastOf (a ++ b) = lastOf b.
Proof.
  intros Hb. destruct (snoc_cases b) as [-> | (u & y & ->)]; [congruence|].
  rewrite app_assoc. rewrite !lastOf_lastOr, !lastOr_snoc. reflexivity.
Qed.

Variable sec : section.
Hypothesis sec_wf : wfSection sec = true.

(** What follows a section: the end of the request, or a blank line and
    the next sections. *)
Variable X : jsstring.
Hypothesis X_shape : X = [] \/ exists Y, X = 10%N :: 10%N :: Y.

Lemma X_line_feed : X = [] \/ exists X', X = 10%N :: X'.
Proof. destruct X_shape as [-> | (Y & ->)]; [left | right; eexists]; reflexivity. Qed.

(** A section with the title [H] is where the pattern first matches, and
    group 1 is the value line of its block. *)
Lemma section_hit (p : option N) :
  title sec = H ->
  exists res, execFrom pattern p (renderSection sec ++ X) = Some res /\
              cap res = Some (valueLine (content sec)).
Proof.
  intros Ht.
  unfold wfSection in sec_wf.
  repeat (apply andb_true_iff in sec_wf as [sec_wf ?]).
  destruct (trimStart_split (content sec)) as (W & Hsplit & HW).
  unfold valueLine.
  destruct (trimStart (content sec)) as [|c w] eqn:Ec; [discriminate|].
  pose proof (trimStart_head _ _ _ Ec) as Hc.
  assert (HW' : forallb isWhiteSpace (10%N :: 10%N :: W) = true)
    by (cbn [forallb]; rewrite HW; reflexivity).
  pose proof (valuePattern_line c (w ++ X) Hc (10%N :: 10%N :: W)
                (lastOr p (js "### " ++ H)) HW') as Hm.
  cbn [existsb] in Hm. rewrite N.eqb_refl in Hm. cbn [orb] in Hm.
  destruct Hm as (p' & s' & Hmatch).
  exists (MState p' s' (Some (firstLine (c :: w ++ X)))). split.
  - unfold renderSection. rewrite Ht, Hsplit.
    replace ((js "### " ++ H ++ nl ++ nl ++ W ++ c :: w) ++ X)
      with ((js "### " ++ H) ++ (10%N :: 10%N :: W) ++ c :: w ++ X)
      by (unfold nl; repeat (rewrite <- app_assoc || (progress cbn [app]));
          reflexivity).
    assert (Hfirst : m pattern (MState p ((js "### " ++ H) ++
                        (10%N :: 10%N :: W) ++ c :: w ++ X) None) Some
                     = Some (MState p' s' (Some (firstLine (c :: w ++ X))))).
    { unfold pattern. cbn [m]. rewrite m_lits, startsWith_app, skipn_app_exact.
      exact Hmatch. }
    destruct ((js "### " ++ H) ++ (10%N :: 10%N :: W) ++ c :: w ++ X);
      cbn [execFrom]; rewrite Hfirst; reflexivity.
  - cbn [cap]. f_equal.
    change (c :: w ++ X) with ((c :: w) ++ X).
    apply firstLine_app, X_line_feed.
Qed.

(** A section with another title holds no match. *)
Lemma section_miss (p : option N) :
  title sec <> H ->
  execFrom pattern p (renderSection sec ++ X) =
  execFrom pattern (lastOr p (renderSection sec)) X.
Proof.
  intros Ht.
  unfold wfSection in sec_wf.
  repeat (apply andb_true_iff in sec_wf as [sec_wf ?]).
  repeat match goal with
         | Hn : negb _ = true |- _ => apply negb_true_iff in Hn
         end.
  set (t := title sec) in *. set (v := content sec) in *.
  unfold renderSection. fold t v.
  replace ((js "### " ++ t ++ nl ++ nl ++ v) ++ X)
    with (35%N :: 35%N :: 35%N :: 32%N :: (t ++ 10%N :: 10%N :: (v ++ X)))
    by (unfold nl; cbn [js map list_ascii_of_string app]; rewrite <- !app_assoc;
        reflexivity).
  replace (lastOr p (js "### " ++ t ++ nl ++ nl ++ v))
    with (lastOr (Some 10%N) v).
  2: { rewrite !lastOr_app. unfold nl. rewrite !(lastOr_cons _ 10%N). reflexivity. }
  (* the position of the heading *)
  rewrite execFrom_next.
  2: { unfold pattern. cbn [m]. rewrite m_lits.
       change (js "### " ++ H) with (35%N :: 35%N :: 35%N :: 32%N :: H).
       cbn [startsWith]. rewrite !N.eqb_refl. cbn [andb].
       destruct (startsWith (t ++ 10%N :: 10%N :: v ++ X) H) eqn:E; [|reflexivity].
       apply startsWith_inv in E. destruct E as (b & E).
       destruct (prefix_before_line_feed H t (10%N :: v ++ X) b H_one_line)
         as (t' & Ht'); [symmetry; exact E|].
       assert (Hne : t' <> []).
       { intros ->. rewrite app_nil_r in Ht'. congruence. }
       rewrite Ht'.
       change (35%N :: 35%N :: 35%N :: 32%N :: (H ++ t') ++ 10%N :: 10%N :: v ++ X)
         with ((35%N :: 35%N :: 35%N :: 32%N :: H) ++ t' ++ 10%N :: 10%N :: v ++ X)
         || rewrite <- app_assoc.
       change (35%N :: 35%N :: 35%N :: 32%N :: H ++ t' ++ 10%N :: 10%N :: v ++ X)
         with ((35%N :: 35%N :: 35%N :: 32%N :: H) ++ t' ++ 10%N :: 10%N :: v ++ X).
       rewrite skipn_app_exact.
       apply valuePattern_longer_title.
       - exact Hne.
       - rewrite Ht', noLineFeed_app in sec_wf.
         apply andb_true_iff in sec_wf. tauto.
       - rewrite Ht', (lastOf_app_ne _ _ Hne) in *. assumption. }
  (* the rest of the marker *)
  rewrite execFrom_next.
  2: { apply pattern_needs_heading. reflexivity. }
  rewrite execFrom_next.
  2: { apply pattern_needs_heading. reflexivity. }
  rewrite skip_char by discriminate.
  (* the title, the blank line, the block *)
  rewrite skip_clean; [| assumption | right; eexists; reflexivity].
  rewrite !skip_char by discriminate.
  rewrite skip_clean; [reflexivity | assumption | apply X_line_feed].
Qed.

End Heading.

(** On a request made of well-formed sections, the pattern of a heading
    finds the first section with that title and captures the value line
    of its block; it finds nothing when no section has that title. *)
Lemma exec_sections (H : jsstring) :
  noLineFeed H = true ->
  forall secs p,
    forallb wfSection secs = true ->
    match find (fun sec => streq (title sec) H) secs with
    | Some sec =>
        exists res,
          execFrom (Cat (lits (js "### " ++ H)) valuePattern) p (renderBody secs)
            = Some res /\
          cap res = Some (valueLine (content sec))
    | None =>
        execFrom (Cat (lits (js "### " ++ H)) valuePattern) p (renderBody secs) = None
    end.
Proof.
  intros HH. induction secs as [|sec secs IH]; intros p Hwf.
  - cbn [find]. change (renderBody []) with (@nil N).
    cbn [execFrom]. rewrite (pattern_needs_heading H); reflexivity.
  - cbn [forallb] in Hwf. apply andb_true_iff in Hwf as [Hsec Hwf].
    assert (Hbody : exists X, renderBody (sec :: secs) = renderSection sec ++ X /\
               ((X = [] /\ secs = []) \/
                X = 10%N :: 10%N :: renderBody secs)).
    { destruct secs as [|sec2 secs].
      - exists []. split; [symmetry; apply app_nil_r | left; auto].
      - exists (10%N :: 10%N :: renderBody (sec2 :: secs)). split; [reflexivity | right; reflexivity]. }
    destruct Hbody as (X & -> & HX).
    assert (Hshape : X = [] \/ exists Y, X = 10%N :: 10%N :: Y).
    { destruct HX as [[-> _] | ->]; [left | right; eexists]; reflexivity. }
    cbn [find]. destruct (streq (title sec) H) eqn:Et.
    + apply streq_true_iff in Et.
      exact (section_hit H sec Hsec X Hshape p Et).
    + assert (Hne : title sec <> H).
      { intros E. apply streq_true_iff in E. congruence. }
      rewrite (section_miss H HH sec Hsec X Hshape p Hne).
      destruct HX as [[-> ->] | ->].
      * cbn [find execFrom]. rewrite (pattern_needs_heading H); reflexivity.
      * rewrite !skip_char by discriminate. apply IH. exact Hwf.
Qed.

Lemma matchField_sections (heading : string) (secs : list section) :
  noLineFeed (js heading) = true ->
  forallb wfSection secs = true ->
  matchField ("### " ++ heading) (renderBody secs) = Normal (fieldOf heading secs).
Proof.
  intros Hh Hwf. unfold matchField, headingPattern, exec, fieldOf.
  change (js ("### " ++ heading)) with (js "### " ++ js heading).
  pose proof (exec_sections (js heading) Hh secs None Hwf) as Hex.
  destruct (find (fun sec => streq (title sec) (js heading)) secs) as [sec|].
  - destruct Hex as (res & -> & ->). reflexivity.
  - rewrite Hex. reflexivity.
Qed.

Lemma vocabulary_one_line :
  forall e, In e featureVocabulary -> noLineFeed (js (fst e)) = true.
Proof.
  assert (H : forallb (fun e => noLineFeed (js (fst e))) featureVocabulary = true)
    by (vm_compute; reflexivity).
  intros e He. rewrite forallb_forall in H. exact (H e He).
Qed.

(** On a request made of well-formed sections the parser returns the
    configuration read off the sections. *)
Lemma parseIssueBody_sections (secs : list section) :
  forallb wfSection secs = true ->
  parseIssueBody (VStr (renderBody secs)) = Normal (configOf secs).
Proof.
  intros Hwf.
  destruct (parseIssueBody_fields (renderBody secs))
    as (v & s & a & d & Hv & Hs & Ha & Hd & ->).
  change "### Angular Version" with ("### " ++ "Angular Version")%string in Hv.
  change "### Styling Framework" with ("### " ++ "Styling Framework")%string in Hs.
  change "### Project Structure" with ("### " ++ "Project Structure")%string in Ha.
  change "### Project Description" with ("### " ++ "Project Description")%string in Hd.
  rewrite matchField_sections in Hv, Hs, Ha, Hd by (reflexivity || exact Hwf).
  apply Normal_inj in Hv, Hs, Ha, Hd. subst v s a d.
  unfold configOf. f_equal. f_equal. f_equal.
  apply filter_ext_in. intros e He.
  apply checked_renderBody, vocabulary_one_line, He.
Qed.

(* --------------------------------------------------------------------- *)
(** ** Request parser: the order of the sections *)

Lemma distinct_NoDup (l : list jsstring) : distinct l = true -> NoDup l.
Proof.
  induction l as [|x l IH]; intros Hd; [constructor|].
  cbn [distinct] in Hd. apply andb_true_iff in Hd as [Hx Hl].
  constructor; [|auto].
  intros Hin. apply arrIncludes_In in Hin. rewrite Hin in Hx. discriminate.
Qed.

Lemma NoDup_map_inj {A B} (f : A -> B) (l : list A) (x y : A) :
  NoDup (map f l) -> In x l -> In y l -> f x = f y -> x = y.
Proof.
  induction l as [|z l IH]; intros Hnd Hx Hy Hf; [destruct Hx|].
  cbn [map] in Hnd. inversion Hnd as [|? ? Hz Hnd']; subst.
  apply in_inv in Hx. apply in_inv in Hy.
  destruct Hx as [-> | Hx], Hy as [-> | Hy].
  - reflexivity.
  - exfalso. apply Hz. rewrite Hf. apply in_map. exact Hy.
  - exfalso. apply Hz. rewrite <- Hf. apply in_map. exact Hx.
  - exact (IH Hnd' Hx Hy Hf).
Qed.

Lemma find_title_Permutation (H : jsstring) (l l' : list section) :
  NoDup (map title l) -> Permutation l l' ->
  find (fun sec => streq (title sec) H) l = find (fun sec => streq (title sec) H) l'.
Proof.
  intros Hnd Hp.
  destruct (find (fun sec => streq (title sec) H) l) as [x|] eqn:E1;
    destruct (find (fun sec => streq (title sec) H) l') as [y|] eqn:E2.
  - apply find_some in E1 as [Hx Tx]. apply find_some in E2 as [Hy Ty].
    apply streq_true_iff in Tx, Ty.
    f_equal. apply (NoDup_map_inj title l x y Hnd Hx).
    + apply (Permutation_in _ (Permutation_sym Hp)). exact Hy.
    + congruence.
  - apply find_some in E1 as [Hx Tx].
    pose proof (find_none _ _ E2 x (Permutation_in _ Hp Hx)) as F.
    cbv beta in F. congruence.
  - apply find_some in E2 as [Hy Ty].
    pose proof (find_none _ _ E1 y (Permutation_in _ (Permutation_sym Hp) Hy)) as F.
    cbv beta in F. congruence.
  - reflexivity.
Qed.

Lemma existsb_Permutation {A} (f : A -> bool) (l l' : list A) :
  Permutation l l' -> existsb f l = existsb f l'.
Proof.
  intros Hp. apply eq_true_iff_eq. rewrite !existsb_exists.
  split; intros (x & Hx & Hf); exists x; (split; [|exact Hf]).
  - exact (Permutation_in _ Hp Hx).
  - exact (Permutation_in _ (Permutation_sym Hp) Hx).
Qed.

Lemma configOf_Permutation (secs secs' : list section) :
  NoDup (map title secs) -> Permutation secs secs' ->
  configOf secs' = configOf secs.
Proof.
  intros Hnd Hp. unfold configOf, fieldOf.
  rewrite <- !(find_title_Permutation _ secs secs' Hnd Hp).
  f_equal. f_equal. apply filter_ext. intros e.
  unfold checkedIn. symmetry. apply existsb_Permutation. exact Hp.
Qed.

Lemma wfSection_Permutation (secs secs' : list section) :
  Permutation secs secs' ->
  forallb wfSection secs = true -> forallb wfSection secs' = true.
Proof.
  intros Hp. rewrite !forallb_forall. intros Hwf sec Hin.
  apply Hwf. exact (Permutation_in _ (Permutation_sym Hp) Hin).
Qed.




(* ===================================================================== *)
(** * Further properties of the scripts *)
(* ===================================================================== *)

(* --------------------------------------------------------------------- *)
(** ** Removal of code fences *)

Lemma includes_cons (c : N) (s p : jsstring) :
  includes (c :: s) p = startsWith (c :: s) p || includes s p.
Proof.
  unfold includes. cbn [indexOf].
  destruct (startsWith (c :: s) p); [reflexivity|].
  destruct (indexOf s p); reflexivity.
Qed.

Lemma includes_nil (p : jsstring) : includes [] p = startsWith [] p.
Proof. unfold includes. cbn [indexOf]. destruct (startsWith [] p); reflexivity. Qed.

(** The counter of [removeFence] only drops code units. *)
Lemma removeFence_skip (fence : jsstring) : forall s k,
  removeFence fence k s = removeFence fence 0 (skipn k s).
Proof.
  induction s as [|c s IH]; intros k.
  - destruct k; reflexivity.
  - destruct k as [|k]; [reflexivity|].
    cbn [removeFence skipn]. apply IH.
Qed.

Lemma removeFence_cons (fence : jsstring) (c : N) (s : jsstring) :
  removeFence fence 0 (c :: s) =
    if startsWith (c :: s) fence then
      removeFence fence 0
        (skipn (length fence +
                (if startsWith (skipn (length fence) (c :: s)) nl then 1 else 0) - 1) s)
    else c :: removeFence fence 0 s.
Proof.
  cbn [removeFence].
  destruct (startsWith (c :: s) fence); [|reflexivity].
  apply removeFence_skip.
Qed.

Lemma removeFence_clean (fence : jsstring) : forall s,
  includes s fence = false -> removeFence fence 0 s = s.
Proof.
  induction s as [|c s IH]; intros Hs; [reflexivity|].
  rewrite includes_cons in Hs. apply orb_false_iff in Hs. destruct Hs as [H0 Hs].
  rewrite removeFence_cons, H0, (IH Hs). reflexivity.
Qed.

Lemma includes_prefix (s p q : jsstring) :
  includes s p = false -> includes s (p ++ q) = false.
Proof.
  intros Hp. destruct (includes s (p ++ q)) eqn:E; [|reflexivity].
  apply includes_occursIn in E. destruct E as (a & b & ->).
  assert (H : includes (a ++ (p ++ q) ++ b) p = true).
  { apply includes_occursIn. exists a, (q ++ b). rewrite <- app_assoc. reflexivity. }
  congruence.
Qed.

(** A text that does not start with two backticks keeps its head through
    the removal of triple backticks. *)
Lemma removeFence_head (s : jsstring) :
  startsWith s [backtick; backtick] = false ->
  startsWith (removeFence [backtick; backtick; backtick] 0 s) [backtick; backtick] = false.
Proof.
  intros Hs.
  destruct s as [|c s]; [reflexivity|].
  rewrite removeFence_cons.
  destruct (startsWith (c :: s) [backtick; backtick; backtick]) eqn:E3.
  { cbn [startsWith] in Hs, E3.
    destruct (backtick =? c)%N; [|discriminate].
    destruct s as [|d s]; [discriminate|].
    destruct (backtick =? d)%N; discriminate. }
  cbn [startsWith] in Hs |- *.
  destruct (backtick =? c)%N eqn:Ec; [|reflexivity].
  cbn [andb] in Hs |- *.
  destruct s as [|d s]; [reflexivity|].
  rewrite removeFence_cons.
  destruct (backtick =? d)%N eqn:Ed; [discriminate|].
  cbn [startsWith]. rewrite Ed. cbn [andb]. rewrite Ed. reflexivity.
Qed.

Lemma skipn_length_le {A} (n : nat) (l : list A) : (length (skipn n l) <= length l)%nat.
Proof. rewrite length_skipn. lia. Qed.

Lemma removeFence_no_fence_len (n : nat) : forall s,
  (length s <= n)%nat ->
  includes (removeFence [backtick; backtick; backtick] 0 s)
           [backtick; backtick; backtick] = false.
Proof.
  induction n as [|n IH]; intros s Hn.
  - destruct s; [reflexivity | cbn [length] in Hn; lia].
  - destruct s as [|c s]; [reflexivity|].
    cbn [length] in Hn.
    rewrite removeFence_cons.
    destruct (startsWith (c :: s) [backtick; backtick; backtick]) eqn:E3.
    + apply IH. pose proof (skipn_length_le
        (length [backtick; backtick; backtick] +
         (if startsWith (skipn (length [backtick; backtick; backtick]) (c :: s)) nl
          then 1 else 0) - 1) s). lia.
    + rewrite includes_cons, (IH s) by lia. rewrite orb_false_r.
      cbn [startsWith].
      destruct (backtick =? c)%N eqn:Ec; [|reflexivity]. cbn [andb].
      apply (removeFence_head s).
      cbn [startsWith] in E3. rewrite Ec in E3. cbn [andb] in E3.
      destruct s as [|d s]; [reflexivity|].
      destruct s as [|e s]; cbn [startsWith] in E3 |- *.
      * destruct (backtick =? d)%N; reflexivity.
      * destruct (backtick =? d)%N; [|reflexivity].
        cbn [andb] in E3 |- *. destruct (backtick =? e)%N; [discriminate | reflexivity].
Qed.

Lemma removeFence_no_fence (s : jsstring) :
  includes (removeFence (js "```") 0 s) (js "```") = false.
Proof. apply (removeFence_no_fence_len (length s)). apply Nat.le_refl. Qed.

(** X1.  Whatever text the assist returns, [cleanCode] leaves no triple
    backtick in it: the removal of the fences does not join shorter runs
    of backticks into a new fence. *)
Theorem cleanCode_no_fence (aiCode : jsstring) :
  includes (cleanCode aiCode) (js "```") = false.
Proof. unfold cleanCode. apply removeFence_no_fence. Qed.

(** X2.  A text without triple backtick goes through [cleanCode]
    unchanged. *)
Theorem cleanCode_unfenced (aiCode : jsstring) :
  includes aiCode (js "```") = false -> cleanCode aiCode = aiCode.
Proof.
  intros H. unfold cleanCode.
  rewrite (removeFence_clean (js "```typescript") aiCode).
  - apply removeFence_clean. exact H.
  - apply (includes_prefix aiCode (js "```") (js "typescript")). exact H.
Qed.

Lemma cleanCode_unfenced_witness :
  includes (js "export class A {}") (js "```") = false /\
  cleanCode (js "export class A {}") = js "export class A {}".
Proof.
  split; [reflexivity | apply cleanCode_unfenced; reflexivity].
Defined.

(* --------------------------------------------------------------------- *)
(** ** The assist in general *)

Section Assist.

Context {runtime : JSRuntime}.
Variables (env : Env) (openai : OpenAIService).

Lemma generateCodeWithAI_frame (prompt : jsstring) (model : option jsstring)
    (maxTokens : nat) (w : World) :
  exists c w',
    generateCodeWithAI env openai prompt model maxTokens w = (c, w') /\
    written w' = written w /\
    (calls w <= calls w' <= S (calls w))%nat /\
    ((exists r, c = Normal r) \/ catchFailure openai c).
Proof.
  unfold generateCodeWithAI.
  destruct (OPENAI_AVAILABLE env); cbn [negb].
  2: { do 2 eexists; split; [reflexivity|]. cbn.
       split; [reflexivity|]. split; [lia|]. left. eexists. reflexivity. }
  destruct (truthyOpt (OPENAI_API_KEY env)); cbn [negb].
  2: { do 2 eexists; split; [reflexivity|]. cbn.
       split; [reflexivity|]. split; [lia|]. left. eexists. reflexivity. }
  unfold tryCatch, bind, newOpenAI, chatCompletionsCreate.
  destruct (truthyOpt (OPENAI_ENDPOINT env)); cbn [consoleLog ret];
    match goal with
    | |- context [construct openai ?c] => destruct (construct openai c) eqn:Ec
    end;
    cbn [calls console written];
    try match goal with
    | |- context [create openai ?n ?c ?r] => destruct (create openai n c r) eqn:Er
    end;
    do 2 eexists; (split; [reflexivity|]); cbn [calls console written];
    (split; [reflexivity|]); (split; [lia|]);
    first [ left; eexists; reflexivity
          | right; eexists; split; [reflexivity|];
            first [ left; eexists; exact Ec
                  | right; do 3 eexists; exact Er ] ].
Qed.

Lemma generateEntityComponent_frame (entityName : jsstring)
    (description : option jsstring) (useAI : bool) (w : World) :
  exists c w',
    generateEntityComponent env openai entityName description useAI w = (c, w') /\
    written w' = written w /\ (calls w <= calls w' <= S (calls w))%nat /\
    ((exists code,
        c = Normal code /\
        (code = componentTemplate entityName (capitalize entityName)
                  (pluralize entityName) \/
         includes code (js "```") = false)) \/
     catchFailure openai c).
Proof.
  unfold generateEntityComponent.
  destruct (useAI && truthy (descriptionOrEmpty description)).
  - unfold bind.
    destruct (generateCodeWithAI_frame
                (componentPrompt entityName (capitalize entityName)
                   (descriptionOrEmpty description)) None 3000 w)
      as (c & w' & Hg & Hw & Hc & [[r ->] | (v & -> & Hv)]).
    + rewrite Hg.
      destruct (truthyOpt r); do 2 eexists; (split; [reflexivity|]);
        (split; [exact Hw|]); (split; [exact Hc|]); left; eexists;
        (split; [reflexivity|]).
      * right. unfold cleanCode. apply removeFence_no_fence.
      * left. reflexivity.
    + rewrite Hg. do 2 eexists. split; [reflexivity|].
      split; [exact Hw|]. split; [exact Hc|].
      right. exists v. split; [reflexivity | exact Hv].
  - do 2 eexists. split; [reflexivity|]. split; [reflexivity|]. split; [lia|].
    left. eexists. split; [reflexivity|]. left. reflexivity.
Qed.

Lemma generateEntityService_frame (entityName : jsstring)
    (description : option jsstring) (useAI : bool) (w : World) :
  exists c w',
    generateEntityService env openai entityName description useAI w = (c, w') /\
    written w' = written w /\ (calls w <= calls w' <= S (calls w))%nat /\
    ((exists code,
        c = Normal code /\
        (code = serviceTemplate entityName (capitalize entityName)
                  (pluralize entityName) \/
         includes code (js "```") = false)) \/
     catchFailure openai c).
Proof.
  unfold generateEntityService.
  destruct (useAI && truthy (descriptionOrEmpty description)).
  - unfold bind.
    destruct (generateCodeWithAI_frame
                (servicePrompt entityName (capitalize entityName)
                   (descriptionOrEmpty description)) None 2000 w)
      as (c & w' & Hg & Hw & Hc & [[r ->] | (v & -> & Hv)]).
    + rewrite Hg.
      destruct (truthyOpt r); do 2 eexists; (split; [reflexivity|]);
        (split; [exact Hw|]); (split; [exact Hc|]); left; eexists;
        (split; [reflexivity|]).
      * right. unfold cleanCode. apply removeFence_no_fence.
      * left. reflexivity.
    + rewrite Hg. do 2 eexists. split; [reflexivity|].
      split; [exact Hw|]. split; [exact Hc|].
      right. exists v. split; [reflexivity | exact Hv].
  - do 2 eexists. split; [reflexivity|]. split; [reflexivity|]. split; [lia|].
    left. eexists. split; [reflexivity|]. left. reflexivity.
Qed.

(** The files of a feature in general: all six, or none, or the first
    three when the TypeError of the catch block ends the run. *)
Lemma generateEntityFeature_files (projectPath entityName : jsstring)
    (description : option jsstring) (w : World) :
  exists componentCode serviceCode k c w',
    generateEntityFeature env openai projectPath entityName description w = (c, w') /\
    written w' =
      written w ++ firstn k (entityFiles projectPath entityName componentCode serviceCode) /\
    (calls w <= calls w' <= calls w + 2)%nat /\
    (componentCode = componentTemplate entityName (capitalize entityName)
                       (pluralize entityName) \/
     includes componentCode (js "```") = false) /\
    (serviceCode = serviceTemplate entityName (capitalize entityName)
                     (pluralize entityName) \/
     includes serviceCode (js "```") = false) /\
    ((k = 6%nat /\ c = Normal tt) \/
     ((k = 0%nat \/ k = 3%nat) /\ catchFailure openai c)).
Proof.
  unfold generateEntityFeature.
  destruct (generateEntityComponent_frame entityName description true w)
    as (c1 & w1 & H1 & Hw1 & Hc1 & [(comp & -> & Hf1) | (v & -> & Hv)]).
  2: { unfold bind at 1. rewrite H1.
       exists (componentTemplate entityName (capitalize entityName) (pluralize entityName)),
              (serviceTemplate entityName (capitalize entityName) (pluralize entityName)),
              0%nat.
       do 2 eexists. split; [reflexivity|]. cbn [firstn]. rewrite app_nil_r.
       split; [exact Hw1|]. split; [lia|].
       split; [left; reflexivity|]. split; [left; reflexivity|].
       right. split; [left; reflexivity|]. exists v. split; [reflexivity | exact Hv]. }
  unfold bind at 1. rewrite H1.
  do 3 write_step. unfold bind at 1.
  match goal with
  | |- context [generateEntityService env openai entityName description true ?w0] =>
      destruct (generateEntityService_frame entityName description true w0)
        as (c2 & w2 & H2 & Hw2 & Hc2 & [(svc & -> & Hf2) | (v & -> & Hv)])
  end.
  - rewrite H2.
    unfold bind, writeFileSync. cbn [calls console written] in *.
    exists comp, svc, 6%nat. do 2 eexists. split; [reflexivity|].
    cbn [written calls] in *. rewrite Hw2, Hw1.
    split; [|split; [lia | split; [exact Hf1 | split; [exact Hf2 | left; auto]]]].
    unfold entityFiles. cbn [firstn]. rewrite <- !app_assoc. reflexivity.
  - rewrite H2. cbn [calls console written] in *.
    exists comp,
           (serviceTemplate entityName (capitalize entityName) (pluralize entityName)),
           3%nat.
    do 2 eexists. split; [reflexivity|].
    rewrite Hw2, Hw1.
    split; [|split; [lia | split; [exact Hf1 | split; [left; reflexivity|]]]].
    + unfold entityFiles. cbn [firstn]. rewrite <- !app_assoc. reflexivity.
    + right. split; [right; reflexivity|]. exists v. split; [reflexivity | exact Hv].
Qed.

Lemma firstn_prefix {A} (n : nat) (l : list A) : exists rest, l = firstn n l ++ rest.
Proof. exists (skipn n l). symmetry. apply firstn_skipn. Qed.

Lemma entityFiles_paths (projectPath entityName componentCode serviceCode : jsstring) :
  map fst (entityFiles projectPath entityName componentCode serviceCode) =
    map fst (templateFiles projectPath entityName).
Proof. reflexivity. Qed.

(** The files of the loop over the entities: their paths are an initial
    part of the paths of the template run, all of them when the loop
    completes. *)
Lemma forEach_features_files (projectPath : jsstring)
    (description : option jsstring) (line : jsstring -> jsstring) :
  forall (names : list jsstring) (w : World),
  exists files rest c w',
    forEachM (fun entity =>
                consoleLog (line entity) ;;;
                generateEntityFeature env openai projectPath entity description)
             names w = (c, w') /\
    written w' = written w ++ files /\
    map fst (flat_map (templateFiles projectPath) names) = map fst files ++ rest /\
    (calls w <= calls w' <= calls w + 2 * length names)%nat /\
    ((c = Normal tt /\ rest = []) \/ catchFailure openai c).
Proof.
  induction names as [|e names IH]; intros w.
  - exists [], [], (Normal tt), w. cbn. rewrite app_nil_r.
    repeat split; try lia. left. auto.
  - cbn [forEachM flat_map].
    unfold bind at 1. unfold bind at 1, consoleLog at 1.
    match goal with
    | |- context [generateEntityFeature _ _ _ _ _ ?w0] =>
        destruct (generateEntityFeature_files projectPath e description w0)
          as (comp & svc & k & c1 & w1 & H1 & Hw1 & Hc1 & _ & _ & Hk)
    end.
    rewrite H1. cbn [written calls length] in *.
    destruct Hk as [[-> ->] | [_ (v & -> & Hv)]].
    + destruct (IH w1) as (files & rest & c & w2 & H2 & Hw2 & Hp & Hc2 & Hres).
      exists (entityFiles projectPath e comp svc ++ files), rest, c, w2.
      split; [exact H2|].
      split; [rewrite Hw2, Hw1; cbn [firstn]; rewrite <- app_assoc; reflexivity|].
      split; [|split; [lia | exact Hres]].
      rewrite !map_app, Hp, entityFiles_paths, <- app_assoc. reflexivity.
    + destruct (firstn_prefix k (entityFiles projectPath e comp svc)) as (more & Hmore).
      exists (firstn k (entityFiles projectPath e comp svc)),
             (map fst more ++ map fst (flat_map (templateFiles projectPath) names)).
      do 2 eexists. split; [reflexivity|].
      split; [exact Hw1|].
      split; [|split; [lia | right; exists v; split; [reflexivity | exact Hv]]].
      rewrite map_app, <- entityFiles_paths with (componentCode := comp) (serviceCode := svc).
      rewrite Hmore at 1. rewrite map_app, <- app_assoc. reflexivity.
Qed.

Lemma createConfigFiles_files (projectPath : jsstring) (config : Config) (w : World) :
  exists files rest c w',
    createConfigFiles env openai projectPath config w = (c, w') /\
    written w' =
      written w ++
      [ ([projectPath; js ".gitignore"], gitignore);
        ([projectPath; js ".editorconfig"], editorconfig);
        ([projectPath; js ".npmrc"], npmrc) ] ++ files /\
    map fst (flat_map (templateFiles projectPath)
               (match entities config with Some l => l | None => [] end)) =
      map fst files ++ rest /\
    (calls w <= calls w' <=
     calls w + 2 * length (match entities config with Some l => l | None => [] end))%nat /\
    ((c = Normal tt /\ rest = []) \/ catchFailure openai c).
Proof.
  unfold createConfigFiles.
  do 3 write_step.
  set (names := match entities config with Some l => l | None => [] end).
  destruct (0 <? length names)%nat eqn:E.
  - unfold bind at 1, consoleLog at 1.
    match goal with
    | |- context [forEachM ?f names ?w0] =>
        destruct (forEach_features_files projectPath (description config)
                    (fun entity => js "   " ++ checkMark ++ js " Generating " ++
                                   entity ++ js " feature...") names w0)
          as (files & rest & c & w1 & H1 & Hw1 & Hp & Hc & Hres)
    end.
    exists files, rest, c, w1. split; [exact H1|].
    cbn [written calls] in *. rewrite Hw1, <- !app_assoc.
    split; [reflexivity|]. split; [exact Hp|]. split; [exact Hc | exact Hres].
  - apply Nat.ltb_ge in E. destruct names; [|cbn [length] in E; lia].
    exists [], []. do 2 eexists. split; [reflexivity|].
    cbn. rewrite <- !app_assoc. cbn. repeat split; try lia. left. auto.
Qed.

Lemma generateCodeWithAI_unconfigured (prompt : jsstring) (model : option jsstring)
    (maxTokens : nat) (w : World) :
  unconfigured env ->
  exists line,
    generateCodeWithAI env openai prompt model maxTokens w =
      (Normal None, {| calls := calls w; console := console w ++ [line];
                       written := written w |}).
Proof.
  intros Hu. unfold generateCodeWithAI.
  destruct (OPENAI_AVAILABLE env) eqn:Eav; cbn [negb].
  2: { eexists. reflexivity. }
  destruct (truthyOpt (OPENAI_API_KEY env)) eqn:Ekey; cbn [negb].
  2: { eexists. reflexivity. }
  destruct Hu; congruence.
Qed.

Lemma generateCodeWithAI_answer (text prompt : jsstring) (model : option jsstring)
    (maxTokens : nat) (w : World) :
  configured env -> answers openai text ->
  exists w', generateCodeWithAI env openai prompt model maxTokens w =
               (Normal (Some (trim text)), w') /\ calls w' = S (calls w).
Proof.
  intros [Hav Hkey] [Hc Ha]. unfold generateCodeWithAI.
  rewrite Hav, Hkey. cbn [negb].
  unfold tryCatch, bind, newOpenAI, chatCompletionsCreate.
  destruct (truthyOpt (OPENAI_ENDPOINT env)); cbn [consoleLog ret];
    rewrite Hc; cbn [calls console written]; rewrite Ha;
    eexists; split; reflexivity.
Qed.

End Assist.

(** X3.  Whatever the environment and the service do, [generateCodeWithAI]
    writes no file and sends at most one request, and it either returns
    normally or throws the TypeError that reading [error.message] raises
    in its catch block, which it only does when the client constructor or
    the call failed with [null] or [undefined]. *)
Theorem generateCodeWithAI_contained (env : Env) (openai : OpenAIService)
    (prompt : jsstring) (model : option jsstring) (maxTokens : nat) (w : World) :
  written (snd (generateCodeWithAI env openai prompt model maxTokens w)) = written w /\
  (calls w <= calls (snd (generateCodeWithAI env openai prompt model maxTokens w))
   <= S (calls w))%nat /\
  ((exists r, fst (generateCodeWithAI env openai prompt model maxTokens w) = Normal r) \/
   (exists v,
      fst (generateCodeWithAI env openai prompt model maxTokens w) =
        Throw (noProperties v) /\
      nullishFailure openai v)).
Proof.
  destruct (generateCodeWithAI_frame env openai prompt model maxTokens w)
    as (c & w' & Hg & Hw & Hc & Hres).
  rewrite Hg. cbn [fst snd]. auto.
Qed.

(** The second case of X3 occurs: a call rejected with [null] makes
    [generateCodeWithAI] throw. *)
Example null_rejection_propagates :
  fst (generateCodeWithAI keyEnv nullService (js "p") None 2000 emptyWorld) =
    Throw (noProperties Null).
Proof. reflexivity. Qed.

(** X4.  Without the library or without a key, [generateCodeWithAI] sends
    no request: it returns [null] and only logs one warning line. *)
Theorem no_key_no_request (env : Env) (openai : OpenAIService)
    (prompt : jsstring) (model : option jsstring) (maxTokens : nat) (w : World) :
  unconfigured env ->
  fst (generateCodeWithAI env openai prompt model maxTokens w) = Normal None /\
  calls (snd (generateCodeWithAI env openai prompt model maxTokens w)) = calls w /\
  length (console (snd (generateCodeWithAI env openai prompt model maxTokens w))) =
    S (length (console w)).
Proof.
  intros Hu.
  destruct (generateCodeWithAI_unconfigured env openai prompt model maxTokens w Hu)
    as (line & Hg).
  rewrite Hg. cbn [fst snd calls console].
  rewrite length_app. cbn [length]. repeat split. lia.
Qed.

Lemma no_key_no_request_witness :
  unconfigured noKeyEnv /\
  calls (snd (generateCodeWithAI noKeyEnv fixedService (js "p") None 2000 emptyWorld)) = 0%nat.
Proof.
  split; [right; reflexivity|].
  apply (no_key_no_request noKeyEnv fixedService (js "p") None 2000 emptyWorld).
  right. reflexivity.
Defined.

(** X5.  With the assist configured and a service that answers every
    request with [text], the component and the service of an entity are
    the answer, trimmed and without its fences, whenever the description
    and the trimmed answer are not empty; otherwise they are the
    templates. *)
Theorem assist_answer_used `{JSRuntime} (env : Env) (openai : OpenAIService)
    (text entityName : jsstring) (description : option jsstring) (w : World) :
  configured env -> answers openai text ->
  fst (generateEntityComponent env openai entityName description true w) =
    Normal (if truthy (descriptionOrEmpty description) && truthy (trim text)
            then cleanCode (trim text)
            else componentTemplate entityName (capitalize entityName)
                   (pluralize entityName)) /\
  fst (generateEntityService env openai entityName description true w) =
    Normal (if truthy (descriptionOrEmpty description) && truthy (trim text)
            then cleanCode (trim text)
            else serviceTemplate entityName (capitalize entityName)
                   (pluralize entityName)).
Proof.
  intros Hcfg Hans.
  unfold generateEntityComponent, generateEntityService.
  cbn [andb].
  destruct (truthy (descriptionOrEmpty description)); cbn [andb]; [|split; reflexivity].
  unfold bind.
  destruct (generateCodeWithAI_answer env openai text
              (componentPrompt entityName (capitalize entityName)
                 (descriptionOrEmpty description)) None 3000 w Hcfg Hans)
    as (w1 & H1 & _).
  destruct (generateCodeWithAI_answer env openai text
              (servicePrompt entityName (capitalize entityName)
                 (descriptionOrEmpty description)) None 2000 w Hcfg Hans)
    as (w2 & H2 & _).
  rewrite H1, H2. cbn [truthyOpt].
  destruct (trim text) as [|c t] eqn:Et; cbn [truthy orElse]; split; reflexivity.
Qed.

Lemma assist_answer_used_witness :
  configured keyEnv /\ answers fixedService fencedAnswer /\
  fst (generateEntityComponent keyEnv fixedService (js "user") (Some (js "a user portal"))
         true emptyWorld) =
    Normal (js "export class A {}" ++ nl).
Proof.
  split; [split; reflexivity|].
  split; [split; intros; reflexivity|].
  apply (assist_answer_used keyEnv fixedService fencedAnswer (js "user")
           (Some (js "a user portal")) emptyWorld).
  - split; reflexivity.
  - split; intros; reflexivity.
Defined.

(** X6.  Whatever the assist does, the files [generateEntityFeature]
    writes are an initial part of the six files of the entity, in the
    order and at the paths of the template run: all six when it returns
    normally; none, or the first three, when it is ended by the TypeError
    that leaves the catch block of [generateCodeWithAI], which needs a use
    of the service that failed with [null] or [undefined]; there is no
    other outcome.  The markup, the style sheet, the interface and the
    module are the templates, and the component and the service are
    either the templates or a text without code fence.  Writes are
    recorded as [writeFileSync] has them, errors of the file system
    apart. *)
Theorem feature_files_fixed `{JSRuntime} (env : Env) (openai : OpenAIService)
    (projectPath entityName : jsstring) (description : option jsstring) (w : World) :
  exists componentCode serviceCode k,
    written (snd (generateEntityFeature env openai projectPath entityName description w)) =
      written w ++
      firstn k (entityFiles projectPath entityName componentCode serviceCode) /\
    map fst (entityFiles projectPath entityName componentCode serviceCode) =
      map fst (templateFiles projectPath entityName) /\
    (componentCode = componentTemplate entityName (capitalize entityName)
                       (pluralize entityName) \/
     includes componentCode (js "```") = false) /\
    (serviceCode = serviceTemplate entityName (capitalize entityName)
                     (pluralize entityName) \/
     includes serviceCode (js "```") = false) /\
    ((k = 6%nat /\
      fst (generateEntityFeature env openai projectPath entityName description w) =
        Normal tt) \/
     ((k = 0%nat \/ k = 3%nat) /\
      catchFailure openai
        (fst (generateEntityFeature env openai projectPath entityName description w)))).
Proof.
  destruct (generateEntityFeature_files env openai projectPath entityName description w)
    as (comp & svc & k & c & w' & Hg & Hw & _ & Hc & Hs & Hk).
  exists comp, svc, k. rewrite Hg. cbn [fst snd].
  split; [exact Hw|]. split; [reflexivity|]. split; [exact Hc|]. split; [exact Hs|].
  exact Hk.
Qed.

(** X7.  The paths [createConfigFiles] writes, in their order, are an
    initial part of one list that does not depend on the environment or
    on the service: the three configuration files, then the six files of
    each entity.  The three configuration files are always written; the
    list is written to its end when [createConfigFiles] returns normally,
    and the only other outcome is the TypeError that leaves the catch
    block of [generateCodeWithAI] after a use of the service failed with
    [null] or [undefined].  Writes are recorded as [writeFileSync] has
    them, errors of the file system apart. *)
Theorem config_paths_fixed `{JSRuntime} (env : Env) (openai : OpenAIService)
    (projectPath : jsstring) (config : Config) (w : World) :
  exists paths rest,
    map fst (written (snd (createConfigFiles env openai projectPath config w))) =
      map fst (written w) ++
      [ [projectPath; js ".gitignore"]; [projectPath; js ".editorconfig"];
        [projectPath; js ".npmrc"] ] ++ paths /\
    map fst (flat_map (templateFiles projectPath)
               (match entities config with Some l => l | None => [] end)) =
      paths ++ rest /\
    ((fst (createConfigFiles env openai projectPath config w) = Normal tt /\ rest = []) \/
     catchFailure openai (fst (createConfigFiles env openai projectPath config w))).
Proof.
  destruct (createConfigFiles_files env openai projectPath config w)
    as (files & rest & c & w' & Hg & Hw & Hp & _ & Hres).
  exists (map fst files), rest. rewrite Hg. cbn [fst snd].
  split; [|split; [exact Hp | exact Hres]].
  rewrite Hw, !map_app. reflexivity.
Qed.

Lemma flat_map_templateFiles_length `{JSRuntime} (projectPath : jsstring)
    (names : list jsstring) :
  length (flat_map (templateFiles projectPath) names) = (6 * length names)%nat.
Proof.
  induction names as [|e names IH]; [reflexivity|].
  cbn [flat_map]. rewrite length_app, IH. cbn [length templateFiles]. lia.
Qed.

(** X8.  After the entities have been assigned from the description,
    which never fails, [createConfigFiles] writes at least the three
    configuration files and at most 21 files, and sends at most six
    requests to the service; when it returns normally it has written at
    least 9 files (three configuration files and six per entity), and the
    only other outcome is the TypeError that leaves the catch block of
    [generateCodeWithAI] after a use of the service failed with [null] or
    [undefined].  Writes are recorded as [writeFileSync] has them, errors
    of the file system apart. *)
Theorem config_files_count `{JSRuntime} (env : Env) (openai : OpenAIService)
    (projectPath : jsstring) (config : Config) (w : World) :
  exists config',
    assignEntities config = Normal config' /\
    (length (written w) + 3 <=
     length (written (snd (createConfigFiles env openai projectPath config' w))) <=
     length (written w) + 21)%nat /\
    (calls (snd (createConfigFiles env openai projectPath config' w)) <=
     calls w + 6)%nat /\
    ((fst (createConfigFiles env openai projectPath config' w) = Normal tt /\
      (length (written w) + 9 <=
       length (written (snd (createConfigFiles env openai projectPath config' w))))%nat) \/
     catchFailure openai (fst (createConfigFiles env openai projectPath config' w))).
Proof.
  unfold assignEntities.
  destruct (extract_some (orElse (description config) [])) as (l & Hl & Hne).
  rewrite Hl. cbn [bindC]. eexists. split; [reflexivity|].
  assert (Hlen : (1 <= length l <= 3)%nat).
  { rewrite extract_recorded in Hl. apply Normal_inj in Hl. subst l.
    apply firstn_3_bounds. destruct (recorded (orElse (description config) [])); discriminate. }
  match goal with
  | |- context [createConfigFiles env openai projectPath ?c w] =>
      destruct (createConfigFiles_files env openai projectPath c w)
        as (files & rest & c0 & w' & Hg & Hw & Hp & Hc & Hres)
  end.
  rewrite Hg. cbn [fst snd entities] in *.
  apply (f_equal (@length _)) in Hp. rewrite length_app, !length_map in Hp.
  rewrite flat_map_templateFiles_length in Hp.
  rewrite Hw, !length_app. cbn [length].
  split; [lia|]. split; [lia|].
  destruct Hres as [[-> ->] | Hfail]; [left | right; exact Hfail].
  split; [reflexivity|]. cbn [length] in Hp. lia.
Qed.

(* --------------------------------------------------------------------- *)
(** ** Summary of a description *)

Lemma takeUntilEq_length (c : N) (s : jsstring) :
  (length (takeUntilEq c s) <= length s)%nat.
Proof.
  induction s as [|x s IH]; [apply Nat.le_refl|].
  cbn [takeUntilEq]. destruct (x =? c)%N; cbn [length]; lia.
Qed.

Lemma takeUntilEq_without (c : N) (s : jsstring) :
  without c (takeUntilEq c s) = true.
Proof.
  induction s as [|x s IH]; [reflexivity|].
  cbn [takeUntilEq]. destruct (x =? c)%N eqn:Ex; [reflexivity|].
  cbn [without forallb]. rewrite Ex. exact IH.
Qed.

Lemma takeUntilEq_prefix (c : N) (s : jsstring) :
  exists rest, s = takeUntilEq c s ++ rest /\
               (rest = [] \/ exists rest', rest = c :: rest').
Proof.
  induction s as [|x s (rest & IH & Hrest)]; [exists []; auto|].
  cbn [takeUntilEq]. destruct (x =? c)%N eqn:Ex.
  - apply N.eqb_eq in Ex. subst x. exists (c :: s). split; [reflexivity|].
    right. eexists. reflexivity.
  - exists rest. cbn [app]. rewrite <- IH. auto.
Qed.

Lemma without_firstn (c : N) (n : nat) (s : jsstring) :
  without c s = true -> without c (firstn n s) = true.
Proof.
  unfold without. rewrite !forallb_forall. intros Hs x Hx.
  apply Hs. exact (firstn_In _ _ _ Hx).
Qed.

(** A first sentence longer than [n] shows in the first [n + 1] code
    units, which hold no full stop. *)
Lemma takeUntilEq_longer (c : N) (n : nat) (s : jsstring) :
  (n < length (takeUntilEq c s))%nat ->
  (n < length s)%nat /\ without c (firstn (S n) s) = true.
Proof.
  intros Hn. pose proof (takeUntilEq_length c s) as Hl. split; [lia|].
  destruct (takeUntilEq_prefix c s) as (rest & Hs & _).
  rewrite Hs at 1. rewrite firstn_app.
  replace (S n - length (takeUntilEq c s))%nat with 0%nat by lia.
  rewrite firstn_O, app_nil_r.
  apply without_firstn, takeUntilEq_without.
Qed.

Lemma lastIndexOfChar_none (c : N) : forall s,
  lastIndexOfChar c s = None -> without c s = true.
Proof.
  induction s as [|x s IH]; intros Hs; [reflexivity|].
  cbn [lastIndexOfChar] in Hs.
  destruct (lastIndexOfChar c s) as [j|]; [discriminate|].
  destruct (x =? c)%N eqn:Ex; [discriminate|].
  cbn [without forallb]. rewrite Ex. exact (IH eq_refl).
Qed.

Lemma lastIndexOfChar_spec (c : N) : forall s i,
  lastIndexOfChar c s = Some i ->
  exists tail, s = firstn i s ++ c :: tail /\ without c tail = true.
Proof.
  induction s as [|x s IH]; intros i Hi; [discriminate|].
  cbn [lastIndexOfChar] in Hi.
  destruct (lastIndexOfChar c s) as [j|] eqn:E.
  - injection Hi as <-. destruct (IH j eq_refl) as (tail & Hr & Ht).
    exists tail. cbn [firstn app]. rewrite <- Hr. auto.
  - destruct (x =? c)%N eqn:Ex; [|discriminate].
    injection Hi as <-. apply N.eqb_eq in Ex. subst x.
    exists s. split; [reflexivity|]. exact (lastIndexOfChar_none c s E).
Qed.

(** X9.  The summary of a description is never longer than [maxLength]
    plus the three full stops of a truncation. *)
Theorem summary_length (description : option jsstring) (maxLength : nat) :
  (length (getDescriptionSummary description maxLength) <= maxLength + 3)%nat.
Proof.
  unfold getDescriptionSummary.
  destruct (truthyOpt description); cbn [negb]; [|cbn [length]; lia].
  destruct (length (takeUntilEq (ch ".") (descriptionOrEmpty description)) <=? maxLength)%nat
    eqn:E1.
  - apply Nat.leb_le in E1. rewrite length_app.
    change (length (js ".")) with 1%nat. lia.
  - destruct (length (descriptionOrEmpty description) <=? maxLength)%nat eqn:E2.
    + apply Nat.leb_le in E2. lia.
    + rewrite length_app, !length_firstn.
      change (length (js "...")) with 3%nat. lia.
Qed.



(** On "aa bb cc dd" cut at 8 the summary keeps the two first words. *)
Example summary_last_space :
  getDescriptionSummary (Some (js "aa bb cc dd")) 8 = js "aa bb...".
Proof. reflexivity. Qed.

(* --------------------------------------------------------------------- *)
(** ** Plural forms *)

(** X11.  Every plural ends in "s", and is at most two code units longer
    and never shorter than the word. *)
Theorem pluralize_ends_s (entity : jsstring) :
  endsWith (pluralize entity) (js "s") = true /\
  (length entity <= length (pluralize entity) <= length entity + 2)%nat.
Proof.
  destruct (snoc_cases entity) as [-> | (s & c & ->)].
  - split; [reflexivity | cbn; lia].
  - rewrite pluralize_snoc.
    destruct (c =? ch "y")%N eqn:Ey.
    + split.
      * change (js "ies") with (js "ie" ++ [ch "s"]). rewrite app_assoc.
        apply endsWith_snoc.
      * rewrite !length_app. cbn. lia.
    + destruct (c =? ch "s")%N eqn:Es.
      * split; [|lia]. change (js "s") with [ch "s"]. rewrite endsWith_snoc. exact Es.
      * split.
        -- change (js "s") with [ch "s"]. apply endsWith_snoc.
        -- rewrite !length_app. cbn. lia.
Qed.

(* --------------------------------------------------------------------- *)
(** ** Order and origin of the detected entities *)

Lemma subsequence_nil {A} (l : list A) : subsequence [] l.
Proof. induction l; [apply sub_nil | apply sub_skip; assumption]. Qed.

Lemma subsequence_filter {A} (f : A -> bool) (l : list A) :
  subsequence (filter f l) l.
Proof.
  induction l as [|x l IH]; cbn [filter]; [apply sub_nil|].
  destruct (f x); [apply sub_take | apply sub_skip]; exact IH.
Qed.

Lemma subsequence_map {A B} (f : A -> B) (s l : list A) :
  subsequence s l -> subsequence (map f s) (map f l).
Proof.
  induction 1; cbn [map];
    [apply sub_nil | apply sub_skip | apply sub_take]; assumption.
Qed.

Lemma subsequence_firstn {A} (s l : list A) :
  subsequence s l -> forall n, subsequence (firstn n s) l.
Proof.
  induction 1 as [|x s l _ IH|x s l _ IH]; intros n.
  - rewrite firstn_nil. apply sub_nil.
  - apply sub_skip. apply IH.
  - destruct n as [|n]; cbn [firstn].
    + apply subsequence_nil.
    + apply sub_take. apply IH.
Qed.

Lemma subsequence_In {A} (s l : list A) :
  subsequence s l -> forall x, In x s -> In x l.
Proof.
  induction 1 as [|x s l _ IH|x s l _ IH]; intros y Hy.
  - exact Hy.
  - right. apply IH. exact Hy.
  - destruct Hy as [-> | Hy]; [left; reflexivity | right; apply IH; exact Hy].
Qed.

Lemma subsequence_NoDup {A} (s l : list A) :
  subsequence s l -> NoDup l -> NoDup s.
Proof.
  induction 1 as [|x s l _ IH|x s l Hs IH]; intros Hl.
  - constructor.
  - apply IH. inversion Hl; assumption.
  - inversion Hl as [|? ? Hx Hl']; subst. constructor.
    + intros Hin. apply Hx. exact (subsequence_In _ _ Hs _ Hin).
    + apply IH. exact Hl'.
Qed.

Lemma extract_subsequence `{JSRuntime} (d : jsstring) :
  exists l, extractEntitiesFromDescription (VStr d) = Normal l /\
            ((l = [js "item"] /\ recorded d = []) \/
             (l = firstn 3 (recorded d) /\ recorded d <> [])).
Proof.
  rewrite extract_recorded. eexists. split; [reflexivity|].
  destruct (recorded d) as [|e r].
  - left. split; reflexivity.
  - right. split; [reflexivity | discriminate].
Qed.

(** X12.  The result of the extractor holds no entity twice, and unless it
    is the default ["item"], it lists names of the lexicon in the order
    of the lexicon. *)
Theorem extract_lexicon_order `{JSRuntime} (d : jsstring) :
  exists l, extractEntitiesFromDescription (VStr d) = Normal l /\
            NoDup l /\
            (l = [js "item"] \/ subsequence l (map fst entityKeywords)).
Proof.
  destruct (extract_subsequence d) as (l & Hl & [[-> _] | [-> _]]);
    eexists; (split; [exact Hl|]).
  - split; [|left; reflexivity].
    constructor; [intros [] | constructor].
  - assert (Hs : subsequence (firstn 3 (recorded d)) (map fst entityKeywords)).
    { apply subsequence_firstn. rewrite recorded_spec.
      apply subsequence_map, subsequence_filter. }
    split; [|right; exact Hs].
    exact (subsequence_NoDup _ _ Hs lexicon_names_NoDup).
Qed.

(** X13.  Every entity in a result other than the default has an entry in
    the lexicon one of whose keywords stands as a word, possibly in its
    plural, in the lower-cased description: nothing is returned that the
    text does not name. *)
Theorem extract_sound `{JSRuntime} (d : jsstring) :
  exists l, extractEntitiesFromDescription (VStr d) = Normal l /\
            (l = [js "item"] \/
             forall e, In e l ->
               exists keywords keyword,
                 In (e, keywords) entityKeywords /\ In keyword keywords /\
                 keywordMatches keyword (toLowerCase d)).
Proof.
  destruct (extract_subsequence d) as (l & Hl & [[-> _] | [-> _]]);
    eexists; (split; [exact Hl|]); [left; reflexivity|].
  right. intros e He. apply firstn_In in He.
  rewrite recorded_spec in He. apply in_map_iff in He.
  destruct He as ([e' keywords] & <- & Hin).
  apply filter_In in Hin. destruct Hin as [Hin Hhit].
  apply (entryHit_spec _ _ Hin) in Hhit. destruct Hhit as (keyword & Hk & Hm).
  exists keywords, keyword. cbn [fst snd] in *. auto.
Qed.

(** X14.  Only the cap drops an entity: when fewer than three entities
    are returned, the name of every entry of the lexicon with a matching
    keyword is among them. *)
Theorem extract_complete `{JSRuntime} (d : jsstring) (l : list jsstring)
    (entry : jsstring * list jsstring) (keyword : jsstring) :
  extractEntitiesFromDescription (VStr d) = Normal l ->
  (length l < 3)%nat ->
  In entry entityKeywords -> In keyword (snd entry) ->
  keywordMatches keyword (toLowerCase d) ->
  In (fst entry) l.
Proof.
  intros Hl Hlen He Hk Hm.
  assert (Hr : In (fst entry) (recorded d)).
  { rewrite recorded_spec. apply in_map. apply filter_In. split; [exact He|].
    exact (keyword_hits _ _ _ He Hk Hm). }
  rewrite extract_recorded in Hl. apply Normal_inj in Hl. subst l.
  destruct (recorded d) as [|e r] eqn:Er; [destruct Hr|].
  rewrite <- Er in *. clear Er.
  rewrite firstn_all2; [exact Hr|].
  rewrite length_firstn in Hlen. lia.
Qed.

Lemma extract_complete_witness :
  @extractEntitiesFromDescription asciiRuntime (VStr (js "Users write posts")) =
    Normal [js "user"; js "post"] /\
  In (js "post") [js "user"; js "post"].
Proof.
  split; [vm_compute; reflexivity|].
  apply (@extract_complete asciiRuntime (js "Users write posts") [js "user"; js "post"]
           (js "post", map js ["post"; "article"; "blog"]) (js "post")).
  - vm_compute. reflexivity.
  - cbn [length]. lia.
  - do 3 right. left. reflexivity.
  - simpl. auto.
  - apply keywordPattern_spec; vm_compute; reflexivity.
Defined.

(* --------------------------------------------------------------------- *)
(** ** Values of the fields *)

Lemma trimStart_suffix (s : jsstring) : exists W, s = W ++ trimStart s.
Proof. destruct (trimStart_split s) as (W & HW & _). exists W. exact HW. Qed.

Lemma trimStart_In (s : jsstring) (x : N) : In x (trimStart s) -> In x s.
Proof.
  destruct (trimStart_suffix s) as (W & HW). intros Hin.
  rewrite HW. apply in_or_app. right. exact Hin.
Qed.

Lemma trim_In (s : jsstring) (x : N) : In x (trim s) -> In x s.
Proof.
  unfold trim. intros Hin. apply in_rev in Hin.
  apply trimStart_In in Hin. apply in_rev in Hin.
  apply trimStart_In. exact Hin.
Qed.

Lemma trimStart_headOpt (s : jsstring) :
  notWhiteSpaceOpt (hd_error (trimStart s)) = true.
Proof.
  destruct (trimStart s) as [|c w] eqn:E; [reflexivity|].
  cbn [hd_error notWhiteSpaceOpt]. rewrite (trimStart_head _ _ _ E). reflexivity.
Qed.

Lemma hd_error_app {A} (a b : list A) :
  a <> [] -> hd_error (a ++ b) = hd_error a.
Proof. destruct a; [congruence | reflexivity]. Qed.

Lemma trim_trimmed (s : jsstring) : trimmed (trim s) = true.
Proof.
  unfold trimmed, trim, lastOf. rewrite rev_involutive, trimStart_headOpt, andb_true_r.
  destruct (trimStart (rev (trimStart s))) as [|c w] eqn:E; [reflexivity|].
  destruct (trimStart_suffix (rev (trimStart s))) as (W & HW).
  rewrite E in HW.
  assert (Hs : trimStart s = rev (c :: w) ++ rev W).
  { rewrite <- rev_app_distr, <- HW, rev_involutive. reflexivity. }
  rewrite <- (hd_error_app (rev (c :: w)) (rev W)).
  - rewrite <- Hs. apply trimStart_headOpt.
  - cbn [rev]. intros Hn. apply app_eq_nil in Hn. destruct Hn; discriminate.
Qed.

Lemma trim_singleLine (s : jsstring) : singleLine s = true -> singleLine (trim s) = true.
Proof.
  unfold singleLine. rewrite !forallb_forall. intros Hs x Hx.
  apply Hs. apply trim_In. exact Hx.
Qed.

Lemma firstn_app_exact {A} (a b : list A) :
  firstn (length (a ++ b) - length b) (a ++ b) = a.
Proof.
  rewrite length_app. replace (length a + length b - length b)%nat with (length a) by lia.
  rewrite firstn_app, Nat.sub_diag, firstn_all. cbn [firstn]. apply app_nil_r.
Qed.

(** What group 1 of a field's pattern holds: a run of code units other
    than line terminators. *)
Lemma group_line (st res : mstate) :
  m (Group (Plus CDot)) st Some = Some res ->
  exists text, cap res = Some text /\ singleLine text = true.
Proof.
  intros Hm.
  change (m (Plus CDot) st
            (fun st' => Some (MState (prev st') (rest st')
               (Some (firstn (length (rest st) - length (rest st')) (rest st)))))
          = Some res) in Hm.
  apply m_sound in Hm. destruct Hm as (p' & s' & c' & Hden & Hk).
  cbn [den] in Hden. destruct Hden as (x & xs & Hs & Hall & _).
  injection Hk as <-. cbn [cap prev rest].
  eexists. split; [reflexivity|].
  rewrite Hs, firstn_app_exact. exact Hall.
Qed.

Lemma m_cat_continues (r1 r2 : regex) (st : mstate) (k : mstate -> option mstate)
    (res : mstate) :
  m (Cat r1 r2) st k = Some res -> exists st', m r2 st' k = Some res.
Proof.
  intros Hm. change (m r1 st (fun st' => m r2 st' k) = Some res) in Hm.
  exact (m_continues r1 st _ res Hm).
Qed.

Lemma matchField_tidy (heading : string) (body v : jsstring) :
  matchField heading body = Normal (Some v) -> tidy v = true.
Proof.
  unfold matchField. intros Hm.
  destruct (exec (headingPattern heading) body) as [res|] eqn:Ex; [|discriminate].
  unfold exec in Ex. apply execFrom_sound in Ex.
  destruct Ex as (pre & t & _ & Hrun).
  unfold headingPattern, valuePattern in Hrun.
  apply m_cat_continues in Hrun. destruct Hrun as (st1 & Hrun).
  apply m_cat_continues in Hrun. destruct Hrun as (st2 & Hrun).
  apply m_cat_continues in Hrun. destruct Hrun as (st3 & Hrun).
  apply m_cat_continues in Hrun. destruct Hrun as (st4 & Hrun).
  apply (group_line st4 res) in Hrun. destruct Hrun as (text & Hcap & Hline).
  rewrite Hcap in Hm. injection Hm as <-.
  unfold tidy. rewrite (trim_singleLine _ Hline), trim_trimmed. reflexivity.
Qed.

(** X15.  Every field the parser returns is one line without blank at
    either end: the version, the styling and the architecture always,
    the description when there is one. *)
Theorem fields_tidy (body : jsstring) :
  exists config,
    parseIssueBody (VStr body) = Normal config /\
    tidy (version config) = true /\ tidy (styling config) = true /\
    tidy (architecture config) = true /\
    match description config with
    | Some text => tidy text = true
    | None => True
    end.
Proof.
  destruct (parseIssueBody_fields body) as (v & s & a & d & Hv & Hs & Ha & Hd & Hp).
  eexists. split; [exact Hp|].
  cbn [version styling architecture description].
  split; [|split; [|split]].
  - destruct v; [exact (matchField_tidy _ _ _ Hv) | reflexivity].
  - destruct s; [exact (matchField_tidy _ _ _ Hs) | reflexivity].
  - destruct a; [exact (matchField_tidy _ _ _ Ha) | reflexivity].
  - destruct d; [exact (matchField_tidy _ _ _ Hd) | exact I].
Qed.

(* --------------------------------------------------------------------- *)
(** ** Features of a larger text *)

Lemma includes_app (pre s post x : jsstring) :
  includes s x = true -> includes (pre ++ s ++ post) x = true.
Proof.
  rewrite !includes_occursIn. intros (a & b & ->).
  exists (pre ++ a), (b ++ post). rewrite <- !app_assoc. reflexivity.
Qed.

Lemma checked_app (pre s post : jsstring) (label : string) :
  checked s label = true -> checked (pre ++ s ++ post) label = true.
Proof.
  unfold checked. intros Hc. apply orb_true_iff in Hc. apply orb_true_iff.
  destruct Hc as [Hc | Hc]; [left | right]; apply includes_app; exact Hc.
Qed.

(** X16.  Text added before or after a request never removes a feature:
    every feature read from a text is read from any text that holds
    it. *)
Theorem features_monotone (pre body post : jsstring) :
  exists config config',
    parseIssueBody (VStr body) = Normal config /\
    parseIssueBody (VStr (pre ++ body ++ post)) = Normal config' /\
    incl (features config) (features config').
Proof.
  destruct (parseIssueBody_fields body) as (v & s & a & d & _ & _ & _ & _ & Hp).
  destruct (parseIssueBody_fields (pre ++ body ++ post))
    as (v' & s' & a' & d' & _ & _ & _ & _ & Hp').
  eexists _, _. split; [exact Hp|]. split; [exact Hp'|].
  cbn [features]. intros tag Hin.
  apply in_map_iff in Hin. destruct Hin as (e & <- & He).
  apply filter_In in He. destruct He as [He Hc].
  apply (in_map (fun e => js (snd e))). apply filter_In. split; [exact He|].
  apply checked_app. exact Hc.
Qed.

(* --------------------------------------------------------------------- *)
(** ** Runs without description *)

Section Quiet.

Context {runtime : JSRuntime}.
Variables (env : Env) (openai : OpenAIService).

Lemma truthy_descriptionOrEmpty (description : option jsstring) :
  truthy (descriptionOrEmpty description) = truthyOpt description.
Proof. destruct description; reflexivity. Qed.

Lemma generateEntityFeature_quiet (projectPath entityName : jsstring)
    (description : option jsstring) (w : World) :
  truthyOpt description = false ->
  generateEntityFeature env openai projectPath entityName description w =
    (Normal tt, {| calls := calls w; console := console w;
                   written := written w ++ templateFiles projectPath entityName |}).
Proof.
  intros Hd.
  unfold generateEntityFeature, generateEntityComponent, generateEntityService.
  rewrite truthy_descriptionOrEmpty, Hd. cbn [andb].
  unfold bind, ret, writeFileSync. cbn [calls console written].
  unfold templateFiles. rewrite <- !app_assoc. reflexivity.
Qed.

Lemma forEach_features_quiet (projectPath : jsstring)
    (description : option jsstring) (line : jsstring -> jsstring) :
  truthyOpt description = false ->
  forall (names : list jsstring) (w : World),
  exists w',
    forEachM (fun entity =>
                consoleLog (line entity) ;;;
                generateEntityFeature env openai projectPath entity description)
             names w = (Normal tt, w') /\
    calls w' = calls w /\
    written w' = written w ++ flat_map (templateFiles projectPath) names.
Proof.
  intros Hd. induction names as [|e names IH]; intros w.
  - exists w. split; [reflexivity|]. split; [reflexivity | symmetry; apply app_nil_r].
  - cbn [forEachM flat_map]. unfold bind at 1. unfold bind at 1, consoleLog at 1.
    rewrite (generateEntityFeature_quiet projectPath e description _ Hd).
    match goal with
    | |- context [forEachM _ names ?w1] => destruct (IH w1) as (w2 & Hl & Hc & Hw)
    end.
    exists w2. split; [exact Hl|]. cbn [calls written] in *.
    split; [exact Hc|]. rewrite Hw, <- app_assoc. reflexivity.
Qed.

Lemma createConfigFiles_quiet (projectPath : jsstring) (config : Config) (w : World) :
  truthyOpt (description config) = false ->
  exists w',
    createConfigFiles env openai projectPath config w = (Normal tt, w') /\
    calls w' = calls w /\
    written w' =
      written w ++
      [ ([projectPath; js ".gitignore"], gitignore);
        ([projectPath; js ".editorconfig"], editorconfig);
        ([projectPath; js ".npmrc"], npmrc) ] ++
      flat_map (templateFiles projectPath)
        (match entities config with Some l => l | None => [] end).
Proof.
  intros Hd. unfold createConfigFiles.
  do 3 write_step.
  set (names := match entities config with Some l => l | None => [] end).
  destruct (0 <? length names)%nat eqn:E.
  - unfold bind at 1, consoleLog at 1.
    match goal with
    | |- context [forEachM ?f names ?w0] =>
        destruct (forEach_features_quiet projectPath (description config)
                    (fun entity => js "   " ++ checkMark ++ js " Generating " ++
                                   entity ++ js " feature...") Hd names w0)
          as (w1 & H1 & Hc & Hw1)
    end.
    exists w1. split; [exact H1|]. cbn [written calls] in *.
    split; [exact Hc|]. rewrite Hw1, <- !app_assoc. reflexivity.
  - apply Nat.ltb_ge in E. destruct names; [|cbn [length] in E; lia].
    eexists. split; [reflexivity|]. cbn [calls written flat_map].
    split; [reflexivity|]. rewrite <- !app_assoc. reflexivity.
Qed.

End Quiet.

(** X17.  When the configuration has no description, or an empty one,
    [createConfigFiles] sends no request to the service even with the
    assist configured: every file is its template. *)
Theorem empty_description_no_request `{JSRuntime} (env : Env) (openai : OpenAIService)
    (projectPath : jsstring) (config : Config) (w : World) :
  truthyOpt (description config) = false ->
  fst (createConfigFiles env openai projectPath config w) = Normal tt /\
  calls (snd (createConfigFiles env openai projectPath config w)) = calls w /\
  written (snd (createConfigFiles env openai projectPath config w)) =
    written w ++
    [ ([projectPath; js ".gitignore"], gitignore);
      ([projectPath; js ".editorconfig"], editorconfig);
      ([projectPath; js ".npmrc"], npmrc) ] ++
    flat_map (templateFiles projectPath)
      (match entities config with Some l => l | None => [] end).
Proof.
  intros Hd.
  destruct (createConfigFiles_quiet env openai projectPath config w Hd)
    as (w' & Hg & Hc & Hw).
  rewrite Hg. cbn [fst snd]. auto.
Qed.

Lemma empty_description_no_request_witness :
  truthyOpt (description bareConfig) = false /\
  calls (snd (createConfigFiles keyEnv fixedService (js "out") bareConfig emptyWorld)) = 0%nat.
Proof.
  split; [reflexivity|].
  apply (@empty_description_no_request asciiRuntime keyEnv fixedService (js "out")
           bareConfig emptyWorld).
  reflexivity.
Defined.

(** X18.  A request without the heading "### Project Description" is
    parsed to a configuration without description, and the entities
    assigned to it are the default ["item"], for a runtime that lower-cases
    the empty string to itself; the assignment keeps the features, the
    version, the styling and the architecture. *)
Theorem no_description_pipeline `{JSRuntime} (body : jsstring) :
  toLowerCase [] = [] ->
  includes body (js "### Project Description") = false ->
  exists config config',
    parseIssueBody (VStr body) = Normal config /\
    description config = None /\
    assignEntities config = Normal config' /\
    description config' = None /\
    entities config' = Some [js "item"] /\
    features config' = features config /\
    version config' = version config /\
    styling config' = styling config /\
    architecture config' = architecture config.
Proof.
  intros Hlow Hno.
  destruct (parseIssueBody_fields body) as (v & s & a & d & _ & _ & _ & Hd & Hp).
  rewrite (matchField_absent _ _ Hno) in Hd. apply Normal_inj in Hd. subst d.
  eexists. eexists. split; [exact Hp|]. split; [reflexivity|].
  unfold assignEntities. cbn [description orElse].
  rewrite extract_recorded. unfold recorded. rewrite Hlow.
  assert (Hr : scanLexicon [] entityKeywords [] = []) by (vm_compute; reflexivity).
  rewrite Hr. cbn [bindC firstn]. repeat split.
Qed.

Lemma no_description_pipeline_witness :
  exists config config',
    parseIssueBody (VStr (js "### Angular Version")) = Normal config /\
    description config = None /\
    @assignEntities asciiRuntime config = Normal config' /\
    description config' = None /\
    entities config' = Some [js "item"] /\
    features config' = features config /\
    version config' = version config /\
    styling config' = styling config /\
    architecture config' = architecture config.
Proof.
  apply (@no_description_pipeline asciiRuntime (js "### Angular Version")).
  - reflexivity.
  - vm_compute. reflexivity.
Defined.

(* --------------------------------------------------------------------- *)
(** ** Directories of the feature files *)

Lemma createdBy_intro (dirs : list jsstring) (dir d : jsstring) :
  In dir dirs -> (dir = d \/ exists more, dir = (d ++ js "/") ++ more) ->
  createdBy dirs d = true.
Proof.
  intros Hin Hd. unfold createdBy. apply existsb_exists. exists dir.
  split; [exact Hin|]. apply orb_true_iff.
  destruct Hd as [-> | (more & ->)].
  - left. apply streq_refl.
  - right. apply startsWith_app.
Qed.

(** X19.  Every file [generateEntityFeature] writes for an entity of the
    configuration goes to a directory that [createModuleBasedStructure]
    has created: one of its [dirs] or a directory above one. *)
Theorem feature_dirs_created `{JSRuntime} (config : Config)
    (projectPath entityName componentCode serviceCode : jsstring)
    (file : path * jsstring) :
  In entityName (match entities config with Some l => l | None => [] end) ->
  In file (entityFiles projectPath entityName componentCode serviceCode) ->
  createdBy (structureDirs config) (directoryOf (fst file)) = true.
Proof.
  intros He Hf.
  assert (Hdirs : forall kind,
            kind = js "/components" \/ kind = js "/services" ->
            In (js "src/app/features/" ++ pluralize entityName ++ kind)
               (structureDirs config)).
  { intros kind Hk. unfold structureDirs. apply in_or_app. right.
    apply in_flat_map. exists entityName. split.
    - destruct (entities config); [exact He | destruct He].
    - destruct Hk as [-> | ->]; [left | right; left]; reflexivity. }
  unfold entityFiles in Hf.
  repeat (apply in_inv in Hf; destruct Hf as [<- | Hf]); [ | | | | | | destruct Hf];
    cbn [fst app tl removelast directoryOf pathText join].
  - apply createdBy_intro with (dir := js "src/app/features/" ++ pluralize entityName ++
                                       js "/components").
    + apply Hdirs. left. reflexivity.
    + left. reflexivity.
  - apply createdBy_intro with (dir := js "src/app/features/" ++ pluralize entityName ++
                                       js "/components").
    + apply Hdirs. left. reflexivity.
    + left. reflexivity.
  - apply createdBy_intro with (dir := js "src/app/features/" ++ pluralize entityName ++
                                       js "/components").
    + apply Hdirs. left. reflexivity.
    + left. reflexivity.
  - apply createdBy_intro with (dir := js "src/app/features/" ++ pluralize entityName ++
                                       js "/services").
    + apply Hdirs. right. reflexivity.
    + left. reflexivity.
  - apply createdBy_intro with (dir := js "src/app/core/interfaces").
    + unfold structureDirs. apply in_or_app. left. right. left. reflexivity.
    + left. reflexivity.
  - apply createdBy_intro with (dir := js "src/app/features/" ++ pluralize entityName ++
                                       js "/components").
    + apply Hdirs. left. reflexivity.
    + right. exists (js "components").
      rewrite <- !app_assoc. reflexivity.
Qed.

Lemma feature_dirs_created_witness :
  createdBy (structureDirs bareConfig)
    (directoryOf [js "out"; js "src/app/features"; js "items"; js "item.module.ts"]) = true.
Proof.
  apply (@feature_dirs_created asciiRuntime bareConfig (js "out") (js "item") [] []
           ([js "out"; js "src/app/features"; js "items"; js "item.module.ts"],
            moduleCode (js "item") (js "Item"))).
  - left. reflexivity.
  - do 5 right. left. reflexivity.
Defined.

(* --------------------------------------------------------------------- *)
(** ** No path is written twice *)

Lemma subsequence_refl {A} (l : list A) : subsequence l l.
Proof. induction l; [apply sub_nil | apply sub_take; assumption]. Qed.

Lemma subsequence_app {A} (a b c d : list A) :
  subsequence a b -> subsequence c d -> subsequence (a ++ c) (b ++ d).
Proof.
  induction 1 as [|x s l _ IH|x s l _ IH]; intros Hcd; cbn [app].
  - exact Hcd.
  - apply sub_skip. apply IH. exact Hcd.
  - apply sub_take. apply IH. exact Hcd.
Qed.

Lemma subsequence_flat_map {A B} (f : A -> list B) (s l : list A) :
  subsequence s l -> subsequence (flat_map f s) (flat_map f l).
Proof.
  induction 1 as [|x s l _ IH|x s l _ IH]; cbn [flat_map].
  - apply sub_nil.
  - apply (subsequence_app [] (f x) _ _ (subsequence_nil (f x)) IH).
  - apply subsequence_app; [apply subsequence_refl | exact IH].
Qed.

Lemma extract_in_lexicon `{JSRuntime} (d : jsstring) :
  exists l, extractEntitiesFromDescription (VStr d) = Normal l /\
            subsequence l entityNames.
Proof.
  destruct (extract_subsequence d) as (l & Hl & [[-> _] | [-> _]]);
    eexists; (split; [exact Hl|]); unfold entityNames.
  - apply (subsequence_app [] (map fst entityKeywords) _ _).
    + apply subsequence_nil.
    + apply subsequence_refl.
  - rewrite <- (app_nil_r (firstn 3 (recorded d))).
    apply subsequence_app; [|apply subsequence_nil].
    apply subsequence_firstn. rewrite recorded_spec.
    apply subsequence_map, subsequence_filter.
Qed.

Lemma NoDup_map_injective {A B} (f : A -> B) (l : list A) :
  (forall a b, f a = f b -> a = b) -> NoDup l -> NoDup (map f l).
Proof.
  intros Hf. induction 1 as [|x l Hx _ IH]; cbn [map]; constructor; [|exact IH].
  intros Hin. apply in_map_iff in Hin. destruct Hin as (y & Hy & Hin).
  apply Hf in Hy. subst y. exact (Hx Hin).
Qed.

Lemma configPaths_lexicon_NoDup : NoDup (configPaths entityNames).
Proof. apply distinct_NoDup. vm_compute. reflexivity. Qed.

Lemma templateFiles_paths `{JSRuntime} (projectPath : jsstring) (names : list jsstring) :
  map pathText (map fst (flat_map (templateFiles projectPath) names)) =
    map (fun relative => projectPath ++ js "/" ++ relative) (flat_map entityPaths names).
Proof.
  induction names as [|e names IH]; [reflexivity|].
  cbn [flat_map]. rewrite !map_app, IH. reflexivity.
Qed.

Lemma config_paths_NoDup `{JSRuntime} (projectPath : jsstring) (l : list jsstring) :
  subsequence l entityNames ->
  NoDup (map pathText
           ([ [projectPath; js ".gitignore"]; [projectPath; js ".editorconfig"];
              [projectPath; js ".npmrc"] ] ++
            map fst (flat_map (templateFiles projectPath) l))).
Proof.
  intros Hsub. rewrite map_app, templateFiles_paths.
  change (NoDup (map (fun relative => projectPath ++ js "/" ++ relative) (configPaths l))).
  apply NoDup_map_injective.
  - intros a b Hab. apply app_inv_head in Hab. apply app_inv_head in Hab. exact Hab.
  - apply (subsequence_NoDup _ (configPaths entityNames)).
    + unfold configPaths. apply subsequence_app; [apply subsequence_refl|].
      apply subsequence_flat_map. exact Hsub.
    + exact configPaths_lexicon_NoDup.
Qed.

(** X20.  In a run on a configuration whose entities were assigned from
    its description, [createConfigFiles] writes no path twice: the
    configuration files and the files of the detected entities all have
    different paths. *)
Theorem written_paths_distinct `{JSRuntime} (env : Env) (openai : OpenAIService)
    (projectPath : jsstring) (config : Config) (n : nat) (lines : list jsstring) :
  exists config',
    assignEntities config = Normal config' /\
    NoDup (map pathText
             (map fst (written (snd (createConfigFiles env openai projectPath config'
                                       {| calls := n; console := lines;
                                          written := [] |}))))).
Proof.
  unfold assignEntities.
  destruct (extract_in_lexicon (orElse (description config) [])) as (l & Hl & Hsub).
  rewrite Hl. cbn [bindC]. eexists. split; [reflexivity|].
  match goal with
  | |- context [createConfigFiles env openai projectPath ?c ?w] =>
      destruct (createConfigFiles_files env openai projectPath c w)
        as (files & rest & c0 & w' & Hg & Hw & Hp & _)
  end.
  rewrite Hg. cbn [fst snd entities written app] in *.
  pose proof (config_paths_NoDup projectPath l Hsub) as Hfull.
  rewrite Hp, app_assoc, map_app in Hfull.
  apply NoDup_app_remove_r in Hfull.
  rewrite Hw. exact Hfull.
Qed.

(* --------------------------------------------------------------------- *)
(** ** What the README lists *)

Lemma render_cons (line line' : list piece) (lines : list (list piece)) :
  render (line :: line' :: lines) =
    concat (map pieceText line) ++ nl ++ render (line' :: lines).
Proof. reflexivity. Qed.

(** X21.  The README starts with the project name as its title, lists
    every feature of the configuration as an item, and lists every
    reference image by its base name. *)
Theorem readme_lists `{JSRuntime} (projectName : jsstring) (config : Config)
    (referenceImages : list jsstring) (feature image : jsstring) :
  startsWith (readme projectName config referenceImages)
             (js "# " ++ projectName ++ nl) = true /\
  (In feature (features config) ->
   occursIn (js "- " ++ feature) (readme projectName config referenceImages)) /\
  (In image referenceImages ->
   occursIn (refLine (pathBasename image)) (readme projectName config referenceImages)).
Proof.
  split; [|split].
  - unfold readme, readmeText. rewrite render_cons.
    match goal with
    | |- context [render ?r] => set (others := render r)
    end.
    clearbody others. cbn [map concat pieceText]. rewrite app_nil_r.
    replace ((js "# " ++ projectName) ++ nl ++ others)
      with ((js "# " ++ projectName ++ nl) ++ others)
      by (rewrite <- !app_assoc; reflexivity).
    apply startsWith_app.
  - intros Hf. unfold readme.
    destruct (features config) as [|f0 fs] eqn:Efs; [destruct Hf|].
    rewrite <- Efs in *. clear Efs. 
    assert (Hlen : (0 <? length (features config))%nat = true).
    { destruct (features config); [destruct Hf | reflexivity]. }
    rewrite Hlen.
    match goal with
    | |- occursIn _ (readmeText _ _ _ _ ?x _) => set (lines := x)
    end.
    assert (Hlines : occursIn (js "- " ++ feature) lines).
    { apply occursIn_join.
      apply (in_map (fun f => js "- " ++ f)). exact Hf. }
    clearbody lines.
    apply occursIn_trans with (y := lines); [exact Hlines|].
    unfold readmeText.
    apply occursIn_render with (line := [V lines]).
    + do 22 right. left. reflexivity.
    + left. reflexivity.
  - intros Hi. unfold readme.
    assert (Hlen : (0 <? length referenceImages)%nat = true).
    { destruct referenceImages; [destruct Hi | reflexivity]. }
    rewrite Hlen.
    match goal with
    | |- occursIn _ (readmeText _ _ (refSectionText ?x) _ _ _) => set (lines := x)
    end.
    assert (Hlines : occursIn (refLine (pathBasename image)) lines).
    { apply occursIn_join.
      apply (in_map (fun img => refLine (pathBasename img))). exact Hi. }
    clearbody lines.
    apply occursIn_trans with (y := refSectionText lines).
    + apply occursIn_trans with (y := lines); [exact Hlines|].
      unfold refSectionText.
      apply occursIn_render with (line := [V lines]).
      * do 5 right. left. reflexivity.
      * left. reflexivity.
    + unfold readmeText.
      match goal with
      | |- occursIn _ (render (_ :: _ :: _ :: ?ln :: _)) =>
          apply occursIn_render with (line := ln)
      end.
      * do 3 right. left. reflexivity.
      * left. reflexivity.
Qed.

Lemma readme_lists_witness :
  occursIn (js "- routing")
    (@readme asciiRuntime (js "shop")
       {| features := [js "routing"]; styling := js "SCSS";
          version := js "Angular 17 (Latest)"; architecture := js "Module-based";
          description := None; entities := None |}
       [js "images/home-mockup.png"]) /\
  occursIn (refLine (js "home-mockup.png"))
    (@readme asciiRuntime (js "shop")
       {| features := [js "routing"]; styling := js "SCSS";
          version := js "Angular 17 (Latest)"; architecture := js "Module-based";
          description := None; entities := None |}
       [js "images/home-mockup.png"]).
Proof.
  destruct (@readme_lists asciiRuntime (js "shop")
              {| features := [js "routing"]; styling := js "SCSS";
                 version := js "Angular 17 (Latest)"; architecture := js "Module-based";
                 description := None; entities := None |}
              [js "images/home-mockup.png"] (js "routing") (js "images/home-mockup.png"))
    as (_ & Hf & Hi).
  split; [apply Hf | apply Hi]; left; reflexivity.
Defined.

(* --------------------------------------------------------------------- *)
(** ** Routes added to an existing project *)

Lemma getSubstitution_plain (matched before after capture : jsstring) :
  forall text replacement,
  noDollar text = true ->
  getSubstitution matched before after capture (text ++ replacement) =
    text ++ getSubstitution matched before after capture replacement.
Proof.
  induction text as [|c text IH]; intros replacement Ht; [reflexivity|].
  cbn [noDollar forallb] in Ht. apply andb_true_iff in Ht. destruct Ht as [Hc Ht].
  cbn [app getSubstitution]. rewrite Hc. rewrite (IH replacement Ht). reflexivity.
Qed.

Lemma getSubstitution_group (matched before after capture : jsstring) :
  getSubstitution matched before after capture (js "$1") = capture.
Proof. cbn. apply app_nil_r. Qed.

Lemma indexOf_split (p : jsstring) : forall s i,
  indexOf s p = Some i -> s = firstn i s ++ p ++ skipn (i + length p) s.
Proof.
  induction s as [|c s IH]; intros i Hi.
  - cbn [indexOf] in Hi. destruct (startsWith [] p) eqn:E; [|discriminate].
    injection Hi as <-. apply startsWith_inv in E. destruct E as (b & E).
    symmetry in E. apply app_eq_nil in E. destruct E as [-> ->]. reflexivity.
  - cbn [indexOf] in Hi. destruct (startsWith (c :: s) p) eqn:E.
    + injection Hi as <-. apply startsWith_inv in E. destruct E as (b & E).
      cbn [firstn app Nat.add]. rewrite E at 2. rewrite skipn_app_exact. exact E.
    + destruct (indexOf s p) as [j|] eqn:Ej; [|discriminate].
      injection Hi as <-. cbn [firstn app Nat.add skipn].
      rewrite <- (IH j eq_refl). reflexivity.
Qed.

Section Routing.

Context {runtime : JSRuntime}.

Lemma noDollar_app (a b : jsstring) :
  noDollar (a ++ b) = noDollar a && noDollar b.
Proof. apply forallb_app. Qed.

Lemma newRoute_noDollar (featureName : jsstring) :
  noDollar featureName = true -> noDollar (capitalizeFirst featureName) = true ->
  noDollar (newRoute featureName) = true.
Proof.
  intros Hn Hc. unfold newRoute, render.
  cbn [map concat pieceText join]. rewrite !noDollar_app, Hn, Hc. reflexivity.
Qed.

Lemma newRoute_marker (featureName : jsstring) :
  occursIn (routeMarker featureName) (newRoute featureName).
Proof.
  unfold newRoute, render, routeMarker. cbn [map concat pieceText join].
  exists (js "  {" ++ nl ++ js "    "). eexists.
  change (js "    path: '") with (js "    " ++ js "path: '").
  change (js "',") with (js "'" ++ js ",").
  rewrite <- !app_assoc. reflexivity.
Qed.

Lemma updateAppRouting_at (content featureName : jsstring) (i : nat) :
  includes content (routeMarker featureName) = false ->
  indexOf content (js "];") = Some i ->
  noDollar featureName = true -> noDollar (capitalizeFirst featureName) = true ->
  updateAppRouting content featureName =
    firstn i content ++ (js "," ++ nl ++ newRoute featureName ++ nl ++ js "];") ++
    skipn (i + 2) content.
Proof.
  intros Hm Hi Hn Hc. unfold updateAppRouting, replaceFirst.
  rewrite Hm, Hi. cbn [negb]. apply f_equal.
  change (length (js "];")) with 2%nat. apply (f_equal (fun x => x ++ skipn (i + 2) content)).
  change (js "," ++ nl ++ newRoute featureName ++ nl ++ js "$1")
    with ((js "," ++ nl) ++ newRoute featureName ++ nl ++ js "$1").
  rewrite getSubstitution_plain by reflexivity.
  rewrite getSubstitution_plain by (apply newRoute_noDollar; assumption).
  rewrite getSubstitution_plain by reflexivity.
  rewrite getSubstitution_group. rewrite <- !app_assoc. reflexivity.
Qed.

End Routing.

(** X22.  Adding the route of a feature twice is adding it once: on
    every text of the routing file, a second [updateAppRouting] for the
    same feature leaves the text of the first as it is, for a feature name
    and a class name without dollar sign. *)
Theorem routing_update_idempotent `{JSRuntime} (content featureName : jsstring) :
  noDollar featureName = true -> noDollar (capitalizeFirst featureName) = true ->
  updateAppRouting (updateAppRouting content featureName) featureName =
    updateAppRouting content featureName.
Proof.
  intros Hn Hc.
  destruct (includes content (routeMarker featureName)) eqn:Hm.
  - unfold updateAppRouting. rewrite Hm. cbn [negb]. rewrite Hm. reflexivity.
  - destruct (indexOf content (js "];")) as [i|] eqn:Hi.
    + rewrite (updateAppRouting_at content featureName i Hm Hi Hn Hc).
      set (content' := firstn i content ++ _).
      unfold updateAppRouting.
      assert (Hm' : includes content' (routeMarker featureName) = true).
      { apply includes_occursIn. unfold content'.
        apply occursIn_app_r, occursIn_app_l, occursIn_app_r, occursIn_app_r,
              occursIn_app_l.
        apply newRoute_marker. }
      rewrite Hm'. reflexivity.
    + assert (Hsame : updateAppRouting content featureName = content).
      { unfold updateAppRouting, replaceFirst. rewrite Hm, Hi. reflexivity. }
      rewrite Hsame. exact Hsame.
Qed.

Lemma routing_update_idempotent_witness :
  noDollar (js "auth") = true /\
  noDollar (@capitalizeFirst asciiRuntime (js "auth")) = true /\
  @updateAppRouting asciiRuntime
    (@updateAppRouting asciiRuntime appRoutingModule (js "auth")) (js "auth") =
    @updateAppRouting asciiRuntime appRoutingModule (js "auth").
Proof.
  split; [reflexivity|]. split; [reflexivity|].
  apply (@routing_update_idempotent asciiRuntime appRoutingModule (js "auth"));
    reflexivity.
Defined.

Lemma capitalizeFirst_names `{JSRuntime} :
  asciiFaithful ->
  capitalizeFirst (js "auth") = js "Auth" /\
  capitalizeFirst (js "user") = js "User" /\
  capitalizeFirst (js "dashboard") = js "Dashboard" /\
  capitalizeFirst (js "new-feature") = js "NewFeature".
Proof.
  intros Hf. destruct H as [lower upper base].
  unfold asciiFaithful in Hf. cbn [toUpperCase] in Hf.
  unfold capitalizeFirst.
  repeat split; vm_compute; rewrite !Hf by reflexivity; reflexivity.
Qed.

Lemma generated_routing_split :
  appRoutingModule = generatedRoutes ++ js "];" ++ generatedRoutesEnd.
Proof. vm_compute. reflexivity. Qed.

Lemma generated_routing_at (i : nat) :
  indexOf appRoutingModule (js "];") = Some i ->
  firstn i appRoutingModule = generatedRoutes /\
  skipn (i + 2) appRoutingModule = generatedRoutesEnd.
Proof.
  intros Hi. vm_compute in Hi. injection Hi as <-. split; vm_compute; reflexivity.
Qed.

(** X23.  The modifier extends the routing module the generator writes:
    whatever the description of the modification, the route of the
    feature derived from it ("auth", "user", "dashboard" or "new-feature")
    is put after the last generated route, before the bracket that closes
    the routes, and the rest of the file is kept; the runtime is asked to
    upper-case ASCII letters as ASCII does. *)
Theorem generated_routing_updated `{JSRuntime} (description : option jsstring) :
  asciiFaithful ->
  In (featureNameOf description)
     [js "auth"; js "user"; js "dashboard"; js "new-feature"] /\
  updateAppRouting appRoutingModule (featureNameOf description) =
    generatedRoutes ++
    (js "," ++ nl ++ newRoute (featureNameOf description) ++ nl ++ js "];") ++
    generatedRoutesEnd.
Proof.
  intros Hf. destruct (capitalizeFirst_names Hf) as (Ha & Hu & Hd & Hn).
  destruct (indexOf appRoutingModule (js "];")) as [i|] eqn:Hi;
    [|vm_compute in Hi; discriminate].
  destruct (generated_routing_at i Hi) as [Hbefore Hafter].
  assert (Hall : forall name,
            In name [js "auth"; js "user"; js "dashboard"; js "new-feature"] ->
            updateAppRouting appRoutingModule name =
              generatedRoutes ++ (js "," ++ nl ++ newRoute name ++ nl ++ js "];") ++
              generatedRoutesEnd).
  { intros name Hin. rewrite <- Hbefore, <- Hafter.
    repeat (apply in_inv in Hin; destruct Hin as [<- | Hin]); [ | | | | destruct Hin];
      apply updateAppRouting_at;
      try exact Hi; try (vm_compute; reflexivity);
      rewrite ?Ha, ?Hu, ?Hd, ?Hn; reflexivity. }
  assert (Hname : In (featureNameOf description)
                     [js "auth"; js "user"; js "dashboard"; js "new-feature"]).
  { unfold featureNameOf.
    destruct (includes _ (js "auth")); [left; reflexivity|].
    destruct (includes _ (js "user")); [right; left; reflexivity|].
    destruct (includes _ (js "dashboard")); [do 2 right; left; reflexivity|].
    do 3 right. left. reflexivity. }
  split; [exact Hname | exact (Hall _ Hname)].
Qed.

Lemma generated_routing_updated_witness :
  @asciiFaithful asciiRuntime /\
  @updateAppRouting asciiRuntime appRoutingModule
    (@featureNameOf asciiRuntime (Some (js "Add a Dashboard page"))) =
    generatedRoutes ++
    (js "," ++ nl ++
     @newRoute asciiRuntime (@featureNameOf asciiRuntime (Some (js "Add a Dashboard page"))) ++
     nl ++ js "];") ++
    generatedRoutesEnd.
Proof.
  split; [intros s _; reflexivity|].
  apply (@generated_routing_updated asciiRuntime (Some (js "Add a Dashboard page"))).
  intros s _. reflexivity.
Defined.

(* --------------------------------------------------------------------- *)
(** ** Dependencies added to package.json *)

Lemma split_head_at (sep : N) (s : jsstring) :
  startsWith s [sep] = true -> nth 0 (split sep s) [] = [].
Proof.
  destruct s as [|c s]; [reflexivity|].
  cbn [startsWith split]. rewrite N.eqb_sym.
  destruct (c =? sep)%N; [reflexivity | discriminate].
Qed.

Lemma addDependency_kept (obj : object) (dep name : jsstring) (v : json) :
  obj name = Some v -> jsonTruthy v = true ->
  exists obj', addDependency (Some obj) dep = Normal (Some obj') /\
               obj' name = Some v.
Proof.
  intros Hv Ht. unfold addDependency.
  destruct (truthy dep && negb (startsWith dep (js "Python:")));
    [|exists obj; auto].
  destruct (truthy (nth 0 (split (ch "@") dep) [])); [|exists obj; auto].
  destruct (propTruthy obj (nth 0 (split (ch "@") dep) [])) eqn:Ep; cbn [negb];
    [exists obj; auto|].
  eexists. split; [reflexivity|]. unfold setProp.
  destruct (streq name (nth 0 (split (ch "@") dep) [])) eqn:En; [|exact Hv].
  apply streq_true_iff in En. subst name.
  unfold propTruthy in Ep. rewrite Hv, Ht in Ep. discriminate.
Qed.

(** X24.  [updatePackageJson] never changes a dependency that is there:
    on a package.json with a dependencies object the loop completes
    without throwing, and every name that held a truthy value holds the
    same value afterwards, whatever the new entries are. *)
Theorem dependency_kept (dependencies : list jsstring) :
  forall (obj : object) (name : jsstring) (v : json),
  obj name = Some v -> jsonTruthy v = true ->
  exists obj', updatePackageJson (Some obj) dependencies = Normal (Some obj') /\
               obj' name = Some v.
Proof.
  induction dependencies as [|dep others IH]; intros obj name v Hv Ht.
  - exists obj. auto.
  - cbn [updatePackageJson].
    destruct (addDependency_kept obj dep name v Hv Ht) as (obj1 & H1 & Hv1).
    rewrite H1. cbn [bindC]. apply IH; assumption.
Qed.

Lemma dependency_kept_witness :
  generatedDependencies (js "rxjs") = Some (JString (js "~7.8.0")) /\
  exists obj',
    updatePackageJson (Some generatedDependencies) [js "rxjs@8.0.0"; js "lodash"] =
      Normal (Some obj') /\
    obj' (js "rxjs") = Some (JString (js "~7.8.0")).
Proof.
  split; [reflexivity|].
  apply (dependency_kept [js "rxjs@8.0.0"; js "lodash"] generatedDependencies (js "rxjs")
           (JString (js "~7.8.0"))); reflexivity.
Defined.

(** X25.  An entry that starts with "@", as the name of a scoped package
    does, is never added: [split('@')] leaves an empty name.  A list of
    such entries, of entries that start with "Python:" and of empty ones
    leaves the dependencies as they are, and does not even read them. *)
Theorem scoped_dependency_ignored (dependencies : list jsstring)
    (packageDependencies : option object) :
  (forall dep, In dep dependencies ->
     dep = [] \/ startsWith dep (js "Python:") = true \/ startsWith dep (js "@") = true) ->
  updatePackageJson packageDependencies dependencies = Normal packageDependencies.
Proof.
  induction dependencies as [|dep others IH]; intros Hall; [reflexivity|].
  cbn [updatePackageJson].
  assert (H1 : addDependency packageDependencies dep = Normal packageDependencies).
  { unfold addDependency.
    destruct (Hall dep (or_introl eq_refl)) as [-> | [Hp | Hs]].
    - reflexivity.
    - rewrite Hp, andb_false_r. reflexivity.
    - rewrite (split_head_at (ch "@") dep Hs). cbn [truthy].
      destruct (truthy dep && negb (startsWith dep (js "Python:"))); reflexivity. }
  rewrite H1. cbn [bindC]. apply IH.
  intros d Hd. apply Hall. right. exact Hd.
Qed.

Lemma scoped_dependency_ignored_witness :
  updatePackageJson None [js "@angular/material@17.0.0"; js "Python: flask"] = Normal None.
Proof.
  apply (scoped_dependency_ignored [js "@angular/material@17.0.0"; js "Python: flask"] None).
  intros dep Hin.
  apply in_inv in Hin. destruct Hin as [<- | Hin]; [right; right; reflexivity|].
  apply in_inv in Hin. destruct Hin as [<- | Hin]; [right; left; reflexivity|].
  destruct Hin.
Defined.

Lemma split_plain (sep : N) (s : jsstring) :
  forallb (fun c => negb (c =? sep)%N) s = true -> split sep s = [s].
Proof.
  induction s as [|c s IH]; intros Hs; [reflexivity|].
  cbn [forallb] in Hs. apply andb_true_iff in Hs. destruct Hs as [Hc Hs].
  cbn [split]. apply negb_true_iff in Hc. rewrite Hc, (IH Hs). reflexivity.
Qed.

Lemma split_first (sep : N) (a b : jsstring) :
  forallb (fun c => negb (c =? sep)%N) a = true ->
  split sep (a ++ sep :: b) = a :: split sep b.
Proof.
  induction a as [|c a IH]; intros Ha.
  - cbn [app split]. rewrite N.eqb_refl. reflexivity.
  - cbn [forallb] in Ha. apply andb_true_iff in Ha. destruct Ha as [Hc Ha].
    cbn [app split]. apply negb_true_iff in Hc. rewrite Hc, (IH Ha). reflexivity.
Qed.

Lemma startsWith_app_cases (p : jsstring) : forall (a : jsstring) (c : N) (b : jsstring),
  startsWith (a ++ c :: b) p = true -> startsWith a p = true \/ In c p.
Proof.
  induction p as [|x p IH]; intros a c b Hs; [left; destruct a; reflexivity|].
  destruct a as [|y a]; cbn [app startsWith] in Hs |- *;
    apply andb_true_iff in Hs; destruct Hs as [Hx Hs].
  - right. left. apply N.eqb_eq in Hx. exact Hx.
  - destruct (IH a c b Hs) as [Ha | Hin].
    + left. rewrite Hx, Ha. reflexivity.
    + right. right. exact Hin.
Qed.

Lemma split_head (sep : N) (s : jsstring) :
  exists others, split sep s = takeUntilEq sep s :: others.
Proof.
  induction s as [|c s [others IH]]; [exists []; reflexivity|].
  cbn [split takeUntilEq]. destruct (c =? sep)%N.
  - eexists. reflexivity.
  - rewrite IH. eexists. reflexivity.
Qed.

(** X26.  A new package is added under its name with the version given
    after the "@", and with "latest" when none is given: for a name that
    is not empty, holds no "@", does not start with "Python:" and is
    neither a dependency nor a name inherited from [Object.prototype].
    The version is the text between the first "@" and the next one, or the
    end of the entry; when that text is empty the version is "latest". *)
Theorem dependency_added (obj : object) (name rest : jsstring) :
  truthy name = true ->
  forallb (fun c => negb (c =? ch "@")%N) name = true ->
  startsWith name (js "Python:") = false ->
  obj name = None -> arrIncludes protoKeys name = false ->
  (exists obj', updatePackageJson (Some obj) [name ++ js "@" ++ rest] =
                  Normal (Some obj') /\
                obj' name = Some (JString (orElse (Some (takeUntilEq (ch "@") rest))
                                                  (js "latest")))) /\
  (exists obj', updatePackageJson (Some obj) [name] = Normal (Some obj') /\
                obj' name = Some (JString (js "latest"))).
Proof.
  intros Hne Hn Hp Hfresh Hproto.
  assert (Hfalsy : propTruthy obj name = false)
    by (unfold propTruthy; rewrite Hfresh; exact Hproto).
  split.
  - cbn [updatePackageJson]. unfold addDependency.
    assert (Hpre : startsWith (name ++ js "@" ++ rest) (js "Python:") = false).
    { destruct (startsWith (name ++ js "@" ++ rest) (js "Python:")) eqn:E;
        [|reflexivity].
      apply (startsWith_app_cases (js "Python:") name (ch "@") rest) in E.
      destruct E as [E | E]; [congruence|].
      exfalso. vm_compute in E. intuition discriminate. }
    assert (Ht : truthy (name ++ js "@" ++ rest) = true)
      by (destruct name; [discriminate | reflexivity]).
    rewrite Ht, Hpre. cbn [andb negb].
    change (js "@" ++ rest) with (ch "@" :: rest).
    rewrite (split_first (ch "@") name rest Hn).
    destruct (split_head (ch "@") rest) as [others Hsplit]. rewrite Hsplit.
    cbn [nth nth_error]. rewrite Hne, Hfalsy. cbn [negb bindC].
    eexists. split; [reflexivity|]. unfold setProp. rewrite streq_refl. reflexivity.
  - cbn [updatePackageJson]. unfold addDependency.
    rewrite Hne, Hp. cbn [andb negb].
    rewrite (split_plain (ch "@") name Hn). cbn [nth nth_error].
    rewrite Hne, Hfalsy. cbn [negb bindC orElse].
    eexists. split; [reflexivity|]. unfold setProp. rewrite streq_refl. reflexivity.
Qed.

Lemma dependency_added_witness :
  (exists obj', updatePackageJson (Some generatedDependencies) [js "lodash" ++ js "@" ++ js "4.17.21@next"] =
                  Normal (Some obj') /\
                obj' (js "lodash") = Some (JString (js "4.17.21"))) /\
  (exists obj', updatePackageJson (Some generatedDependencies) [js "lodash"] =
                  Normal (Some obj') /\
                obj' (js "lodash") = Some (JString (js "latest"))).
Proof.
  apply (dependency_added generatedDependencies (js "lodash") (js "4.17.21@next"));
    reflexivity.
Defined.

(** The entries "a@b@c" and "a@" of a request: the version stored is "b",
    and "latest". *)
Example dependency_second_at :
  (exists obj', updatePackageJson (Some generatedDependencies) [js "a@b@c"] =
                  Normal (Some obj') /\ obj' (js "a") = Some (JString (js "b"))) /\
  (exists obj', updatePackageJson (Some generatedDependencies) [js "a@"] =
                  Normal (Some obj') /\ obj' (js "a") = Some (JString (js "latest"))).
Proof.
  split; eexists; split; reflexivity.
Qed.

(* --------------------------------------------------------------------- *)
(** ** Matches of the patterns of the modification request *)

Lemma rx_starLoop_sound (f : N -> bool) (k : mstate -> option mstate) :
  forall s p c res,
  Rx.starLoop f k p s c = Some res ->
  exists xs p' s', s = xs ++ s' /\ forallb f xs = true /\
                   k (MState p' s' c) = Some res.
Proof.
  induction s as [|x s IH]; intros p c res Hm; cbn [Rx.starLoop] in Hm.
  - exists [], p, []. auto.
  - destruct (f x) eqn:Ex; [|exists [], p, (x :: s); auto].
    destruct (Rx.starLoop f k (Some x) s c) as [r|] eqn:El.
    + injection Hm as ->. destruct (IH _ _ _ El) as (xs & p' & s' & -> & Hxs & Hk).
      exists (x :: xs), p', s'. cbn [forallb app]. rewrite Ex, Hxs. auto.
    + exists [], p, (x :: s). auto.
Qed.

Lemma rx_lazyLoop_sound (f : N -> bool) (k : mstate -> option mstate) :
  forall s p c res,
  Rx.lazyLoop f k p s c = Some res ->
  exists xs p' s', s = xs ++ s' /\ forallb f xs = true /\
                   k (MState p' s' c) = Some res.
Proof.
  induction s as [|x s IH]; intros p c res Hm; cbn [Rx.lazyLoop] in Hm.
  - destruct (k (MState p [] c)) as [r|] eqn:Ek; [|discriminate].
    injection Hm as ->. exists [], p, []. auto.
  - destruct (k (MState p (x :: s) c)) as [r|] eqn:Ek.
    + injection Hm as ->. exists [], p, (x :: s). auto.
    + destruct (f x) eqn:Ex; [|discriminate].
      destruct (IH _ _ _ Hm) as (xs & p' & s' & -> & Hxs & Hk).
      exists (x :: xs), p', s'. cbn [forallb app]. rewrite Ex, Hxs. auto.
Qed.

Lemma rx_manyLoop_sound (r : Rx.regex)
    (step : mstate -> (mstate -> option mstate) -> option mstate)
    (k : mstate -> option mstate) :
  (forall st k' res, step st k' = Some res ->
     exists st', Rx.den r st st' /\ k' st' = Some res) ->
  forall fuel st res,
  Rx.manyLoop step k fuel st = Some res ->
  exists st', Rx.den (Rx.Many r) st st' /\ k st' = Some res.
Proof.
  intros Hstep. induction fuel as [|fuel IH]; intros st res Hm; [discriminate|].
  cbn [Rx.manyLoop] in Hm. apply Hstep in Hm. destruct Hm as (mid & Hd & Hk).
  destruct (length (rest mid) <? length (rest st))%nat; [|discriminate].
  destruct (Rx.manyLoop step k fuel mid) as [r'|] eqn:El.
  - injection Hk as ->. destruct (IH _ _ El) as (st' & Hd' & Hk').
    exists st'. split; [|exact Hk']. exact (Rx.den_many_more _ _ _ _ Hd Hd').
  - exists mid. split; [|exact Hk]. exact (Rx.den_many_one _ _ _ Hd).
Qed.

Lemma rx_m_sound : forall r st k res,
  Rx.m r st k = Some res -> exists st', Rx.den r st st' /\ k st' = Some res.
Proof.
  induction r as [|f|r1 IH1 r2 IH2|r1 IH1 r2 IH2|f|f|f|r1 IH1|r1 IH1|r1 IH1|r1 IH1|];
    intros st k res Hm; cbn [Rx.m] in Hm.
  - exists st. split; [constructor | exact Hm].
  - destruct (rest st) as [|x s] eqn:Es; [discriminate|].
    destruct (f x) eqn:Ex; [|discriminate].
    eexists. split; [|exact Hm]. apply (Rx.den_chr f x s st Es Ex).
  - apply IH1 in Hm. destruct Hm as (mid & H1 & Hm).
    apply IH2 in Hm. destruct Hm as (st' & H2 & Hk).
    exists st'. split; [|exact Hk]. exact (Rx.den_cat _ _ _ _ _ H1 H2).
  - destruct (Rx.m r1 st k) as [res1|] eqn:E1.
    + injection Hm as ->. apply IH1 in E1. destruct E1 as (st' & H1 & Hk).
      exists st'. split; [|exact Hk]. exact (Rx.den_alt_l _ _ _ _ H1).
    + apply IH2 in Hm. destruct Hm as (st' & H2 & Hk).
      exists st'. split; [|exact Hk]. exact (Rx.den_alt_r _ _ _ _ H2).
  - apply rx_starLoop_sound in Hm. destruct Hm as (xs & p' & s' & Hs & Hxs & Hk).
    eexists. split; [|exact Hk]. apply (Rx.den_star f xs); auto.
  - destruct (rest st) as [|x s] eqn:Es; [discriminate|].
    destruct (f x) eqn:Ex; [|discriminate].
    apply rx_starLoop_sound in Hm. destruct Hm as (xs & p' & s' & Hs & Hxs & Hk).
    eexists. split; [|exact Hk]. apply (Rx.den_plus f (x :: xs)).
    + discriminate.
    + rewrite Es, Hs. reflexivity.
    + cbn [forallb]. rewrite Ex, Hxs. reflexivity.
    + reflexivity.
  - destruct (rest st) as [|x s] eqn:Es; [discriminate|].
    destruct (f x) eqn:Ex; [|discriminate].
    apply rx_lazyLoop_sound in Hm. destruct Hm as (xs & p' & s' & Hs & Hxs & Hk).
    eexists. split; [|exact Hk]. apply (Rx.den_lazy f (x :: xs)).
    + discriminate.
    + rewrite Es, Hs. reflexivity.
    + cbn [forallb]. rewrite Ex, Hxs. reflexivity.
    + reflexivity.
  - destruct (Rx.m r1 st k) as [res1|] eqn:E1.
    + injection Hm as ->. apply IH1 in E1. destruct E1 as (st' & H1 & Hk).
      exists st'. split; [|exact Hk]. exact (Rx.den_opt_some _ _ _ H1).
    + exists st. split; [|exact Hm]. apply Rx.den_opt_none.
  - apply (rx_manyLoop_sound r1) in Hm; [exact Hm|].
    intros st0 k' res0 H0. exact (IH1 _ _ _ H0).
  - apply IH1 in Hm. destruct Hm as (mid & H1 & Hk).
    eexists. split; [|exact Hk]. exact (Rx.den_group _ _ _ H1).
  - destruct (Rx.m r1 st Some) as [res1|] eqn:E1; [|discriminate].
    apply IH1 in E1. destruct E1 as (st' & H1 & _).
    exists st. split; [|exact Hm]. exact (Rx.den_ahead _ _ _ H1).
  - destruct (rest st) as [|x s] eqn:Es; [|discriminate].
    exists st. split; [|exact Hm]. exact (Rx.den_end _ Es).
Qed.

Lemma rx_exec_sound (r : Rx.regex) (s : jsstring) (res : mstate) :
  Rx.exec r s = Some res ->
  exists pre t q, s = pre ++ t /\ Rx.den r (MState q t None) res.
Proof.
  unfold Rx.exec. generalize (@None N) as p. revert res.
  induction s as [|x s IH]; intros res p Hm; cbn [Rx.execFrom] in Hm.
  - destruct (Rx.m r (MState p [] None) Some) as [res'|] eqn:E; [|discriminate].
    injection Hm as ->. apply rx_m_sound in E. destruct E as (st' & Hd & Hk).
    injection Hk as ->. exists [], [], p. auto.
  - destruct (Rx.m r (MState p (x :: s) None) Some) as [res'|] eqn:E.
    + injection Hm as ->. apply rx_m_sound in E. destruct E as (st' & Hd & Hk).
      injection Hk as ->. exists [], (x :: s), p. auto.
    + destruct (IH _ _ Hm) as (pre & t & q & -> & Hd).
      exists (x :: pre), t, q. auto.
Qed.

(** What group 1 holds after a group on an iterated class: a non-empty
    run of code units of the class. *)
Lemma rx_group_class (f : N -> bool) (r : Rx.regex) (st st' : mstate) :
  r = Rx.Plus f \/ r = Rx.LazyPlus f ->
  Rx.den (Rx.Group r) st st' ->
  exists text, cap st' = Some text /\ forallb f text = true /\ text <> [].
Proof.
  intros Hr Hd. inversion Hd as [| | | | | | | | | | | |r0 st0 mid Hin| |]; subst.
  cbn [cap].
  assert (Hrun : exists xs, xs <> [] /\ rest st = xs ++ rest mid /\ forallb f xs = true).
  { destruct Hr as [-> | ->]; inversion Hin; subst; eauto. }
  destruct Hrun as (xs & Hne & Hs & Hf).
  exists xs. rewrite Hs, firstn_app_exact. auto.
Qed.

Lemma rx_litI_occurs (w : jsstring) : forall st st',
  Rx.den (Rx.litI w) st st' ->
  exists w', rest st = w' ++ rest st' /\
             map canonicalize w' = map canonicalize w /\ cap st' = cap st.
Proof.
  induction w as [|c w IH]; intros st st' Hd; cbn [Rx.litI] in Hd.
  - inversion Hd; subst. exists []. auto.
  - inversion Hd as [| |r1 r2 st0 mid st0' H1 H2| | | | | | | | | | | |]; subst.
    unfold Rx.chrI in H1. inversion H1 as [|f x s st0 Hs Hx| | | | | | | | | | | | |]; subst.
    apply N.eqb_eq in Hx.
    destruct (IH _ _ H2) as (w' & Hw & Hc & Hcap). cbn [rest cap] in *.
    exists (x :: w'). rewrite Hs, Hw. cbn [map app]. rewrite Hx, Hc. auto.
Qed.

Ltac den_inv H := inversion H; subst; clear H.

Section RequestPatterns.

Import Modification.

Lemma group1_line (label : string) (body : jsstring) :
  exists captured,
    group1 (linePattern label) body = Normal captured /\
    match captured with
    | Some text => forallb notLineFeed text = true
    | None => True
    end.
Proof.
  unfold group1. destruct (Rx.exec (linePattern label) body) as [res|] eqn:Ex;
    [|exists None; auto].
  apply rx_exec_sound in Ex. destruct Ex as (pre & t & q & _ & Hd).
  unfold linePattern in Hd. den_inv Hd.
  match goal with H : Rx.den (Rx.Cat _ _) _ _ |- _ => den_inv H end.
  match goal with
  | H : Rx.den (Rx.Group _) _ _ |- _ =>
      apply (rx_group_class notLineFeed) in H; [|left; reflexivity];
      destruct H as (text & Hcap & Hf & _)
  end.
  rewrite Hcap. exists (Some text). auto.
Qed.

Lemma group1_block (label : string) (body : jsstring) :
  exists captured,
    group1 (blockPattern label) body = Normal captured /\
    match captured with
    | Some text => forallb notHash text = true
    | None => True
    end.
Proof.
  unfold group1. destruct (Rx.exec (blockPattern label) body) as [res|] eqn:Ex;
    [|exists None; auto].
  apply rx_exec_sound in Ex. destruct Ex as (pre & t & q & _ & Hd).
  unfold blockPattern in Hd. den_inv Hd.
  repeat match goal with H : Rx.den (Rx.Cat _ _) _ _ |- _ => den_inv H end.
  match goal with H : Rx.den (Rx.Ahead _) _ _ |- _ => den_inv H end.
  match goal with
  | H : Rx.den (Rx.Group _) _ _ |- _ =>
      apply (rx_group_class notHash) in H; [|right; reflexivity];
      destruct H as (text & Hcap & Hf & _)
  end.
  rewrite Hcap. exists (Some text). auto.
Qed.

Lemma group1_list (label : string) (text : jsstring) :
  exists captured, group1 (listPattern label) text = Normal captured.
Proof.
  unfold group1. destruct (Rx.exec (listPattern label) text) as [res|] eqn:Ex;
    [|exists None; auto].
  apply rx_exec_sound in Ex. destruct Ex as (pre & t & q & _ & Hd).
  unfold listPattern in Hd. den_inv Hd.
  repeat match goal with H : Rx.den (Rx.Cat _ _) _ _ |- _ => den_inv H end.
  match goal with H : Rx.den (Rx.Group _) _ _ |- _ => den_inv H end.
  cbn [cap]. eexists. reflexivity.
Qed.

Lemma canonicalize_star (x : N) : canonicalize x = 42%N -> x = 42%N.
Proof.
  unfold canonicalize, asciiUpper.
  destruct ((97 <=? x)%N && (x <=? 122)%N) eqn:E; [|auto].
  apply andb_true_iff in E. destruct E as [E1 E2].
  apply N.leb_le in E1. apply N.leb_le in E2. lia.
Qed.

(** A pattern that starts with the two asterisks of a heading matches
    only in a text that holds two asterisks in a row. *)
Lemma group1_needs_asterisks (heading : jsstring) (r : Rx.regex) (body : jsstring) :
  includes body (js "**") = false ->
  group1 (Rx.Cat (Rx.litI (js "**" ++ heading)) r) body = Normal None.
Proof.
  intros Hno. unfold group1.
  destruct (Rx.exec (Rx.Cat (Rx.litI (js "**" ++ heading)) r) body) as [res|] eqn:Ex;
    [|reflexivity].
  exfalso. apply rx_exec_sound in Ex. destruct Ex as (pre & t & q & Hb & Hd).
  inversion Hd as [| |r1 r2 st0 mid st0' H1 H2| | | | | | | | | | | |]; subst; clear Hd.
  apply (rx_litI_occurs (js "**" ++ heading)) in H1.
  destruct H1 as (w' & Hw & Hc & _).
  cbn [rest] in Hw.
  destruct w' as [|a [|b w']]; try discriminate.
  cbn [map app js] in Hc. injection Hc as Ha Hb' _.
  apply canonicalize_star in Ha. apply canonicalize_star in Hb'. subst a b.
  assert (Hin : includes (pre ++ t) (js "**") = true).
  { apply includes_occursIn. rewrite Hw. exists pre. eexists.
    cbn [app]. reflexivity. }
  congruence.
Qed.

Lemma split_no_sep (sep : N) (s : jsstring) :
  forall line, In line (split sep s) ->
               forallb (fun c => negb (c =? sep)%N) line = true.
Proof.
  induction s as [|c s IH]; intros line Hin; cbn [split] in Hin.
  - destruct Hin as [<- | []]. reflexivity.
  - destruct (c =? sep)%N eqn:Ec.
    + destruct Hin as [<- | Hin]; [reflexivity | exact (IH _ Hin)].
    + destruct (split sep s) as [|x others] eqn:Es.
      * destruct Hin as [<- | []]. cbn [forallb]. rewrite Ec. reflexivity.
      * destruct Hin as [<- | Hin].
        -- cbn [forallb]. rewrite Ec. cbn [negb andb]. apply IH. left. reflexivity.
        -- apply IH. right. exact Hin.
Qed.

Lemma stripBullet_In (line : jsstring) (x : N) :
  In x (stripBullet line) -> In x line.
Proof.
  unfold stripBullet. destruct line as [|c [|y others]]; auto.
  destruct (bullet c && isWhiteSpace y); [|auto].
  intros Hin. right. exact (trimStart_In _ _ Hin).
Qed.

Lemma itemLines_clean (text item : jsstring) :
  In item (itemLines text) -> truthy item = true -> cleanItem item = true.
Proof.
  unfold itemLines. intros Hin Ht. apply in_map_iff in Hin.
  destruct Hin as (line & <- & Hline).
  unfold cleanItem. rewrite Ht, trim_trimmed. cbn [andb].
  apply forallb_forall. intros x Hx.
  apply trim_In, stripBullet_In in Hx.
  pose proof (split_no_sep 10 text line Hline) as Hs.
  rewrite forallb_forall in Hs. exact (Hs x Hx).
Qed.

Lemma truthy_length (s : jsstring) : (0 <? length s)%nat = truthy s.
Proof. destruct s; reflexivity. Qed.

Lemma filesUnder_clean (label : string) (filesText : jsstring) :
  exists files, filesUnder label filesText = Normal files /\
                forallb cleanItem files = true.
Proof.
  unfold filesUnder. destruct (group1_list label filesText) as (captured & ->).
  cbn [bindC]. eexists. split; [reflexivity|].
  destruct captured as [text|]; [|reflexivity].
  apply forallb_forall. intros item Hin. apply filter_In in Hin.
  destruct Hin as [Hin Hlen]. rewrite truthy_length in Hlen.
  exact (itemLines_clean _ _ Hin Hlen).
Qed.

Lemma labelled_python (line : jsstring) :
  labelled line = false -> startsWith line (js "Python:") = false.
Proof.
  intros Hl. destruct (startsWith line (js "Python:")) eqn:E; [|reflexivity].
  apply startsWith_inv in E. destruct E as (b & ->).
  vm_compute in Hl. discriminate.
Qed.

(** The shape of a result: every pattern gives a match or none, never an
    error, and the fields are read off the matches. *)
Lemma parseModificationRequest_shape (body : jsstring) :
  exists target type kind desc created modified deps,
    parseModificationRequest (VStr body) =
      Normal {| target_repo := target; project_type := type;
                modification_type := kind; description := desc;
                files_to_create := created; files_to_modify := modified;
                dependencies := deps |} /\
    (forallb notLineFeed target && trimmed target = true) /\
    (forallb notLineFeed type && trimmed type = true) /\
    (forallb notLineFeed kind && trimmed kind = true) /\
    (forallb notHash desc && trimmed desc = true) /\
    forallb cleanItem created = true /\ forallb cleanItem modified = true /\
    forallb (fun dep => cleanItem dep && negb (labelled dep)) deps = true.
Proof.
  unfold parseModificationRequest. cbn [requireString bindC].
  destruct (group1_line "Target Repository" body) as (tr & -> & Htr).
  destruct (group1_line "Project Type" body) as (pt & -> & Hpt).
  destruct (group1_line "Modification Type" body) as (mt & -> & Hmt).
  destruct (group1_block "Description" body) as (de & -> & Hde).
  destruct (group1_block "Files to Modify/Create" body) as (fi & -> & _).
  destruct (group1_block "New Dependencies" body) as (dp & Hdp & _).
  cbn [bindC].
  assert (Hfiles : exists created modified,
            match fi with
            | Some filesText =>
                bindC (filesUnder "Create" filesText) (fun created =>
                bindC (filesUnder "Modify" filesText) (fun modified =>
                  Normal (created, modified)))
            | None => Normal ([], [])
            end = Normal (created, modified) /\
            forallb cleanItem created = true /\ forallb cleanItem modified = true).
  { destruct fi as [filesText|]; [|exists [], []; auto].
    destruct (filesUnder_clean "Create" filesText) as (created & -> & Hc).
    destruct (filesUnder_clean "Modify" filesText) as (modified & -> & Hm).
    exists created, modified. auto. }
  destruct Hfiles as (created & modified & -> & Hc & Hm).
  cbn [bindC]. rewrite Hdp. cbn [bindC fst snd].
  eexists _, _, _, _, _, _, _. split; [reflexivity|].
  assert (Hline : forall captured,
            match captured with
            | Some text => forallb notLineFeed text = true
            | None => True
            end ->
            forallb notLineFeed (trimmedOr [] captured) &&
            trimmed (trimmedOr [] captured) = true).
  { intros [text|] Ht; [|reflexivity]. cbn [trimmedOr].
    rewrite trim_trimmed, andb_true_r.
    apply forallb_forall. intros x Hx. apply trim_In in Hx.
    rewrite forallb_forall in Ht. exact (Ht x Hx). }
  repeat split; try (apply Hline; assumption); try assumption.
  - destruct de as [text|]; [|reflexivity]. cbn [trimmedOr].
    rewrite trim_trimmed, andb_true_r.
    apply forallb_forall. intros x Hx. apply trim_In in Hx.
    rewrite forallb_forall in Hde. exact (Hde x Hx).
  - destruct dp as [text|]; [|reflexivity].
    apply forallb_forall. intros dep Hin. apply filter_In in Hin.
    destruct Hin as [Hin Hok]. apply andb_true_iff in Hok. destruct Hok as [Hlen Hlab].
    rewrite truthy_length in Hlen.
    rewrite (itemLines_clean _ _ Hin Hlen), Hlab. reflexivity.
Qed.

End RequestPatterns.

(** X27.  [parseModificationRequest] returns normally on every text.  The
    target repository, the project type and the modification type it
    returns hold no line feed, the description holds no "#", and none of
    the four has white space at either end. *)
Theorem modification_fields_tidy (body : jsstring) :
  exists mods,
    Modification.parseModificationRequest (VStr body) = Normal mods /\
    forallb Modification.notLineFeed (Modification.target_repo mods) = true /\
    trimmed (Modification.target_repo mods) = true /\
    forallb Modification.notLineFeed (Modification.project_type mods) = true /\
    trimmed (Modification.project_type mods) = true /\
    forallb Modification.notLineFeed (Modification.modification_type mods) = true /\
    trimmed (Modification.modification_type mods) = true /\
    forallb Modification.notHash (Modification.description mods) = true /\
    trimmed (Modification.description mods) = true.
Proof.
  destruct (parseModificationRequest_shape body)
    as (target & type & kind & desc & created & modified & deps &
        Hp & Ht & Hy & Hk & Hd & _).
  eexists. split; [exact Hp|].
  cbn [Modification.target_repo Modification.project_type
       Modification.modification_type Modification.description].
  apply andb_true_iff in Ht, Hy, Hk, Hd. tauto.
Qed.

(** X28.  Every file and every dependency [parseModificationRequest]
    returns is a non-empty line without white space at either end, and no
    dependency starts with "Python:", "Angular:" or "npm:" in any case:
    the test for "Python:" in [updatePackageJson] never finds one in the
    output of the parser. *)
Theorem modification_lists_clean (body : jsstring) :
  exists mods,
    Modification.parseModificationRequest (VStr body) = Normal mods /\
    forallb cleanItem (Modification.files_to_create mods) = true /\
    forallb cleanItem (Modification.files_to_modify mods) = true /\
    forallb cleanItem (Modification.dependencies mods) = true /\
    forallb (fun dep => negb (Modification.labelled dep))
            (Modification.dependencies mods) = true /\
    forallb (fun dep => negb (startsWith dep (js "Python:")))
            (Modification.dependencies mods) = true.
Proof.
  destruct (parseModificationRequest_shape body)
    as (target & type & kind & desc & created & modified & deps &
        Hp & _ & _ & _ & _ & Hc & Hm & Hdeps).
  eexists. split; [exact Hp|].
  cbn [Modification.files_to_create Modification.files_to_modify
       Modification.dependencies].
  split; [exact Hc|]. split; [exact Hm|].
  rewrite forallb_forall in Hdeps.
  repeat split; apply forallb_forall; intros dep Hin; cbv beta;
    specialize (Hdeps dep Hin); apply andb_true_iff in Hdeps;
    destruct Hdeps as [Hclean Hlab].
  - exact Hclean.
  - exact Hlab.
  - apply negb_true_iff in Hlab. rewrite (labelled_python _ Hlab). reflexivity.
Qed.

(** X29.  A text without two asterisks in a row names nothing: every field
    of the result is empty. *)
Theorem modification_defaults (body : jsstring) :
  includes body (js "**") = false ->
  Modification.parseModificationRequest (VStr body) = Normal noModifications.
Proof.
  intros Hno. unfold Modification.parseModificationRequest.
  cbn [requireString bindC].
  unfold Modification.linePattern, Modification.blockPattern.
  rewrite !(group1_needs_asterisks _ _ body Hno). reflexivity.
Qed.

Lemma modification_defaults_witness :
  includes (js "Please add a login page") (js "**") = false /\
  Modification.parseModificationRequest (VStr (js "Please add a login page")) =
    Normal noModifications.
Proof.
  split; [reflexivity|].
  apply (modification_defaults (js "Please add a login page")). reflexivity.
Defined.
